(** * kali_sse: task manager, process executor, event bus and MCP gateway

    A shallow embedding of the Python sources

      - [src/core/task_manager.py]      (module [TaskManager])
      - [src/core/executor.py]          (module [Executor])
      - [src/protocols/sse_handler.py]  (module [SSE])
      - [src/protocols/message_parser.py] (module [MessageParser])
      - [src/mcp_sse_endpoint.py]       (module [MCPSSE])
      - [src/protocols/mcp_server.py]   (module [MCPServer])

    Dictionaries keyed by strings are [gmap string _]; JSON objects, whose
    (unique) keys are only looked up, are association lists.  Python
    exceptions are values of [exn], threaded through [outcome].  Clock
    readings ([time.time()]) and fresh identifiers ([uuid.uuid4()]) are
    arguments of the functions that read them.  Floating-point timestamps
    are integers here; JSON numbers are integers, except for the timeout
    of the executor, which ranges over [Executor.number]. *)

From Stdlib Require Import ZArith QArith Qcanon Lia Bool List Ascii.
From stdpp Require Import base option numbers strings pretty list sorting gmap.

#[local] Set Warnings "-register-all".

Open Scope string_scope.
Open Scope list_scope.
Open Scope Z_scope.

(* ===================================================================== *)
(** ** Python values, exceptions *)
(* ===================================================================== *)

(** Exceptions raised inside the modelled code.  The payload is the
    exception's message where the source fixes it. *)
Inductive exn : Type :=
  | KeyError (key : string)
  | ValueError (msg : string)
  | TypeError (msg : string)
  | AttributeError (msg : string)
  | OSError (msg : string)
  | TimeoutExpired
  | OtherError (msg : string).

Inductive outcome (A : Type) : Type :=
  | Return (a : A)
  | Raise (e : exn).
Arguments Return {A} a.
Arguments Raise {A} e.

#[global] Instance outcome_ret : MRet outcome := @Return.
#[global] Instance outcome_bind : MBind outcome := λ A B k m,
  match m with
  | Return a => k a
  | Raise e => Raise e
  end.

#[global] Instance outcome_fmap : FMap outcome := λ A B f m,
  match m with
  | Return a => Return (f a)
  | Raise e => Raise e
  end.

(** [str(e)] for the exceptions above. *)
Definition exn_str (e : exn) : string :=
  match e with
  | KeyError k => "'" +:+ k +:+ "'"
  | ValueError m | TypeError m | AttributeError m | OSError m | OtherError m => m
  | TimeoutExpired => "timed out"
  end.

(** JSON values as produced by [json.loads] (numbers restricted to
    integers). *)
Inductive json : Type :=
  | JNull
  | JBool (b : bool)
  | JInt (z : Z)
  | JStr (s : string)
  | JArr (l : list json)
  | JObj (d : list (string * json)).

Abbreviation dict := (list (string * json)).

(** [d.get(k)] and [k in d]. *)
Fixpoint dict_get (k : string) (d : dict) : option json :=
  match d with
  | [] => None
  | (k', v) :: d' => if String.eqb k k' then Some v else dict_get k d'
  end.

Definition dict_get_default (k : string) (dflt : json) (d : dict) : json :=
  default dflt (dict_get k d).

Definition dict_mem (k : string) (d : dict) : bool :=
  match dict_get k d with Some _ => true | None => false end.

(** Python truthiness ([bool(v)], [if v:], [not v]). *)
Definition truthy (v : json) : bool :=
  match v with
  | JNull => false
  | JBool b => b
  | JInt z => negb (z =? 0)
  | JStr s => negb (String.eqb s "")
  | JArr l => match l with [] => false | _ => true end
  | JObj d => match d with [] => false | _ => true end
  end.

(** Truthiness of an optional number ([not task.completed_at]). *)
Definition truthy_time (t : option Z) : bool :=
  match t with
  | None => false
  | Some z => negb (z =? 0)
  end.

(** Values that can be used as dictionary keys. *)
Definition hashable (v : json) : bool :=
  match v with
  | JArr _ | JObj _ => false
  | _ => true
  end.

(** [" ".join(parts)]. *)
Fixpoint join_space (parts : list string) : string :=
  match parts with
  | [] => ""
  | [p] => p
  | p :: rest => p +:+ " " +:+ join_space rest
  end.

(** [":".join(parts)]. *)
Fixpoint join_colon (parts : list string) : string :=
  match parts with
  | [] => ""
  | [p] => p
  | p :: rest => p +:+ ":" +:+ join_colon rest
  end.

(* ===================================================================== *)
(** ** Configuration ([ExecutionConfig] of config_manager.py) *)
(* ===================================================================== *)

Record ExecutionConfig : Type := {
  default_timeout : Z;
  max_timeout : Z;
  max_concurrent_tasks : Z;
  working_directory : string;
  (** [ExecutionConfig] declares no [environment] field;
      [_prepare_environment] tests for it with [hasattr]. *)
  environment : option (gmap string string)
}.

Definition default_config : ExecutionConfig :=
  {| default_timeout := 300;
     max_timeout := 3600;
     max_concurrent_tasks := 20;
     working_directory := "/tmp/kali_sse";
     environment := None |}.

(* ===================================================================== *)
(** ** Process executor (src/core/executor.py) *)
(* ===================================================================== *)

Module Executor.

(** The numbers that reach [timeout].  The parameter is declared
    [Optional[int]], but the callers hand over the client's JSON number
    unchecked, so floats arrive as well, [Infinity] and [NaN] among them
    ([json.loads] accepts both).  A finite float is given by its exact
    value and by the text [str] prints for it. *)
Inductive number : Type :=
  | Int (z : Z)
  | Float (q : Qc) (text : string)
  | Infinity
  | NegInfinity
  | NaN.

(** [str(x)]. *)
Definition number_str (x : number) : string :=
  match x with
  | Int z => pretty z
  | Float _ text => text
  | Infinity => "inf"
  | NegInfinity => "-inf"
  | NaN => "nan"
  end.

(** [m < x] and [x <= m] for an integer [m]; both are false when [x]
    is [NaN]. *)
Definition int_lt (m : Z) (x : number) : bool :=
  match x with
  | Int z => m <? z
  | Float q _ => bool_decide (Qc_of_Z m < q)%Qc
  | Infinity => true
  | NegInfinity | NaN => false
  end.

Definition le_int (x : number) (m : Z) : bool :=
  match x with
  | Int z => z <=? m
  | Float q _ => bool_decide (q ≤ Qc_of_Z m)%Qc
  | NegInfinity => true
  | Infinity | NaN => false
  end.

(** [min(x, m)]: the second argument when it is smaller than the
    first, else the first. *)
Definition py_min (x : number) (m : Z) : number :=
  if int_lt m x then Int m else x.

(** [ExecutionContext]; the [Popen] handle is the [Process] below. *)
Record ExecutionContext : Type := {
  task_id : string;
  command : string;
  timeout : number;
  start_time : Z;
  end_time : option Z;
  cancelled : bool;
  stdout_data : string;
  stderr_data : string;
  return_code : option Z
}.

(** [ExecutionContext.__init__], [now] being [time.time()]. *)
Definition new_context (task_id command : string) (timeout : number)
    (now : Z) : ExecutionContext :=
  {| task_id := task_id; command := command; timeout := timeout;
     start_time := now; end_time := None; cancelled := false;
     stdout_data := ""; stderr_data := ""; return_code := None |}.

(** What the operating system answers to the calls made on a [Popen]
    object. *)
Inductive comm_outcome : Type :=
  | CommDone (stdout stderr : string) (returncode : Z)
  | CommTimeout
  | CommError (e : exn).

Inductive wait_outcome : Type :=
  | WaitExited
  | WaitExpired
  | WaitError (e : exn).

Record Process : Type := {
  pid : Z;
  (** [communicate(timeout=t)] *)
  communicate : number → comm_outcome;
  (** [poll() is None] when the timeout handler looks at the process *)
  poll_running : bool;
  (** [terminate()]: [None] when the signal is sent, [Some e] when it
      raises *)
  terminate : option exn;
  (** [wait(timeout=t)] after [terminate()] *)
  wait_grace : Z → wait_outcome;
  (** [kill()] and the final [wait()] *)
  kill : option exn;
  wait_killed : option exn
}.

(** The calls made on the process, in order. *)
Inductive action : Type :=
  | Communicate (t : number)
  | Poll
  | Terminate
  | Wait (t : option Z)
  | Kill.

(** The host: parent environment, command lookup, process creation. *)
Record OS : Type := {
  environ : gmap string string;
  shlex_split : string → outcome (list string);
  is_valid_command : string → bool;
  popen : list string → gmap string string → string → outcome Process
}.

(** The result dictionaries of [_create_success_result] and
    [_create_error_result]; [error] is absent from the former. *)
Record ExecResult : Type := {
  r_success : bool;
  r_task_id : string;
  r_command : string;
  r_stdout : string;
  r_stderr : string;
  r_return_code : option Z;
  r_start_time : Z;
  r_end_time : option Z;
  r_duration : Z;
  r_error : option string;
  r_cancelled : bool;
  r_timeout : number
}.

Definition safe_paths : list string :=
  ["/usr/local/sbin"; "/usr/local/bin"; "/usr/sbin"; "/usr/bin"; "/sbin"; "/bin"].

(** [_prepare_environment]: copy of [os.environ], updated with the
    configured variables when the configuration has them, then
    [LC_ALL], [LANG] and [PATH] are overwritten. *)
Definition _prepare_environment (os : OS) (config : ExecutionConfig)
  : gmap string string :=
  let env := environ os in
  let env := match environment config with
             | Some extra => extra ∪ env
             | None => env
             end in
  let env := <["LC_ALL" := "C"]> env in
  let env := <["LANG" := "C"]> env in
  <["PATH" := join_colon safe_paths]> env.

(** [_parse_command]. *)
Definition _parse_command (os : OS) (command : string) : outcome (list string) :=
  parts ← shlex_split os command;
  match parts with
  | [] => Raise (ValueError "空命令")
  | cmd_name :: _ =>
      if is_valid_command os cmd_name then Return parts
      else Raise (ValueError ("无效的命令: " +:+ cmd_name))
  end.

(** [_terminate_process]: the exceptions of the calls are caught and
    logged, nothing is returned. *)
Definition _terminate_process (p : Process) : list action :=
  if poll_running p then
    [Poll; Terminate] ++
    match terminate p with
    | Some _ => []
    | None =>
        [Wait (Some 5)] ++
        match wait_grace p 5 with
        | WaitExited => []
        | WaitError _ => []
        | WaitExpired =>
            [Kill] ++
            match kill p with
            | Some _ => []
            | None => [Wait None]
            end
        end
    end
  else [Poll].

(** [(context.end_time or time.time())]. *)
Definition end_or_now (end_time : option Z) (now : Z) : Z :=
  match end_time with
  | Some t => if t =? 0 then now else t
  | None => now
  end.

Definition _create_success_result (context : ExecutionContext) (now : Z)
  : ExecResult :=
  {| r_success := bool_decide (return_code context = Some 0);
     r_task_id := task_id context;
     r_command := command context;
     r_stdout := stdout_data context;
     r_stderr := stderr_data context;
     r_return_code := return_code context;
     r_start_time := start_time context;
     r_end_time := end_time context;
     r_duration := end_or_now (end_time context) now - start_time context;
     r_error := None;
     r_cancelled := cancelled context;
     r_timeout := timeout context |}.

Definition _create_error_result (context : ExecutionContext) (error : string)
    (now : Z) : ExecResult :=
  {| r_success := false;
     r_task_id := task_id context;
     r_command := command context;
     r_stdout := stdout_data context;
     r_stderr := if String.eqb (stderr_data context) "" then error
                 else stderr_data context;
     r_return_code := match return_code context with
                      | Some rc => if rc =? 0 then Some (-1) else Some rc
                      | None => Some (-1)
                      end;
     r_start_time := start_time context;
     r_end_time := end_time context;
     r_duration := end_or_now (end_time context) now - start_time context;
     r_error := Some error;
     r_cancelled := cancelled context;
     r_timeout := timeout context |}.

Definition set_output (context : ExecutionContext) (out err : string)
    (rc : Z) : ExecutionContext :=
  {| task_id := task_id context; command := command context;
     timeout := timeout context; start_time := start_time context;
     end_time := end_time context; cancelled := cancelled context;
     stdout_data := out; stderr_data := err; return_code := Some rc |}.

Definition set_end_time (context : ExecutionContext) (t : Z) : ExecutionContext :=
  {| task_id := task_id context; command := command context;
     timeout := timeout context; start_time := start_time context;
     end_time := Some t; cancelled := cancelled context;
     stdout_data := stdout_data context; stderr_data := stderr_data context;
     return_code := return_code context |}.

(** [_execute_command]: the result and the calls made on the child.
    [t_end] is the clock at the end of the run, [t_res] the clock when
    the result is built. *)
Definition _execute_command (os : OS) (config : ExecutionConfig)
    (context : ExecutionContext) (t_end t_res : Z) : ExecResult * list action :=
  let spawned :=
    cmd_parts ← _parse_command os (command context);
    popen os cmd_parts (_prepare_environment os config)
          (working_directory config) in
  match spawned with
  | Raise e =>
      (_create_error_result (set_end_time context t_end) (exn_str e) t_res, [])
  | Return p =>
      match communicate p (timeout context) with
      | CommDone out err rc =>
          let context := set_output context out err rc in
          (_create_success_result (set_end_time context t_end) t_res,
           [Communicate (timeout context)])
      | CommTimeout =>
          let acts := _terminate_process p in
          let context :=
            set_output context "命令执行超时"
              ("执行超时 (" +:+ number_str (timeout context) +:+ "秒)") (-1) in
          (_create_success_result (set_end_time context t_end) t_res,
           Communicate (timeout context) :: acts)
      | CommError e =>
          (_create_error_result (set_end_time context t_end) (exn_str e) t_res,
           [Communicate (timeout context)])
      end
  end.

(** [timeout = default if None; timeout = min(timeout, max_timeout)]. *)
Definition effective_timeout (config : ExecutionConfig)
    (timeout : option number) : number :=
  let timeout := match timeout with
                 | None => Int (default_timeout config)
                 | Some t => t
                 end in
  py_min timeout (max_timeout config).

(** [execute]: [fresh_id] is the generated [sync_...] identifier, used
    when [task_id] is [None] or empty.  The context is registered in
    [active_contexts] for the run and removed by the [finally]. *)
Definition execute (os : OS) (config : ExecutionConfig)
    (active_contexts : gmap string ExecutionContext)
    (command : string) (timeout : option number) (task_id : option string)
    (fresh_id : string) (t_start t_end t_res : Z)
  : ExecResult * list action * gmap string ExecutionContext :=
  let task_id := match task_id with
                 | Some i => if String.eqb i "" then fresh_id else i
                 | None => fresh_id
                 end in
  let timeout := effective_timeout config timeout in
  let context := new_context task_id command timeout t_start in
  let '(result, acts) := _execute_command os config context t_end t_res in
  (result, acts, delete task_id (<[task_id := context]> active_contexts)).

End Executor.

(* ===================================================================== *)
(** ** Task manager (src/core/task_manager.py) *)
(* ===================================================================== *)

Module TaskManager.

Inductive TaskStatus : Type :=
  | PENDING | RUNNING | COMPLETED | FAILED | CANCELLED | TIMEOUT.

#[global] Instance TaskStatus_eq_dec : EqDecision TaskStatus.
Proof. solve_decision. Defined.

(** [TaskStatus.value]. *)
Definition status_value (s : TaskStatus) : string :=
  match s with
  | PENDING => "pending" | RUNNING => "running" | COMPLETED => "completed"
  | FAILED => "failed" | CANCELLED => "cancelled" | TIMEOUT => "timeout"
  end.

Inductive TaskPriority : Type := LOW | NORMAL | HIGH | CRITICAL.

#[global] Instance TaskPriority_eq_dec : EqDecision TaskPriority.
Proof. solve_decision. Defined.

(** [TaskPriority.value]. *)
Definition priority_value (p : TaskPriority) : Z :=
  match p with LOW => 1 | NORMAL => 2 | HIGH => 3 | CRITICAL => 4 end.

Record Task : Type := {
  task_id : string;
  command : string;
  args : list string;
  options : dict;
  status : TaskStatus;
  priority : TaskPriority;
  created_at : Z;
  started_at : option Z;
  completed_at : option Z;
  timeout : json;
  retry_count : Z;
  max_retries : json;
  result : option Executor.ExecResult;
  error : option string;
  progress : Qc;
  user_id : option json;
  session_id : option json
}.

Definition is_active (t : Task) : bool :=
  bool_decide (status t = PENDING) || bool_decide (status t = RUNNING).

Definition is_finished_status (s : TaskStatus) : bool :=
  match s with
  | COMPLETED | FAILED | CANCELLED | TIMEOUT => true
  | PENDING | RUNNING => false
  end.

Definition is_finished (t : Task) : bool := is_finished_status (status t).

Record Stats : Type := {
  total_tasks : Z;
  completed_tasks : Z;
  failed_tasks : Z;
  cancelled_tasks : Z;
  active_tasks : Z
}.

(** The manager: task registry, pending queue, the keys of
    [running_tasks], counters, and the log of the events handed to
    [_trigger_event] (event type and task id), newest last. *)
Record t : Type := {
  config : ExecutionConfig;
  tasks : gmap string Task;
  pending_queue : list string;
  running_tasks : gset string;
  stats : Stats;
  triggered : list (string * string)
}.

(** [TaskManager.__init__]. *)
Definition init (config : ExecutionConfig) : t :=
  {| config := config; tasks := ∅; pending_queue := []; running_tasks := ∅;
     stats := {| total_tasks := 0; completed_tasks := 0; failed_tasks := 0;
                 cancelled_tasks := 0; active_tasks := 0 |};
     triggered := [] |}.

Definition set_tasks (m : t) (ts : gmap string Task) : t :=
  {| config := config m; tasks := ts; pending_queue := pending_queue m;
     running_tasks := running_tasks m; stats := stats m;
     triggered := triggered m |}.

Definition set_queue (m : t) (q : list string) : t :=
  {| config := config m; tasks := tasks m; pending_queue := q;
     running_tasks := running_tasks m; stats := stats m;
     triggered := triggered m |}.

Definition set_running (m : t) (r : gset string) : t :=
  {| config := config m; tasks := tasks m; pending_queue := pending_queue m;
     running_tasks := r; stats := stats m; triggered := triggered m |}.

Definition set_stats (m : t) (s : Stats) : t :=
  {| config := config m; tasks := tasks m; pending_queue := pending_queue m;
     running_tasks := running_tasks m; stats := s; triggered := triggered m |}.

(** [_trigger_event(event_type, task)]. *)
Definition _trigger_event (event_type : string) (task : Task) (m : t) : t :=
  {| config := config m; tasks := tasks m; pending_queue := pending_queue m;
     running_tasks := running_tasks m; stats := stats m;
     triggered := triggered m ++ [(event_type, task_id task)] |}.

(** The loop of [_add_to_queue]: [i] is the index of the entry at the
    head of [queue]; the value is the final [insert_index], or the
    [KeyError] of [self.tasks[existing_task_id]]. *)
Fixpoint insert_index (tasks : gmap string Task) (p : TaskPriority)
    (queue : list string) (i : nat) : outcome nat :=
  match queue with
  | [] => Return i
  | existing_task_id :: rest =>
      match tasks !! existing_task_id with
      | None => Raise (KeyError existing_task_id)
      | Some existing_task =>
          if priority_value p >? priority_value (priority existing_task)
          then Return i
          else insert_index tasks p rest (S i)
      end
  end.

(** [list.insert(i, x)] for [0 <= i]. *)
Definition list_insert_at {A} (i : nat) (x : A) (l : list A) : list A :=
  take i l ++ x :: drop i l.

Definition _add_to_queue (task_id : string) (m : t) : outcome t :=
  match tasks m !! task_id with
  | None => Raise (KeyError task_id)
  | Some task =>
      idx ← insert_index (tasks m) (priority task) (pending_queue m) 0;
      Return (set_queue m (list_insert_at idx task_id (pending_queue m)))
  end.

Definition bump_created (s : Stats) : Stats :=
  {| total_tasks := total_tasks s + 1; completed_tasks := completed_tasks s;
     failed_tasks := failed_tasks s; cancelled_tasks := cancelled_tasks s;
     active_tasks := active_tasks s + 1 |}.

(** [create_task]: [task_id] is the value of [uuid.uuid4()], [now] the
    clock.  The second component is the manager as the call leaves it,
    also when [_add_to_queue] raises. *)
Definition create_task (command : string) (args : option (list string))
    (options : option dict) (priority : TaskPriority)
    (user_id session_id : option json) (task_id : string) (now : Z)
    (m : t) : outcome string * t :=
  let options := default [] options in
  let timeout := dict_get_default "timeout" (JInt (default_timeout (config m))) options in
  let max_retries := dict_get_default "max_retries" (JInt 0) options in
  let task :=
    {| task_id := task_id; command := command; args := default [] args;
       options := options; status := PENDING; priority := priority;
       created_at := now; started_at := None; completed_at := None;
       timeout := timeout; retry_count := 0; max_retries := max_retries;
       result := None; error := None; progress := 0%Qc;
       user_id := user_id; session_id := session_id |} in
  let m := set_tasks m (<[task_id := task]> (tasks m)) in
  match _add_to_queue task_id m with
  | Raise e => (Raise e, m)
  | Return m =>
      let m := set_stats m (bump_created (stats m)) in
      (Return task_id, _trigger_event "task_created" task m)
  end.

(** [get_task]. *)
Definition get_task (task_id : string) (m : t) : option Task :=
  tasks m !! task_id.

(** [max(0.0, min(1.0, progress))]. *)
Definition clamp_progress (p : Qc) : Qc :=
  let p := if decide (1 ≤ p)%Qc then 1%Qc else p in
  if decide (p ≤ 0)%Qc then 0%Qc else p.

Definition apply_update (task : Task) (status : TaskStatus)
    (progress : option Qc) (error : option string)
    (result : option Executor.ExecResult) : Task :=
  {| task_id := task_id task; command := command task; args := args task;
     options := options task; status := status; priority := priority task;
     created_at := created_at task; started_at := started_at task;
     completed_at := completed_at task; timeout := timeout task;
     retry_count := retry_count task; max_retries := max_retries task;
     result := match result with Some r => Some r | None => TaskManager.result task end;
     error := match error with Some e => Some e | None => TaskManager.error task end;
     progress := match progress with
                 | Some p => clamp_progress p
                 | None => TaskManager.progress task
                 end;
     user_id := user_id task; session_id := session_id task |}.

Definition set_started_at (task : Task) (now : Z) : Task :=
  {| task_id := task_id task; command := command task; args := args task;
     options := options task; status := status task; priority := priority task;
     created_at := created_at task; started_at := Some now;
     completed_at := completed_at task; timeout := timeout task;
     retry_count := retry_count task; max_retries := max_retries task;
     result := result task; error := error task; progress := progress task;
     user_id := user_id task; session_id := session_id task |}.

Definition set_completed_at (task : Task) (now : Z) : Task :=
  {| task_id := task_id task; command := command task; args := args task;
     options := options task; status := status task; priority := priority task;
     created_at := created_at task; started_at := started_at task;
     completed_at := Some now; timeout := timeout task;
     retry_count := retry_count task; max_retries := max_retries task;
     result := result task; error := error task; progress := progress task;
     user_id := user_id task; session_id := session_id task |}.

(** The counters touched when a task first enters a finished state. *)
Definition bump_finished (status : TaskStatus) (s : Stats) : Stats :=
  {| total_tasks := total_tasks s;
     completed_tasks := if decide (status = COMPLETED)
                        then completed_tasks s + 1 else completed_tasks s;
     failed_tasks := if decide (status = FAILED)
                     then failed_tasks s + 1 else failed_tasks s;
     cancelled_tasks := if decide (status = CANCELLED)
                        then cancelled_tasks s + 1 else cancelled_tasks s;
     active_tasks := active_tasks s - 1 |}.

Definition finished_event (status : TaskStatus) : option string :=
  match status with
  | COMPLETED => Some "task_completed"
  | FAILED => Some "task_failed"
  | CANCELLED => Some "task_cancelled"
  | _ => None
  end.

(** [update_task_status]; [now] is [time.time()]. *)
Definition update_task_status (task_id : string) (status : TaskStatus)
    (progress : option Qc) (error : option string)
    (result : option Executor.ExecResult) (now : Z) (m : t) : bool * t :=
  match tasks m !! task_id with
  | None => (false, m)
  | Some task =>
      let old_status := TaskManager.status task in
      let task := apply_update task status progress error result in
      let '(task, m) :=
        if decide (status = RUNNING ∧ old_status = PENDING) then
          let task := set_started_at task now in
          (task, _trigger_event "task_started" task m)
        else if is_finished task && negb (truthy_time (completed_at task)) then
          let task := set_completed_at task now in
          let m := set_stats m (bump_finished status (stats m)) in
          (task, match finished_event status with
                 | Some ev => _trigger_event ev task m
                 | None => m
                 end)
        else (task, m) in
      let m := match progress with
               | Some _ => _trigger_event "task_progress" task m
               | None => m
               end in
      (true, set_tasks m (<[task_id := task]> (tasks m)))
  end.

(** [list.remove(x)]: drops the first occurrence. *)
Fixpoint list_remove_first (x : string) (l : list string) : list string :=
  match l with
  | [] => []
  | y :: l' => if String.eqb x y then l' else y :: list_remove_first x l'
  end.

(** [cancel_task]; the [asyncio] task held in [running_tasks] is
    cancelled and dropped from the dictionary. *)
Definition cancel_task (task_id : string) (force : bool) (now : Z) (m : t)
  : bool * t :=
  match tasks m !! task_id with
  | None => (false, m)
  | Some task =>
      if is_finished task then (false, m)
      else
        let m := set_queue m (list_remove_first task_id (pending_queue m)) in
        let m := set_running m (running_tasks m ∖ {[task_id]}) in
        (true, (update_task_status task_id CANCELLED None None None now m).2)
  end.

(** [can_accept_new_task]. *)
Definition active_count (m : t) : Z :=
  Z.of_nat (size (running_tasks m)) + Z.of_nat (length (pending_queue m)).

Definition can_accept_new_task (m : t) : bool :=
  active_count m <? max_concurrent_tasks (config m).

(** [get_next_task]. *)
Definition get_next_task (m : t) : option string * t :=
  match pending_queue m with
  | next :: rest => (Some next, set_queue m rest)
  | [] => (None, m)
  end.

(** [mark_task_running]. *)
Definition mark_task_running (task_id : string) (now : Z) (m : t) : t :=
  let m := set_running m ({[task_id]} ∪ running_tasks m) in
  (update_task_status task_id RUNNING None None None now m).2.

End TaskManager.

(* ===================================================================== *)
(** ** Event bus (src/protocols/sse_handler.py) *)
(* ===================================================================== *)

Module SSE.

(** The dictionary put on a connection's queue by [send_event]. *)
Record Event : Type := {
  event : string;
  data : json;
  timestamp : Z;
  ev_connection_id : string
}.

(** [asyncio.Queue(maxsize)]: [put] completes at once unless the queue
    is full, in which case the caller is suspended until a consumer
    makes room. *)
Record Queue : Type := {
  maxsize : Z;
  items : list Event
}.

(** [asyncio.Queue()]. *)
Definition Queue_new : Queue := {| maxsize := 0; items := [] |}.

(** [Queue.full()]. *)
Definition full (q : Queue) : bool :=
  if maxsize q <=? 0 then false
  else Z.of_nat (length (items q)) >=? maxsize q.

Inductive put_outcome : Type :=
  | PutDone (q : Queue)
  | PutWaits.

Definition put (x : Event) (q : Queue) : put_outcome :=
  if full q then PutWaits
  else PutDone {| maxsize := maxsize q; items := items q ++ [x] |}.

Record SSEConnection : Type := {
  connection_id : string;
  created_at : Z;
  last_ping : Z;
  subscriptions : gset string;
  queue : Queue;
  active : bool
}.

(** [SSEConnection.__init__]. *)
Definition new_connection (connection_id : string) (now : Z) : SSEConnection :=
  {| connection_id := connection_id; created_at := now; last_ping := now;
     subscriptions := ∅; queue := Queue_new; active := true |}.

Definition set_queue_of (c : SSEConnection) (q : Queue) : SSEConnection :=
  {| connection_id := connection_id c; created_at := created_at c;
     last_ping := last_ping c; subscriptions := subscriptions c;
     queue := q; active := active c |}.

Definition subscribe (event_type : string) (c : SSEConnection) : SSEConnection :=
  {| connection_id := connection_id c; created_at := created_at c;
     last_ping := last_ping c;
     subscriptions := {[event_type]} ∪ subscriptions c;
     queue := queue c; active := active c |}.

Definition is_subscribed (event_type : string) (c : SSEConnection) : bool :=
  bool_decide (event_type ∈ subscriptions c) || bool_decide ("*" ∈ subscriptions c).

Definition close (c : SSEConnection) : SSEConnection :=
  {| connection_id := connection_id c; created_at := created_at c;
     last_ping := last_ping c; subscriptions := subscriptions c;
     queue := queue c; active := false |}.

Definition mk_event (event_type : string) (data : json) (now : Z)
    (c : SSEConnection) : Event :=
  {| event := event_type; data := data; timestamp := now;
     ev_connection_id := connection_id c |}.

(** [send_event]: [SendWaits] when the coroutine is suspended inside
    [queue.put]. *)
Inductive send_outcome : Type :=
  | SendDone (c : SSEConnection)
  | SendWaits.

Definition send_event (event_type : string) (data : json) (now : Z)
    (c : SSEConnection) : send_outcome :=
  if negb (active c) then SendDone c
  else match put (mk_event event_type data now c) (queue c) with
       | PutDone q => SendDone (set_queue_of c q)
       | PutWaits => SendWaits
       end.

Record EventStats : Type := {
  total_connections : Z;
  active_connections : Z;
  events_sent : Z;
  events_failed : Z
}.

(** [SSEHandler]: the connection dictionary (with its insertion order,
    which is the order of [values()]) and the counters. *)
Record t : Type := {
  connections : gmap string SSEConnection;
  order : list string;
  event_stats : EventStats
}.

Definition init : t :=
  {| connections := ∅; order := [];
     event_stats := {| total_connections := 0; active_connections := 0;
                       events_sent := 0; events_failed := 0 |} |}.

(** [create_connection]; [connection_id] is the value of
    [uuid.uuid4()]. *)
Definition create_connection (event_types : option (list string))
    (connection_id : string) (now : Z) (h : t) : string * t :=
  let connection := new_connection connection_id now in
  let connection :=
    match event_types with
    | Some ((_ :: _) as types) => foldl (λ c ty, subscribe ty c) connection types
    | _ => subscribe "*" connection
    end in
  (connection_id,
   {| connections := <[connection_id := connection]> (connections h);
      order := if decide (connection_id ∈ order h) then order h
               else order h ++ [connection_id];
      event_stats :=
        {| total_connections := total_connections (event_stats h) + 1;
           active_connections := active_connections (event_stats h) + 1;
           events_sent := events_sent (event_stats h);
           events_failed := events_failed (event_stats h) |} |}).

(** [close_connection]. *)
Definition close_connection (connection_id : string) (h : t) : t :=
  match connections h !! connection_id with
  | None => h
  | Some _ =>
      {| connections := delete connection_id (connections h);
         order := filter (λ i, i ≠ connection_id) (order h);
         event_stats :=
           {| total_connections := total_connections (event_stats h);
              active_connections := active_connections (event_stats h) - 1;
              events_sent := events_sent (event_stats h);
              events_failed := events_failed (event_stats h) |} |}
  end.

(** The connections an event is sent to: the listed ones that exist
    when a non-empty target list is given, else every subscribed
    connection. *)
Definition subscribed_in (event_type : string)
    (conns : gmap string SSEConnection) (i : string) : bool :=
  match conns !! i with
  | Some c => is_subscribed event_type c
  | None => false
  end.

Definition connections_to_send (event_type : string)
    (target_connections : option (list string)) (h : t) : list string :=
  match target_connections with
  | Some ((_ :: _) as targets) =>
      filter (λ i, is_Some (connections h !! i)) targets
  | _ =>
      filter (λ i, Is_true (subscribed_in event_type (connections h) i)) (order h)
  end.

(** One [send_event] task per entry of the list; the [k]-th task reads
    the clock [clock k].  The first component lists the connections
    whose task is suspended. *)
Fixpoint send_all (event_type : string) (data : json) (clock : nat → Z)
    (ids : list string) (k : nat) (conns : gmap string SSEConnection)
  : list string * gmap string SSEConnection :=
  match ids with
  | [] => ([], conns)
  | i :: rest =>
      match conns !! i with
      | None => send_all event_type data clock rest (S k) conns
      | Some c =>
          match send_event event_type data (clock k) c with
          | SendDone c' =>
              send_all event_type data clock rest (S k) (<[i := c']> conns)
          | SendWaits =>
              let '(w, conns') := send_all event_type data clock rest (S k) conns in
              (i :: w, conns')
          end
      end
  end.

(** The outcome of [broadcast_event]: [waiting_on = []] when the
    coroutine runs to its end; otherwise [gather] is waiting for the
    listed sends.  [connection_lock] is held only across code without an
    [await] (here, in [create_connection], [close_connection] and the
    sweep), so taking it never suspends the caller. *)
Record broadcast_result : Type := {
  waiting_on : list string;
  handler : t
}.

Definition broadcast_event (event_type : string) (data : json)
    (target_connections : option (list string)) (clock : nat → Z) (h : t)
  : broadcast_result :=
  if decide (connections h = ∅) then {| waiting_on := []; handler := h |}
  else
    let ids := connections_to_send event_type target_connections h in
    match ids with
    | [] => {| waiting_on := []; handler := h |}
    | _ =>
        let '(w, conns) := send_all event_type data clock ids 0 (connections h) in
        {| waiting_on := w;
           handler :=
             {| connections := conns; order := order h;
                event_stats :=
                  match w with
                  | [] =>
                      {| total_connections := total_connections (event_stats h);
                         active_connections := active_connections (event_stats h);
                         events_sent := events_sent (event_stats h)
                                        + Z.of_nat (length ids);
                         events_failed := events_failed (event_stats h) |}
                  | _ => event_stats h
                  end |} |}
    end.

(** [send_security_alert]. *)
Definition send_security_alert (alert_type severity command reason : string)
    (connection_ids : option (list string)) (now : Z) (clock : nat → Z) (h : t)
  : broadcast_result :=
  broadcast_event "security_alert"
    (JObj [("alert_type", JStr alert_type); ("severity", JStr severity);
           ("command", JStr command); ("reason", JStr reason);
           ("timestamp", JInt now)])
    connection_ids clock h.

(** The events [send_all] puts on the queue of connection [i]. *)
Fixpoint delivered (event_type : string) (data : json) (clock : nat → Z)
    (ids : list string) (k : nat) (c : SSEConnection) : list Event :=
  match ids with
  | [] => []
  | j :: rest =>
      (if decide (j = connection_id c)
       then [mk_event event_type data (clock k) c] else [])
      ++ delivered event_type data clock rest (S k) c
  end.

(** Every queue was made by [asyncio.Queue()]. *)
Definition unbounded (h : t) : Prop :=
  ∀ i c, connections h !! i = Some c → maxsize (queue c) = 0.

(** Connections are registered under their own identifier. *)
Definition keyed (h : t) : Prop :=
  ∀ i c, connections h !! i = Some c → connection_id c = i.


End SSE.

(* ===================================================================== *)
(** ** Message parser (src/protocols/message_parser.py) *)
(* ===================================================================== *)

Module MCPErrorCodes.
Definition PARSE_ERROR : Z := -32700.
Definition INVALID_REQUEST : Z := -32600.
Definition METHOD_NOT_FOUND : Z := -32601.
Definition INVALID_PARAMS : Z := -32602.
Definition INTERNAL_ERROR : Z := -32603.
Definition COMMAND_VALIDATION_ERROR : Z := -32001.
Definition COMMAND_EXECUTION_ERROR : Z := -32002.
Definition SECURITY_VIOLATION : Z := -32003.
Definition TASK_NOT_FOUND : Z := -32004.
Definition SYSTEM_OVERLOAD : Z := -32005.
End MCPErrorCodes.

Module MessageParser.

(** [MCPMessage]; [id] is a string or an integer. *)
Record MCPMessage : Type := {
  jsonrpc : string;
  id : option json;
  method : option string;
  params : option dict;
  result : option json;
  error : option dict
}.

Definition keys_within (allowed : list string) (d : dict) : bool :=
  forallb (λ kv, existsb (String.eqb kv.1) allowed) d.

Definition is_version_tag (v : option json) : bool :=
  match v with
  | Some (JStr s) => String.eqb s "2.0"
  | _ => false
  end.

(** [{"oneOf": [{"type": "string"}, {"type": "number"}]}]. *)
Definition is_id (v : json) : bool :=
  match v with
  | JStr _ | JInt _ => true
  | _ => false
  end.

Definition optional (check : json → bool) (v : option json) : bool :=
  match v with
  | Some x => check x
  | None => true
  end.

Definition is_string (v : json) : bool :=
  match v with JStr _ => true | _ => false end.

Definition is_object (v : json) : bool :=
  match v with JObj _ => true | _ => false end.

Definition is_integer (v : json) : bool :=
  match v with JInt _ => true | _ => false end.

(** The ["request"] schema of [_load_schemas]. *)
Definition request_schema (d : dict) : bool :=
  keys_within ["jsonrpc"; "id"; "method"; "params"] d
  && is_version_tag (dict_get "jsonrpc" d)
  && match dict_get "method" d with Some v => is_string v | None => false end
  && optional is_id (dict_get "id" d)
  && optional is_object (dict_get "params" d).

Definition error_object (v : json) : bool :=
  match v with
  | JObj e =>
      match dict_get "code" e with Some c => is_integer c | None => false end
      && match dict_get "message" e with Some m => is_string m | None => false end
  | _ => false
  end.

(** The ["response"] schema of [_load_schemas]. *)
Definition response_schema (d : dict) : bool :=
  keys_within ["jsonrpc"; "id"; "result"; "error"] d
  && is_version_tag (dict_get "jsonrpc" d)
  && match dict_get "id" d with Some v => is_id v | None => false end
  && optional error_object (dict_get "error" d)
  && xorb (dict_mem "result" d) (dict_mem "error" d).

Section Parser.

(** The text [jsonschema] reports for a message that violates its
    schema. *)
Variable jsonschema_message : dict → string.

(** [_validate_message_structure]. *)
Definition _validate_message_structure (message_dict : dict) : outcome unit :=
  if dict_mem "method" message_dict then
    if request_schema message_dict then Return ()
    else Raise (ValueError ("消息结构验证失败: "
                            +:+ jsonschema_message message_dict))
  else if dict_mem "result" message_dict || dict_mem "error" message_dict then
    if response_schema message_dict then Return ()
    else Raise (ValueError ("消息结构验证失败: "
                            +:+ jsonschema_message message_dict))
  else Raise (ValueError "无法确定消息类型").

(** The [MCPMessage] built from the keys of a dictionary that passed
    the schema. *)
Definition build_message (d : dict) : MCPMessage :=
  {| jsonrpc := match dict_get "jsonrpc" d with
                | Some (JStr s) => s
                | _ => "2.0"
                end;
     id := dict_get "id" d;
     method := match dict_get "method" d with
               | Some (JStr s) => Some s
               | _ => None
               end;
     params := match dict_get "params" d with
               | Some (JObj p) => Some p
               | _ => None
               end;
     result := match dict_get "result" d with
               | Some JNull => None
               | r => r
               end;
     error := match dict_get "error" d with
              | Some (JObj e) => Some e
              | _ => None
              end |}.

(** [parse_message] on a dictionary: every exception is re-raised as
    [ValueError("消息解析异常: ...")]. *)
Definition parse_message (raw_message : dict) : outcome MCPMessage :=
  match _validate_message_structure raw_message with
  | Return _ => Return (build_message raw_message)
  | Raise e => Raise (ValueError ("消息解析异常: " +:+ exn_str e))
  end.

End Parser.

Definition is_request (m : MCPMessage) : bool :=
  match method m with Some _ => true | None => false end.

Definition is_notification (m : MCPMessage) : bool :=
  is_request m && match id m with None => true | Some _ => false end.

End MessageParser.

(* ===================================================================== *)
(** ** MCP gateway over SSE (src/mcp_sse_endpoint.py) *)
(* ===================================================================== *)

Module MCPSSE.

Import MessageParser.

(** [Validator.validate_command] and [SyntaxChecker.check_syntax]
    results, as far as the gateway reads them. *)
Record Verdict : Type := {
  valid : bool;
  score : Z;
  issues : list string
}.

(** The dictionaries returned by the three tools. *)
Inductive ToolResult : Type :=
  (** [{"success": False, "error": "命令验证失败", "details": issues}] *)
  | ExecRejected (details : list string)
  (** [{"success": .., "command": .., "output": {..}, "metadata": {..}}] *)
  | ExecOutput (success : bool) (full_command : string)
      (stdout stderr : string) (return_code : option Z)
      (duration start_time : Z) (end_time : option Z)
  | Validated (command : json) (security syntax : Verdict)
  | SupportedTools (listing : json).

Inductive Payload : Type :=
  | InitializeResult
  | ToolsList
  (** [{"content": [{"type": "text", "text": json.dumps(result)}]}] *)
  | ToolContent (r : ToolResult)
  | ResourcesList
  | PromptsList
  | EmptyResult.

(** The [message] member of an error response. *)
Inductive ErrorMessage : Type :=
  (** [f"未知方法: {message.method}"] *)
  | UnknownMethod (method : option string)
  (** [f"未知工具: {tool_name}"] *)
  | UnknownTool (tool_name : option json)
  (** [f"工具调用失败: {str(e)}"] *)
  | ToolCallFailed (e : exn)
  (** [f"内部错误: {str(e)}"] *)
  | InternalFailure (e : exn)
  (** [f"Internal error: {str(e)}"] *)
  | InternalErrorText (e : exn).

Inductive Body : Type :=
  | Result (p : Payload)
  | Error (code : Z) (message : ErrorMessage).

(** A JSON-RPC response [{"jsonrpc": "2.0", "id": .., ..}]; [resp_id]
    is [None] for Python's [None]. *)
Record Response : Type := {
  resp_id : option json;
  body : Body
}.

(** What travels on a connection's outbound queue. *)
Inductive OutMessage : Type :=
  | OutResponse (r : Response)
  | OutInitialized (connection_id : string) (timestamp : Z).

Record MCPSSEConnection : Type := {
  connection_id : string;
  created_at : Z;
  last_activity : Z;
  active : bool;
  initialized : bool;
  outbound_queue : list OutMessage
}.

Definition new_connection (connection_id : string) (now : Z) : MCPSSEConnection :=
  {| connection_id := connection_id; created_at := now; last_activity := now;
     active := true; initialized := false; outbound_queue := [] |}.

Definition touch (now : Z) (c : MCPSSEConnection) : MCPSSEConnection :=
  {| connection_id := connection_id c; created_at := created_at c;
     last_activity := now; active := active c; initialized := initialized c;
     outbound_queue := outbound_queue c |}.

Definition set_initialized (c : MCPSSEConnection) : MCPSSEConnection :=
  {| connection_id := connection_id c; created_at := created_at c;
     last_activity := last_activity c; active := active c; initialized := true;
     outbound_queue := outbound_queue c |}.

(** [send_message]: the queue is an unbounded [asyncio.Queue()]. *)
Definition send_message (message : OutMessage) (now : Z) (c : MCPSSEConnection)
  : MCPSSEConnection :=
  if negb (active c) then c
  else {| connection_id := connection_id c; created_at := created_at c;
          last_activity := now; active := active c;
          initialized := initialized c;
          outbound_queue := outbound_queue c ++ [message] |}.

Definition _create_error_response (request_id : option json) (error_code : Z)
    (error_message : ErrorMessage) : Response :=
  {| resp_id := request_id; body := Error error_code error_message |}.

(** [type(v).__name__]. *)
Definition type_name (v : json) : string :=
  match v with
  | JNull => "NoneType"
  | JBool _ => "bool"
  | JInt _ => "int"
  | JStr _ => "str"
  | JArr _ => "list"
  | JObj _ => "dict"
  end.

(** The characters of a string, as iterating over it gives them.
    Strings are UTF-8 here: a byte [10xxxxxx] continues the character
    before it. *)
Definition is_continuation (c : ascii) : bool :=
  match c with
  | Ascii _ _ _ _ _ _ b6 b7 => b7 && negb b6
  end.

Fixpoint chars (s : string) : list string :=
  match s with
  | "" => []
  | String c rest =>
      match rest with
      | String c' _ =>
          if is_continuation c' then
            match chars rest with
            | w :: ws => String c w :: ws
            | [] => [String c ""]
            end
          else String c "" :: chars rest
      | "" => [String c ""]
      end
  end.

(** The items of a list as [str.join] takes them: the first one that is
    not a string raises. *)
Fixpoint join_items (i : nat) (l : list json) : outcome (list string) :=
  match l with
  | [] => Return []
  | JStr s :: rest => parts ← join_items (S i) rest; Return (s :: parts)
  | v :: _ =>
      Raise (TypeError ("sequence item " +:+ pretty i
                        +:+ ": expected str instance, " +:+ type_name v
                        +:+ " found"))
  end.

(** [" ".join(args)]: a list must hold strings, a string is joined
    character by character, a dictionary by its keys; anything else is
    not iterable. *)
Definition join_args (args : json) : outcome string :=
  match args with
  | JArr l => join_space <$> join_items 0 l
  | JStr s => Return (join_space (chars s))
  | JObj d => Return (join_space d.*1)
  | _ => Raise (TypeError "can only join an iterable")
  end.

(** [v += text] for a string [text]: concatenation on a string; a list
    is extended by the characters of [text]; the other values have no
    such operation. *)
Definition iadd (v : json) (text : string) : outcome json :=
  match v with
  | JStr s => Return (JStr (s +:+ text))
  | JArr l => Return (JArr (l ++ (JStr <$> chars text)))
  | _ =>
      Raise (TypeError ("unsupported operand type(s) for +=: '"
                        +:+ type_name v +:+ "' and 'str'"))
  end.

(** [full_command = command; if args: full_command += " " + " ".join(args)].
    Nothing checks that [command] is a string or [args] a list of
    strings: the value built need not be a string. *)
Definition build_full_command (command args : json) : outcome json :=
  if truthy args then
    joined ← join_args args;
    iadd command (" " +:+ joined)
  else Return command.

(** [CommandValidator.validate_command] on a value that is not a
    string: [len(command)] is compared with 1000, then
    [command.strip()] is called; the exception is caught inside the
    validator and becomes its only issue, the score staying at 1. *)
Definition validate_non_string (v : json) : Verdict :=
  let too_long :=
    {| valid := false; score := 1; issues := ["命令长度超过限制 (1000)"] |} in
  let failed (msg : string) :=
    {| valid := false; score := 1; issues := ["验证过程异常: " +:+ msg] |} in
  match v with
  | JArr l =>
      if (1000 <? length l)%nat then too_long
      else failed "'list' object has no attribute 'strip'"
  | JObj d =>
      if (1000 <? length d)%nat then too_long
      else failed "'dict' object has no attribute 'strip'"
  | _ => failed ("object of type '" +:+ type_name v +:+ "' has no len()")
  end.

(** [SyntaxChecker.check_syntax] on a value that is not a string:
    [command.strip()] raises, which is caught inside the checker; the
    result is invalid with score 0 and no suggestion (the gateway reads
    [valid], [score] and [suggestions]). *)
Definition check_non_string (v : json) : Verdict :=
  {| valid := false; score := 0; issues := [] |}.

(** [d.get(k)] on a value that need not be a dictionary. *)
Definition json_get (k : string) (v : json) : outcome (option json) :=
  match v with
  | JObj d => Return (dict_get k d)
  | _ => Raise (AttributeError "object has no attribute 'get'")
  end.

Section Gateway.

Variable jsonschema_message : dict → string.
(** [self.validator.validate_command], [self.syntax_checker.check_syntax],
    [self.executor.execute(full_command, timeout=timeout)] and the
    listing assembled from the validator's tool table. *)
Variable validate_command : string → outcome Verdict.
Variable check_syntax : string → outcome Verdict.
Variable execute : string → json → outcome Executor.ExecResult.
Variable supported_tools : outcome json.

(** The validator and the syntax checker on any value: abstract on
    strings, fixed by their source on everything else. *)
Definition validate_value (v : json) : outcome Verdict :=
  match v with
  | JStr s => validate_command s
  | _ => Return (validate_non_string v)
  end.

Definition check_syntax_value (v : json) : outcome Verdict :=
  match v with
  | JStr s => check_syntax s
  | _ => Return (check_non_string v)
  end.

(** [_execute_command].  A full command that is not a string never
    passes the validator, so the executor only sees strings. *)
Definition _execute_command (arguments : json) : outcome ToolResult :=
  command ← json_get "command" arguments;
  args ← json_get "args" arguments;
  options ← json_get "options" arguments;
  let command := default JNull command in
  let args := default (JArr []) args in
  let options := default (JObj []) options in
  if negb (truthy command) then
    Raise (ValueError "缺少命令参数")
  else
    full_command ← build_full_command command args;
    match full_command with
    | JStr full =>
        validation_result ← validate_command full;
        if negb (valid validation_result) then
          Return (ExecRejected (issues validation_result))
        else
          timeout ← json_get "timeout" options;
          result ← execute full (default (JInt 300) timeout);
          Return (ExecOutput (Executor.r_success result) full
                    (Executor.r_stdout result) (Executor.r_stderr result)
                    (Executor.r_return_code result) (Executor.r_duration result)
                    (Executor.r_start_time result) (Executor.r_end_time result))
    | other => Return (ExecRejected (issues (validate_non_string other)))
    end.

(** [_validate_command]. *)
Definition _validate_command (arguments : json) : outcome ToolResult :=
  command ← json_get "command" arguments;
  let command := default JNull command in
  if negb (truthy command) then Raise (ValueError "缺少命令参数")
  else
    security_result ← validate_value command;
    syntax_result ← check_syntax_value command;
    Return (Validated command security_result syntax_result).

Definition _list_supported_tools (arguments : json) : outcome ToolResult :=
  listing ← supported_tools;
  Return (SupportedTools listing).

Definition is_tool (name : string) (tool_name : option json) : bool :=
  match tool_name with
  | Some (JStr s) => String.eqb s name
  | _ => false
  end.

(** [_handle_tools_call]. *)
Definition _handle_tools_call (message : MCPMessage) : Response :=
  let params := default [] (params message) in
  let tool_name := dict_get "name" params in
  let arguments := dict_get_default "arguments" (JObj []) params in
  let called : outcome (option ToolResult) :=
    if is_tool "execute_command" tool_name then
      Some <$> _execute_command arguments
    else if is_tool "validate_command" tool_name then
      Some <$> _validate_command arguments
    else if is_tool "list_supported_tools" tool_name then
      Some <$> _list_supported_tools arguments
    else Return None in
  match called with
  | Return (Some result) =>
      {| resp_id := id message; body := Result (ToolContent result) |}
  | Return None =>
      _create_error_response (id message) MCPErrorCodes.INVALID_PARAMS
        (UnknownTool tool_name)
  | Raise e =>
      _create_error_response (id message) MCPErrorCodes.INTERNAL_ERROR
        (ToolCallFailed e)
  end.

Definition _handle_initialize (message : MCPMessage) (c : MCPSSEConnection)
  : Response * MCPSSEConnection :=
  ({| resp_id := id message; body := Result InitializeResult |},
   set_initialized c).

Definition _handle_tools_list (message : MCPMessage) : Response :=
  {| resp_id := id message; body := Result ToolsList |}.

Definition _handle_resources_list (message : MCPMessage) : Response :=
  {| resp_id := id message; body := Result ResourcesList |}.

Definition _handle_prompts_list (message : MCPMessage) : Response :=
  {| resp_id := id message; body := Result PromptsList |}.

Definition method_is (name : string) (message : MCPMessage) : bool :=
  match method message with
  | Some m => String.eqb m name
  | None => false
  end.

(** [MCPSSEConnection.handle_message]. *)
Definition handle_message (message_data : dict) (now : Z)
    (c : MCPSSEConnection) : option Response * MCPSSEConnection :=
  let c := touch now c in
  match parse_message jsonschema_message message_data with
  | Raise e =>
      (Some (_create_error_response (dict_get "id" message_data)
               MCPErrorCodes.INTERNAL_ERROR (InternalFailure e)), c)
  | Return message =>
      if method_is "initialize" message then
        let '(r, c) := _handle_initialize message c in (Some r, c)
      else if method_is "tools/list" message then
        (Some (_handle_tools_list message), c)
      else if method_is "tools/call" message then
        (Some (_handle_tools_call message), c)
      else if method_is "resources/list" message then
        (Some (_handle_resources_list message), c)
      else if method_is "prompts/list" message then
        (Some (_handle_prompts_list message), c)
      else
        (Some (_create_error_response (id message)
                 MCPErrorCodes.METHOD_NOT_FOUND
                 (UnknownMethod (method message))), c)
  end.

(** [MCPSSEHandler.handle_message]: a response, when there is one, is
    queued on the connection's stream.  [now] is read when the
    message arrives, [now'] when the response is queued. *)
Definition handler_handle_message (connection_id : string)
    (message_data : dict) (now now' : Z)
    (connections : gmap string MCPSSEConnection)
  : gmap string MCPSSEConnection :=
  match connections !! connection_id with
  | None => connections
  | Some connection =>
      let '(response, connection) := handle_message message_data now connection in
      match response with
      | Some r =>
          <[connection_id := send_message (OutResponse r) now' connection]>
            connections
      | None => <[connection_id := connection]> connections
      end
  end.

(** [MCPSSEHandler.handle_direct_message]: a temporary connection
    handles the message. *)
Definition handle_direct_message (message_data : dict) (now : Z)
  : option Response :=
  (handle_message message_data now (new_connection "temp" now)).1.

End Gateway.

End MCPSSE.

(** ** The same gateway over stdio (src/mcp_stdio_server.py)

    [MCPStdioServer.handle_message] opens with a test for notifications
    and is otherwise the text of [MCPSSEConnection.handle_message]; its
    handlers are those of the SSE gateway. *)
Module MCPStdio.

Section Server.

Variable jsonschema_message : dict → string.
Variable validate_command : string → outcome MCPSSE.Verdict.
Variable check_syntax : string → outcome MCPSSE.Verdict.
Variable execute : string → json → outcome Executor.ExecResult.
Variable supported_tools : outcome json.

Definition handle_message (message_data : dict) (now : Z)
  : option MCPSSE.Response :=
  if negb (dict_mem "id" message_data) then None
  else MCPSSE.handle_direct_message jsonschema_message validate_command
         check_syntax execute supported_tools message_data now.

End Server.

End MCPStdio.

(* ===================================================================== *)
(** ** HTTP front end (src/protocols/mcp_server.py) *)
(* ===================================================================== *)

Module MCPServer.

(** [CommandRequest]. *)
Record CommandRequest : Type := {
  command : string;
  args : option (list string);
  options : option dict;
  context : option dict
}.

(** The dictionaries returned by [_execute_command_async] and
    [_execute_task_async]. *)
Inductive ApiResponse : Type :=
  | ValidationRejected (details : list string)
  | Overloaded
  | Started (task_id : string)
  | TaskNotFound (task_id : string)
  | TaskOutput (success : bool) (task_id : string) (stdout stderr : string)
      (return_code : option Z) (command : string)
  | TaskFailed (task_id : string) (error : string)
  | ExecutionError (task_id : option string) (error : string).

(** The ["error_type"] member. *)
Definition error_type (r : ApiResponse) : option string :=
  match r with
  | ValidationRejected _ => Some "validation_error"
  | Overloaded => Some "system_overload"
  | TaskNotFound _ => Some "task_not_found"
  | TaskFailed _ _ | ExecutionError _ _ => Some "execution_error"
  | Started _ | TaskOutput _ _ _ _ _ _ => None
  end.

(** The ["success"] member. *)
Definition success (r : ApiResponse) : bool :=
  match r with
  | Started _ => true
  | TaskOutput ok _ _ _ _ _ => ok
  | _ => false
  end.

(** The ["task_id"] member, when the response has one. *)
Definition response_task_id (r : ApiResponse) : option string :=
  match r with
  | Started i | TaskNotFound i | TaskOutput _ i _ _ _ _ | TaskFailed i _ => Some i
  | ExecutionError i _ => i
  | ValidationRejected _ | Overloaded => None
  end.

(** A coroutine either returns or is suspended on an [await]. *)
Inductive reply : Type :=
  | Replied (r : ApiResponse)
  | Suspended.

(** The server: its task manager and event bus, and the task ids whose
    execution was handed to [asyncio.create_task]. *)
Record t : Type := {
  task_manager : TaskManager.t;
  sse_handler : SSE.t;
  background : list string
}.

(** [priority_map.get(priority_str, TaskPriority.NORMAL)]: the key must
    be hashable. *)
Definition priority_of (priority_str : json) : outcome TaskManager.TaskPriority :=
  if hashable priority_str then
    Return match priority_str with
           | JStr "low" => TaskManager.LOW
           | JStr "normal" => TaskManager.NORMAL
           | JStr "high" => TaskManager.HIGH
           | JStr "critical" => TaskManager.CRITICAL
           | _ => TaskManager.NORMAL
           end
  else Raise (TypeError "unhashable type").

Definition full_command_of (command : string) (args : list string) : string :=
  match args with
  | [] => command
  | _ => command +:+ " " +:+ join_space args
  end.

(** [str(issues)] for a list of strings. *)
Definition repr_strings (l : list string) : string :=
  "[" +:+ fold_right (λ s acc, "'" +:+ s +:+ "'"
                        +:+ (if String.eqb acc "" then "" else ", " +:+ acc))
                     "" l +:+ "]".

Section Server.

(** [self.validator.validate_command] and
    [self.executor.execute(command, timeout=.., task_id=..)]. *)
Variable validate_command : string → outcome MCPSSE.Verdict.
Variable executor_execute : string → json → string → outcome Executor.ExecResult.

(** [_execute_task_async]; [clock k] is the [k]-th clock reading of
    the request. *)
Definition _execute_task_async (task_id : string) (clock : nat → Z)
    (m : TaskManager.t) : ApiResponse * TaskManager.t :=
  match TaskManager.get_task task_id m with
  | None => (TaskNotFound task_id, m)
  | Some task =>
      let command := full_command_of (TaskManager.command task)
                       (TaskManager.args task) in
      let m := (TaskManager.update_task_status task_id TaskManager.RUNNING
                  None None None (clock 2%nat) m).2 in
      match executor_execute command (TaskManager.timeout task) task_id with
      | Return result =>
          let m :=
            if Executor.r_success result then
              (TaskManager.update_task_status task_id TaskManager.COMPLETED
                 (Some 1%Qc) None (Some result) (clock 3%nat) m).2
            else
              (TaskManager.update_task_status task_id TaskManager.FAILED
                 None (Some (default "执行失败" (Executor.r_error result)))
                 (Some result) (clock 3%nat) m).2 in
          (TaskOutput (Executor.r_success result) task_id
             (Executor.r_stdout result) (Executor.r_stderr result)
             (Executor.r_return_code result) command, m)
      | Raise e =>
          ((TaskFailed task_id (exn_str e)),
           (TaskManager.update_task_status task_id TaskManager.FAILED
              None (Some (exn_str e)) None (clock 3%nat) m).2)
      end
  end.

(** [_execute_command_async]; [fresh_id] is the [uuid.uuid4()] drawn
    by [create_task]. *)
Definition _execute_command_async (request : CommandRequest)
    (fresh_id : string) (clock : nat → Z) (s : t) : reply * t :=
  let args := default [] (args request) in
  let options := default [] (options request) in
  let async_exec := truthy (dict_get_default "async" (JBool false) options) in
  let priority_str := dict_get_default "priority" (JStr "normal") options in
  match priority_of priority_str with
  | Raise e => (Replied (ExecutionError None (exn_str e)), s)
  | Return priority =>
      let full_command := full_command_of (command request) args in
      match validate_command full_command with
      | Raise e => (Replied (ExecutionError None (exn_str e)), s)
      | Return validation_result =>
          if negb (MCPSSE.valid validation_result) then
            let sent :=
              SSE.send_security_alert "command_validation_failed" "high"
                full_command
                ("验证失败: " +:+ repr_strings (MCPSSE.issues validation_result))
                None (clock 0%nat) (λ k, clock (S k)) (sse_handler s) in
            let s := {| task_manager := task_manager s;
                        sse_handler := SSE.handler sent;
                        background := background s |} in
            match SSE.waiting_on sent with
            | [] => (Replied (ValidationRejected
                                (MCPSSE.issues validation_result)), s)
            | _ => (Suspended, s)
            end
          else if negb (TaskManager.can_accept_new_task (task_manager s)) then
            (Replied Overloaded, s)
          else
            let user_id :=
              match context request with
              | Some ((_ :: _) as c) => dict_get "user_id" c
              | _ => None
              end in
            let session_id :=
              match context request with
              | Some ((_ :: _) as c) => dict_get "session_id" c
              | _ => None
              end in
            match TaskManager.create_task (command request) (Some args)
                    (Some options) priority user_id session_id fresh_id
                    (clock 1%nat) (task_manager s) with
            | (Raise e, m) =>
                (Replied (ExecutionError None (exn_str e)),
                 {| task_manager := m; sse_handler := sse_handler s;
                    background := background s |})
            | (Return task_id, m) =>
                if async_exec then
                  (Replied (Started task_id),
                   {| task_manager := m; sse_handler := sse_handler s;
                      background := background s ++ [task_id] |})
                else
                  let '(r, m) := _execute_task_async task_id clock m in
                  (Replied r,
                   {| task_manager := m; sse_handler := sse_handler s;
                      background := background s |})
            end
      end
  end.

End Server.

(** The body of a POST to [/mcp/sse], as [json.loads] sees it. *)
Inductive PostBody : Type :=
  | EmptyBody
  | Malformed
  | JsonObject (d : dict).

Inductive PostReply : Type :=
  | PostResponse (r : MCPSSE.Response)
  (** [{"error": "Empty request body"}] *)
  | PostEmptyBody.

Section Post.

Variable jsonschema_message : dict → string.
Variable validate_command : string → outcome MCPSSE.Verdict.
Variable check_syntax : string → outcome MCPSSE.Verdict.
Variable execute : string → json → outcome Executor.ExecResult.
Variable supported_tools : outcome json.

(** [mcp_sse_message]. *)
Definition mcp_sse_message (body : PostBody) (now : Z) : PostReply :=
  match body with
  | EmptyBody => PostEmptyBody
  | Malformed =>
      PostResponse
        {| MCPSSE.resp_id := None;
           MCPSSE.body := MCPSSE.Error (-32603)
             (MCPSSE.InternalErrorText (OtherError "JSONDecodeError")) |}
  | JsonObject message_data =>
      match MCPSSE.handle_direct_message jsonschema_message validate_command
              check_syntax execute supported_tools message_data now with
      | Some response => PostResponse response
      | None =>
          PostResponse
            {| MCPSSE.resp_id := dict_get "id" message_data;
               MCPSSE.body := MCPSSE.Result MCPSSE.EmptyResult |}
      end
  end.

End Post.

End MCPServer.

(* ===================================================================== *)
(** ** Task manager: the periodic sweep (src/core/task_manager.py) *)
(* ===================================================================== *)

Module TaskSweep.

Import TaskManager.

(** The test of [_cleanup_task]:
    [task.is_finished and task.completed_at
     and current_time - task.completed_at > max_age], with
    [max_age = 86400]. *)
Definition expired (current_time : Z) (task : Task) : bool :=
  is_finished task
  && truthy_time (completed_at task)
  && match completed_at task with
     | Some t => 86400 <? current_time - t
     | None => false
     end.

(** [tasks_to_remove], in the order the dictionary is walked. *)
Definition tasks_to_remove (current_time : Z) (m : t) : list string :=
  (filter (λ kv, Is_true (expired current_time kv.2)) (map_to_list (tasks m))).*1.

(** One pass of the loop of [_cleanup_task]: every listed id is deleted
    from [self.tasks]; nothing else is touched. *)
Definition _cleanup_task (current_time : Z) (m : t) : t :=
  set_tasks m (foldr delete (tasks m) (tasks_to_remove current_time m)).

(** [get_statistics]: the counters and three sizes. *)
Record Statistics : Type := {
  counters : Stats;
  pending_tasks : Z;
  running_tasks_count : Z;
  total_stored_tasks : Z
}.

Definition get_statistics (m : t) : Statistics :=
  {| counters := stats m;
     pending_tasks := Z.of_nat (length (pending_queue m));
     running_tasks_count := Z.of_nat (size (running_tasks m));
     total_stored_tasks := Z.of_nat (size (tasks m)) |}.

End TaskSweep.

(* ===================================================================== *)
(** ** Executor: command lookup and cancellation (src/core/executor.py) *)
(* ===================================================================== *)

Module ExecutorControl.

Import Executor.

(** The file system, as [_is_valid_command] asks it:
    [os.path.isfile(p)] and [os.access(p, os.X_OK)]. *)
Record FS : Type := {
  isfile : string → bool;
  access_x : string → bool
}.

(** [os.path.isabs] on POSIX. *)
Definition isabs (s : string) : bool :=
  match s with
  | String "/"%char _ => true
  | _ => false
  end.

Fixpoint ends_with_slash (s : string) : bool :=
  match s with
  | "" => false
  | String c "" => Ascii.eqb c "/"%char
  | String _ rest => ends_with_slash rest
  end.

(** [os.path.join(a, b)] on POSIX, for two components. *)
Definition path_join (a b : string) : string :=
  if isabs b then b
  else if String.eqb a "" || ends_with_slash a then a +:+ b
  else a +:+ "/" +:+ b.

(** [s.split(sep)] for a one-character separator. *)
Fixpoint split_on (sep : ascii) (s : string) : list string :=
  match s with
  | "" => [""]
  | String c rest =>
      if Ascii.eqb c sep then "" :: split_on sep rest
      else match split_on sep rest with
           | [] => [String c ""]
           | w :: ws => String c w :: ws
           end
  end.

(** [_is_valid_command]: [environ] is [os.environ], the environment of
    the server process. *)
Definition _is_valid_command (fs : FS) (environ : gmap string string)
    (cmd_name : string) : bool :=
  if isabs cmd_name then isfile fs cmd_name && access_x fs cmd_name
  else
    existsb (λ path_dir,
               negb (String.eqb path_dir "")
               && isfile fs (path_join path_dir cmd_name)
               && access_x fs (path_join path_dir cmd_name))
            (split_on ":"%char (default "" (environ !! "PATH"))).

(** An entry of [active_contexts] while a run is under way: the context
    and, once the child is started, its [Popen] handle. *)
Record Run : Type := {
  context : ExecutionContext;
  process : option Process
}.

Definition set_cancelled (c : ExecutionContext) : ExecutionContext :=
  {| task_id := task_id c; command := command c; timeout := timeout c;
     start_time := start_time c; end_time := end_time c; cancelled := true;
     stdout_data := stdout_data c; stderr_data := stderr_data c;
     return_code := return_code c |}.

(** [cancel_task]: the answer, the calls made on the child, and the
    contexts afterwards.  An exception of [kill()] or [terminate()] is
    caught and answered with false. *)
Definition cancel_task (task_id : string) (force : bool)
    (active_contexts : gmap string Run)
  : bool * list action * gmap string Run :=
  match active_contexts !! task_id with
  | None => (false, [], active_contexts)
  | Some run =>
      match process run with
      | None => (true, [], active_contexts)
      | Some p =>
          if poll_running p then
            let marked :=
              <[task_id := {| context := set_cancelled (context run);
                              process := Some p |}]> active_contexts in
            if force then
              (match kill p with None => true | Some _ => false end,
               [Poll; Kill], marked)
            else
              (match terminate p with None => true | Some _ => false end,
               [Poll; Terminate], marked)
          else (true, [Poll], active_contexts)
      end
  end.

(** [get_active_tasks]. *)
Definition get_active_tasks (active_contexts : gmap string Run) : list string :=
  (map_to_list active_contexts).*1.

(** [cleanup_completed_tasks]: drops the contexts whose child exists and
    has exited. *)
Definition completed (run : Run) : bool :=
  match process run with
  | Some p => negb (poll_running p)
  | None => false
  end.

Definition cleanup_completed_tasks (active_contexts : gmap string Run)
  : gmap string Run :=
  foldr delete active_contexts
    (filter (λ kv, Is_true (completed kv.2)) (map_to_list active_contexts)).*1.

End ExecutorControl.

(* ===================================================================== *)
(** ** Event bus: keep-alive, sweep and stream (src/protocols/sse_handler.py) *)
(* ===================================================================== *)

Module SSEStream.

Import SSE.

Definition set_last_ping (c : SSEConnection) (now : Z) : SSEConnection :=
  {| connection_id := connection_id c; created_at := created_at c;
     last_ping := now; subscriptions := subscriptions c;
     queue := queue c; active := active c |}.

(** [ping_connection]. *)
Definition ping_connection (connection_id : string) (now : Z) (h : t) : bool * t :=
  match connections h !! connection_id with
  | Some c =>
      (true,
       {| connections := <[connection_id := set_last_ping c now]> (connections h);
          order := order h; event_stats := event_stats h |})
  | None => (false, h)
  end.

(** The list built by one pass of [_cleanup_task]: a connection is
    listed when its last ping is more than 300 seconds old, and again
    when it is not active. *)
Definition connections_to_remove (current_time : Z) (h : t) : list string :=
  flat_map (λ conn_id,
              match connections h !! conn_id with
              | Some c =>
                  (if 300 <? current_time - last_ping c then [conn_id] else [])
                  ++ (if negb (active c) then [conn_id] else [])
              | None => []
              end) (order h).

(** One pass of the loop of [_cleanup_task]: every listed connection is
    closed. *)
Definition _cleanup_task (current_time : Z) (h : t) : t :=
  foldl (λ h conn_id, close_connection conn_id h) h
        (connections_to_remove current_time h).

(** What happens around one turn of the [while connection.active] loop:
    the connection was closed before the test, the turn raises (in
    [wait_for] or while the event is framed), a producer puts an event
    during the turn, or nothing arrives and [current_time] is the clock
    read if the one-second wait times out. *)
Inductive tick : Type :=
  | Closed
  | Broken
  | Arrived (e : Event)
  | Idle (current_time : Z).

(** The events yielded by [event_stream], before [_format_sse_event]
    frames them as text. *)
Inductive frame : Type :=
  | EventFrame (e : Event)
  | HeartbeatFrame (connection_id : string) (timestamp : Z).

(** The loop of [event_stream] over the queue [pending];
    [heartbeat_interval = 30].  A turn that finds an event in the queue
    yields it; a turn on an empty queue yields the event that arrives, or
    times out and emits a heartbeat when more than 30 seconds have passed
    since [last_heartbeat]. *)
Fixpoint stream_loop (connection_id : string) (last_heartbeat : Z)
    (pending : list Event) (ticks : list tick) : list frame :=
  match ticks with
  | [] => []
  | Closed :: _ => []
  | Broken :: _ => []
  | Arrived e :: rest =>
      match pending with
      | next :: pending' =>
          EventFrame next
          :: stream_loop connection_id last_heartbeat (pending' ++ [e]) rest
      | [] => EventFrame e :: stream_loop connection_id last_heartbeat [] rest
      end
  | Idle current_time :: rest =>
      match pending with
      | next :: pending' =>
          EventFrame next :: stream_loop connection_id last_heartbeat pending' rest
      | [] =>
          if 30 <? current_time - last_heartbeat then
            HeartbeatFrame connection_id current_time
            :: stream_loop connection_id current_time [] rest
          else stream_loop connection_id last_heartbeat [] rest
      end
  end.

(** [event_stream]: nothing for an unknown connection; otherwise the
    connection is sent [connection_established] (clock [t_sent], payload
    time [t_data]), the loop runs ([t_start] is the clock read before
    it), and the connection is closed at the end.  A [put] that finds
    the queue full is never completed, this stream being the only
    reader of the queue: the stream stays suspended before its first
    frame. *)
Definition event_stream (connection_id : string) (t_data t_sent t_start : Z)
    (ticks : list tick) (h : t) : list frame * t :=
  match connections h !! connection_id with
  | None => ([], h)
  | Some c =>
      match send_event "connection_established"
              (JObj [("connection_id", JStr connection_id);
                     ("timestamp", JInt t_data);
                     ("message", JStr "SSE connection established")])
              t_sent c with
      | SendWaits => ([], h)
      | SendDone c =>
          let frames :=
            if active c then
              stream_loop connection_id t_start (items (queue c)) ticks
            else [] in
          (frames, close_connection connection_id h)
      end
  end.

End SSEStream.

(* ===================================================================== *)
(** ** Message parser: message kinds (src/protocols/message_parser.py) *)
(* ===================================================================== *)

Module MessageKinds.

Import MessageParser.

(** [is_response]. *)
Definition is_response (m : MCPMessage) : bool :=
  match result m with Some _ => true | None => false end
  || match error m with Some _ => true | None => false end.

End MessageKinds.

(* END MODEL *)

(* ===================================================================== *)
(** * Vocabulary of the statements *)
(* ===================================================================== *)

(** The task stored by an update. *)
Definition updated_task (task : TaskManager.Task)
    (status : TaskManager.TaskStatus) (progress : option Qc)
    (error : option string) (result : option Executor.ExecResult) (now : Z)
  : TaskManager.Task :=
  let task' := TaskManager.apply_update task status progress error result in
  if decide (status = TaskManager.RUNNING
             ∧ TaskManager.status task = TaskManager.PENDING)
  then TaskManager.set_started_at task' now
  else if TaskManager.is_finished task'
          && negb (truthy_time (TaskManager.completed_at task'))
       then TaskManager.set_completed_at task' now
       else task'.

(** The priority value of a registered task id (0 for an unknown id). *)
Definition prio (ts : gmap string TaskManager.Task) (i : string) : Z :=
  from_option (λ t, TaskManager.priority_value (TaskManager.priority t)) 0
              (ts !! i).

(** The managers reached from a fresh one by the public operations, with
    the task ids in the order [create_task] drew them.  An id drawn by
    [uuid.uuid4()] is new. *)
Inductive reaches (cfg : ExecutionConfig) : list string → TaskManager.t → Prop :=
  | reaches_init : reaches cfg [] (TaskManager.init cfg)
  | reaches_create hist m command args options priority user_id session_id
      task_id now :
      reaches cfg hist m →
      TaskManager.tasks m !! task_id = None →
      reaches cfg (hist ++ [task_id])
        (TaskManager.create_task command args options priority user_id
           session_id task_id now m).2
  | reaches_next hist m :
      reaches cfg hist m →
      reaches cfg hist (TaskManager.get_next_task m).2
  | reaches_cancel hist m task_id force now :
      reaches cfg hist m →
      reaches cfg hist (TaskManager.cancel_task task_id force now m).2
  | reaches_update hist m task_id status progress error result now :
      reaches cfg hist m →
      reaches cfg hist
        (TaskManager.update_task_status task_id status progress error result
           now m).2
  | reaches_mark_running hist m task_id now :
      reaches cfg hist m →
      reaches cfg hist (TaskManager.mark_task_running task_id now m).

(** What the queue of a manager satisfies after a history of draws. *)
Record queue_inv (hist : list string) (m : TaskManager.t) : Prop := {
  inv_hist_nodup : NoDup hist;
  inv_hist_registered : ∀ i, i ∈ hist → is_Some (TaskManager.tasks m !! i);
  inv_queue_hist : ∀ i, i ∈ TaskManager.pending_queue m → i ∈ hist;
  inv_sorted :
    StronglySorted (λ a b, b ≤ a)
      (prio (TaskManager.tasks m) <$> TaskManager.pending_queue m);
  inv_fifo :
    ∀ p, filter (λ i, prio (TaskManager.tasks m) i = p)
           (TaskManager.pending_queue m) `sublist_of` hist
}.

(** The connection once the events [evs] have been put on its queue;
    an inactive connection is left alone. *)
Definition deliver (c : SSE.SSEConnection) (evs : list SSE.Event) : SSE.SSEConnection :=
  if SSE.active c then
    SSE.set_queue_of c {| SSE.maxsize := SSE.maxsize (SSE.queue c);
                          SSE.items := SSE.items (SSE.queue c) ++ evs |}
  else c.

(** The insertion order of the connection dictionary lists exactly its
    keys. *)
Definition ordered_keys (h : SSE.t) : Prop :=
  ∀ i, i ∈ SSE.order h ↔ is_Some (SSE.connections h !! i).

(** The events and the heartbeat times among the frames of a stream, and
    the events that arrive during a run of its loop. *)
Definition events_of (frames : list SSEStream.frame) : list SSE.Event :=
  omap (λ f, match f with
             | SSEStream.EventFrame e => Some e
             | SSEStream.HeartbeatFrame _ _ => None
             end) frames.

Definition heartbeats_of (frames : list SSEStream.frame) : list Z :=
  omap (λ f, match f with
             | SSEStream.EventFrame _ => None
             | SSEStream.HeartbeatFrame _ t => Some t
             end) frames.

Definition arrivals (ticks : list SSEStream.tick) : list SSE.Event :=
  omap (λ k, match k with
             | SSEStream.Arrived e => Some e
             | _ => None
             end) ticks.

(** Each time of the list lies more than 30 seconds after the one before
    it, the first one after [last]. *)
Fixpoint spaced (last : Z) (times : list Z) : Prop :=
  match times with
  | [] => True
  | t :: rest => 30 < t - last ∧ spaced t rest
  end.

(** The fields of a task that are fixed when it is submitted. *)
Definition same_submission (t t' : TaskManager.Task) : Prop :=
  TaskManager.task_id t' = TaskManager.task_id t
  ∧ TaskManager.command t' = TaskManager.command t
  ∧ TaskManager.args t' = TaskManager.args t
  ∧ TaskManager.options t' = TaskManager.options t
  ∧ TaskManager.priority t' = TaskManager.priority t
  ∧ TaskManager.created_at t' = TaskManager.created_at t
  ∧ TaskManager.timeout t' = TaskManager.timeout t
  ∧ TaskManager.retry_count t' = TaskManager.retry_count t
  ∧ TaskManager.max_retries t' = TaskManager.max_retries t
  ∧ TaskManager.user_id t' = TaskManager.user_id t
  ∧ TaskManager.session_id t' = TaskManager.session_id t.

(** What the operations other than [create_task] keep of the registry. *)
Definition registry_kept (m m' : TaskManager.t) : Prop :=
  (∀ i, is_Some (TaskManager.tasks m' !! i) ↔ is_Some (TaskManager.tasks m !! i))
  ∧ size (TaskManager.tasks m') = size (TaskManager.tasks m)
  ∧ TaskManager.total_tasks (TaskManager.stats m')
    = TaskManager.total_tasks (TaskManager.stats m)
  ∧ TaskManager.config m' = TaskManager.config m
  ∧ ((∀ i t, TaskManager.tasks m !! i = Some t → TaskManager.task_id t = i) →
     ∀ i t, TaskManager.tasks m' !! i = Some t → TaskManager.task_id t = i).

(* END NOTIONS *)

(* ===================================================================== *)
(** * Sample inputs *)
(* ===================================================================== *)

(** A host whose parent environment holds a credential and a preloaded
    library, and where [sleep] is started as a process that outlives any
    timeout but exits as soon as it is asked to terminate. *)
Definition polite_process : Executor.Process :=
  {| Executor.pid := 4242;
     Executor.communicate := λ _, Executor.CommTimeout;
     Executor.poll_running := true;
     Executor.terminate := None;
     Executor.wait_grace := λ _, Executor.WaitExited;
     Executor.kill := None;
     Executor.wait_killed := None |}.

(** A process that ignores the termination request. *)
Definition stubborn_process : Executor.Process :=
  {| Executor.pid := 4243;
     Executor.communicate := λ _, Executor.CommTimeout;
     Executor.poll_running := true;
     Executor.terminate := None;
     Executor.wait_grace := λ _, Executor.WaitExpired;
     Executor.kill := None;
     Executor.wait_killed := None |}.

Definition sample_environ : gmap string string :=
  <["AWS_SECRET_ACCESS_KEY" := "s3cr3t"]>
    (<["LD_PRELOAD" := "/tmp/hook.so"]>
       (<["PATH" := "/home/kali/bin"]> ∅)).

Definition sample_os (p : Executor.Process) : Executor.OS :=
  {| Executor.environ := sample_environ;
     Executor.shlex_split := λ c, Return [c];
     Executor.is_valid_command := λ _, true;
     Executor.popen := λ _ _ _, Return p |}.

Definition sample_context : Executor.ExecutionContext :=
  Executor.new_context "t1" "sleep" (Executor.Int 1) 1000.

(** A manager holding one task, and the same after the task ran to
    completion. *)
Definition one_task : TaskManager.t :=
  (TaskManager.create_task "echo hello" None None TaskManager.NORMAL None None
     "t1" 100 (TaskManager.init default_config)).2.

Definition one_task_done : TaskManager.t :=
  (TaskManager.update_task_status "t1" TaskManager.COMPLETED None None None 102
     (TaskManager.update_task_status "t1" TaskManager.RUNNING None None None 101
        one_task).2).2.

(** Four submissions: a low one, two high ones, a normal one. *)
Definition submit (command tid : string) (priority : TaskManager.TaskPriority)
    (now : Z) (m : TaskManager.t) : TaskManager.t :=
  (TaskManager.create_task command None None priority None None tid now m).2.

Definition four_tasks : TaskManager.t :=
  submit "nikto -h target" "d" TaskManager.NORMAL 13
    (submit "nmap -sV target" "c" TaskManager.HIGH 12
       (submit "nmap -sS target" "b" TaskManager.HIGH 11
          (submit "echo hello" "a" TaskManager.LOW 10
             (TaskManager.init default_config)))).

(** A server configured for a single active task that already holds one
    pending task; a validator that accepts everything and an executor
    whose commands succeed with no output. *)
Definition single_slot_config : ExecutionConfig :=
  {| default_timeout := 300; max_timeout := 3600; max_concurrent_tasks := 1;
     working_directory := "/tmp/kali_sse"; environment := None |}.

Definition busy_server : MCPServer.t :=
  {| MCPServer.task_manager :=
       submit "sleep 5" "t1" TaskManager.NORMAL 10
         (TaskManager.init single_slot_config);
     MCPServer.sse_handler := SSE.init;
     MCPServer.background := [] |}.

Definition accept_all (command : string) : outcome MCPSSE.Verdict :=
  Return {| MCPSSE.valid := true; MCPSSE.score := 1; MCPSSE.issues := [] |}.

Definition quiet_executor (command : string) (timeout : json) (task_id : string)
  : outcome Executor.ExecResult :=
  Return (Executor._create_success_result
            (Executor.set_output
               (Executor.new_context task_id command (Executor.Int 300) 0)
               "" "" 0) 0).

Definition echo_request : MCPServer.CommandRequest :=
  {| MCPServer.command := "echo"; MCPServer.args := Some ["hello"];
     MCPServer.options := None; MCPServer.context := None |}.

(** Two subscribers: a wildcard one, and one that follows task
    completions but has stopped reading its stream. *)
Definition two_subscribers : SSE.t :=
  (SSE.create_connection (Some ["task_completed"]) "c2" 2
     (SSE.create_connection None "c1" 1 SSE.init).2).2.

Definition completion_payload : json :=
  JObj [("task_id", JStr "t1"); ("status", JStr "completed")].


(** Messages sent to the gateway: a [tools/call] of [execute_command]
    without the [command] argument, an envelope without [method], and the
    notification a client sends after the handshake. *)
Definition call_without_command : dict :=
  [("jsonrpc", JStr "2.0"); ("id", JInt 7); ("method", JStr "tools/call");
   ("params", JObj [("name", JStr "execute_command");
                    ("arguments", JObj [("args", JArr [JStr "-sV"])])])].

Definition envelope_without_method : dict :=
  [("jsonrpc", JStr "2.0"); ("id", JInt 8)].

Definition initialized_notification : dict :=
  [("jsonrpc", JStr "2.0"); ("method", JStr "notifications/initialized")].

Definition open_stream : gmap string MCPSSE.MCPSSEConnection :=
  {[ "c1" := MCPSSE.new_connection "c1" 40 ]}.

(** A server with no task and no subscriber. *)
Definition idle_server : MCPServer.t :=
  {| MCPServer.task_manager := TaskManager.init default_config;
     MCPServer.sse_handler := SSE.init;
     MCPServer.background := [] |}.

(** A response sent by a client, a tool call without parameters, a
    validator that rejects everything with the call it rejects, and a
    response whose result is null. *)
Definition client_response : dict :=
  [("jsonrpc", JStr "2.0"); ("id", JInt 7); ("result", JObj [])].

Definition call_without_params : MessageParser.MCPMessage :=
  {| MessageParser.jsonrpc := "2.0"; MessageParser.id := Some (JInt 3);
     MessageParser.method := Some "tools/call"; MessageParser.params := None;
     MessageParser.result := None; MessageParser.error := None |}.

Definition reject_all (command : string) : outcome MCPSSE.Verdict :=
  Return {| MCPSSE.valid := false; MCPSSE.score := 0;
            MCPSSE.issues := ["dangerous command"] |}.

Definition rm_call : MessageParser.MCPMessage :=
  {| MessageParser.jsonrpc := "2.0"; MessageParser.id := Some (JInt 4);
     MessageParser.method := Some "tools/call";
     MessageParser.params :=
       Some [("name", JStr "execute_command");
             ("arguments", JObj [("command", JStr "rm");
                                 ("args", JStr "-rf")])];
     MessageParser.result := None; MessageParser.error := None |}.

Definition null_result : dict :=
  [("jsonrpc", JStr "2.0"); ("id", JInt 1); ("result", JNull)].

(** A child that runs until it is told to stop.  [communicate] with a
    [NaN] timeout raises at once: the selector cannot turn the remaining
    time into milliseconds. *)
Definition sleeping_process : Executor.Process :=
  {| Executor.pid := 4244;
     Executor.communicate :=
       λ t, match t with
            | Executor.NaN =>
                Executor.CommError
                  (ValueError "cannot convert float NaN to integer")
            | _ => Executor.CommTimeout
            end;
     Executor.poll_running := true;
     Executor.terminate := None;
     Executor.wait_grace := λ _, Executor.WaitExited;
     Executor.kill := None;
     Executor.wait_killed := None |}.

(* END SAMPLES *)

(* ===================================================================== *)
(** * Properties of the executor *)
(* ===================================================================== *)

Section ExecutorFacts.

Import Executor.

Lemma py_min_le x m : x ≠ NaN → le_int (py_min x m) m = true.
Proof.
  intros Hx. unfold py_min. destruct x as [z|q text| | |]; simpl; try done.
  - destruct (m <? z) eqn:Hlt; simpl; [apply Z.leb_refl |].
    apply Z.leb_le. apply Z.ltb_ge in Hlt. lia.
  - case_bool_decide as Hlt; simpl; [apply Z.leb_refl |].
    apply bool_decide_eq_true. by apply Qcnot_lt_le.
  - apply Z.leb_refl.
Qed.

Lemma py_min_nan m : py_min NaN m = NaN.
Proof. done. Qed.

(** The run either never reaches the child (no call is made) or opens
    with [communicate(timeout=context.timeout)]; no later call is a
    [communicate]. *)
Lemma execute_command_acts os config context t_end t_res :
  let acts := (_execute_command os config context t_end t_res).2 in
  (acts = [] ∨ ∃ rest, acts = Communicate (timeout context) :: rest)
  ∧ ∀ t, Communicate t ∈ acts → t = timeout context.
Proof.
  unfold _execute_command.
  destruct (_parse_command os (command context) ≫= _) as [p|e]; simpl.
  2: { split; [by left | intros t Hin; inversion Hin]. }
  destruct (communicate p (timeout context)) as [out err rc| |e]; simpl.
  - split; [right; by eexists |].
    intros t Hin. apply list_elem_of_singleton in Hin. congruence.
  - split; [right; by eexists |].
    intros t Hin. apply elem_of_cons in Hin as [Heq|Hin]; [congruence |].
    exfalso. revert Hin. unfold _terminate_process.
    destruct (poll_running p), (terminate p), (wait_grace p 5), (kill p);
      simpl; rewrite ?elem_of_cons, ?elem_of_nil; intuition discriminate.
  - split; [right; by eexists |].
    intros t Hin. apply list_elem_of_singleton in Hin. congruence.
Qed.

Lemma execute_command_timeout_field os config context t_end t_res :
    r_timeout (_execute_command os config context t_end t_res).1 = timeout context.
Proof.
    unfold _execute_command.
    destruct (_parse_command os (command context) ≫= _) as [p|e]; simpl; [|done].
    by destruct (communicate p (timeout context)).
Qed.

Lemma terminate_process_kill p :
    Kill ∈ _terminate_process p
    ↔ poll_running p = true ∧ terminate p = None ∧ wait_grace p 5 = WaitExpired.
Proof.
    unfold _terminate_process.
    destruct (poll_running p), (terminate p), (wait_grace p 5), (kill p);
      simpl; rewrite ?elem_of_cons, ?elem_of_nil; intuition discriminate.
Qed.

Lemma prepare_environment_other os config k :
    k ≠ "LC_ALL" → k ≠ "LANG" → k ≠ "PATH" →
    _prepare_environment os config !! k
    = (default ∅ (environment config) ∪ environ os) !! k.
Proof.
    intros H1 H2 H3. unfold _prepare_environment.
    rewrite !lookup_insert_ne by done.
    destruct (environment config); simpl; [done |].
    by rewrite (left_id_L ∅ (∪)).
Qed.

End ExecutorFacts.

(** C10: what holds, and where it fails.  [execute] hands to the child's
    [communicate], and records in the result, [min(timeout, max_timeout)]
    as Python computes it, with the configured default for a missing
    timeout; the child is started whenever its command parses and
    [Popen] returns, and [communicate] with that timeout is then the
    first call made on it.  The minimum is at most [max_timeout] for
    every requested number but [NaN]; for [NaN] it is [NaN] itself, which
    is not at most [max_timeout]. *)
Theorem execute_timeout_is_capped
    (os : Executor.OS) (config : ExecutionConfig)
    (active_contexts : gmap string Executor.ExecutionContext)
    (command : string) (timeout : option Executor.number)
    (task_id : option string) (fresh_id : string) (t_start t_end t_res : Z) :
  let run := Executor.execute os config active_contexts command timeout
               task_id fresh_id t_start t_end t_res in
  let requested := default (Executor.Int (default_timeout config)) timeout in
  let enforced := Executor.effective_timeout config timeout in
  enforced = Executor.py_min requested (max_timeout config)
  ∧ (requested ≠ Executor.NaN →
     Executor.le_int enforced (max_timeout config) = true)
  ∧ (requested = Executor.NaN →
     enforced = Executor.NaN
     ∧ Executor.le_int enforced (max_timeout config) = false)
  ∧ Executor.r_timeout run.1.1 = enforced
  ∧ (∀ t, Executor.Communicate t ∈ run.1.2 → t = enforced)
  ∧ match Executor._parse_command os command
          ≫= (λ parts, Executor.popen os parts
                          (Executor._prepare_environment os config)
                          (working_directory config)) with
    | Return p => ∃ rest, run.1.2 = Executor.Communicate enforced :: rest
    | Raise _ => run.1.2 = []
    end.
Proof.
  intros run requested enforced.
  assert (enforced = Executor.py_min requested (max_timeout config)) as Heff
    by (subst enforced requested; unfold Executor.effective_timeout;
        by destruct timeout).
  split; [done |]. split; [| split].
  - intros Hnan. rewrite Heff. by apply py_min_le.
  - intros Hnan. rewrite Heff, Hnan. done.
  - subst run. unfold Executor.execute. fold enforced.
    set (tid := match task_id with Some i => _ | None => _ end).
    set (ctx := Executor.new_context tid command enforced t_start).
    pose proof (execute_command_acts os config ctx t_end t_res) as [_ Hall].
    pose proof (execute_command_timeout_field os config ctx t_end t_res)
      as Hfield.
    assert (match Executor._parse_command os command
                  ≫= (λ parts, Executor.popen os parts
                                  (Executor._prepare_environment os config)
                                  (working_directory config)) with
            | Return p =>
                ∃ rest, (Executor._execute_command os config ctx t_end t_res).2
                        = Executor.Communicate enforced :: rest
            | Raise _ =>
                (Executor._execute_command os config ctx t_end t_res).2 = []
            end) as Hopen.
    { unfold Executor._execute_command. change (Executor.command ctx) with command.
      destruct (Executor._parse_command os command ≫= _) as [p|e]; [| done].
      change (Executor.timeout ctx) with enforced.
      destruct (Executor.communicate p enforced); by eexists. }
    destruct (Executor._execute_command os config ctx t_end t_res)
      as [result acts].
    simpl in *. done.
Qed.

(** C10, as stated, fails: a request whose timeout is [NaN] starts the
    child with a timeout that is not at most [max_timeout];
    [communicate] raises at once, the run is reported as an error, and
    the child is neither terminated nor killed. *)
Lemma nan_timeout_is_not_capped :
  Executor.effective_timeout default_config (Some Executor.NaN) = Executor.NaN
  ∧ Executor.le_int
      (Executor.effective_timeout default_config (Some Executor.NaN))
      (max_timeout default_config) = false
  ∧ (Executor.execute (sample_os sleeping_process) default_config ∅
       "sleep 100000" (Some Executor.NaN) (Some "t1") "" 1000 1000 1000).1.2
    = [Executor.Communicate Executor.NaN]
  ∧ Executor.r_error
      (Executor.execute (sample_os sleeping_process) default_config ∅
         "sleep 100000" (Some Executor.NaN) (Some "t1") "" 1000 1000 1000).1.1
    = Some "cannot convert float NaN to integer".
Proof. repeat split; reflexivity. Qed.

(** C3, as amended.  When [communicate] times out, the executor polls the
    child.  If the child has exited nothing is sent.  If it is still
    running the executor sends [terminate()]; when that call raises, the
    handling ends there, with no wait and no kill; when it succeeds the
    executor waits up to five seconds, and it sends [kill()] exactly when
    that wait expires (a wait that raises ends the handling too).
    Whatever the child does, the result carries the return code -1, is
    not a success, and has the timeout texts as its output. *)
Theorem timeout_escalates_to_kill_when_grace_expires
    (os : Executor.OS) (config : ExecutionConfig)
    (context : Executor.ExecutionContext) (t_end t_res : Z)
    (p : Executor.Process) :
  Executor._parse_command os (Executor.command context)
    ≫= (λ parts, Executor.popen os parts (Executor._prepare_environment os config)
                    (working_directory config)) = Return p →
  Executor.communicate p (Executor.timeout context) = Executor.CommTimeout →
  let run := Executor._execute_command os config context t_end t_res in
  let handling := Executor._terminate_process p in
  Executor.r_return_code run.1 = Some (-1)
  ∧ Executor.r_success run.1 = false
  ∧ Executor.r_stdout run.1 = "命令执行超时"
  ∧ Executor.r_stderr run.1
    = "执行超时 (" +:+ Executor.number_str (Executor.timeout context) +:+ "秒)"
  ∧ run.2 = Executor.Communicate (Executor.timeout context) :: handling
  ∧ (Executor.poll_running p = false → handling = [Executor.Poll])
  ∧ (Executor.poll_running p = true →
     (∀ e, Executor.terminate p = Some e →
           handling = [Executor.Poll; Executor.Terminate])
     ∧ (Executor.terminate p = None →
        (Executor.wait_grace p 5 = Executor.WaitExited →
         handling
         = [Executor.Poll; Executor.Terminate; Executor.Wait (Some 5)])
        ∧ (∀ e, Executor.wait_grace p 5 = Executor.WaitError e →
                handling
                = [Executor.Poll; Executor.Terminate; Executor.Wait (Some 5)])
        ∧ (Executor.wait_grace p 5 = Executor.WaitExpired →
           handling
           = [Executor.Poll; Executor.Terminate; Executor.Wait (Some 5);
              Executor.Kill]
             ++ match Executor.kill p with
                | None => [Executor.Wait None]
                | Some _ => []
                end)))
  ∧ (Executor.Kill ∈ run.2
     ↔ Executor.poll_running p = true ∧ Executor.terminate p = None
       ∧ Executor.wait_grace p 5 = Executor.WaitExpired)
  ∧ (Executor.Wait (Some 5) ∈ run.2
     ↔ Executor.poll_running p = true ∧ Executor.terminate p = None).
Proof.
  intros Hspawn Htimeout run handling. subst run handling.
  unfold Executor._execute_command. rewrite Hspawn, Htimeout. simpl.
  split; [done |]. split; [done |]. split; [done |]. split; [done |].
  split; [done |]. unfold Executor._terminate_process.
  split; [by intros -> |]. split; [| split].
  - intros ->. split.
    + by intros e ->.
    + intros ->. split; [by intros -> |]. split; [by intros e -> |].
      intros ->. by destruct (Executor.kill p).
  - rewrite elem_of_cons.
    destruct (Executor.poll_running p), (Executor.terminate p),
      (Executor.wait_grace p 5), (Executor.kill p);
      simpl; rewrite ?elem_of_cons, ?elem_of_nil; intuition discriminate.
  - rewrite elem_of_cons.
    destruct (Executor.poll_running p), (Executor.terminate p),
      (Executor.wait_grace p 5), (Executor.kill p);
      simpl; rewrite ?elem_of_cons, ?elem_of_nil; intuition discriminate.
Qed.

Lemma timeout_escalates_witness :
  Executor.Kill ∈
    (Executor._execute_command (sample_os stubborn_process) default_config
       sample_context 1006 1006).2
  ∧ Executor.r_return_code
      (Executor._execute_command (sample_os stubborn_process) default_config
         sample_context 1006 1006).1 = Some (-1).
Proof.
  pose proof (timeout_escalates_to_kill_when_grace_expires
                (sample_os stubborn_process) default_config sample_context
                1006 1006 stubborn_process eq_refl eq_refl)
    as (Hrc & _ & _ & _ & _ & _ & _ & Hkill & _).
  split; [apply Hkill; repeat split | exact Hrc].
Defined.

(** C3, as stated, fails: a child that outlives its timeout but exits on
    the termination request is never force-killed. *)
Lemma timeout_without_force_kill :
  Executor.communicate polite_process (Executor.timeout sample_context)
  = Executor.CommTimeout
  ∧ (Executor._execute_command (sample_os polite_process) default_config
       sample_context 1002 1002).2
    = [Executor.Communicate (Executor.Int 1); Executor.Poll;
       Executor.Terminate; Executor.Wait (Some 5)]
  ∧ Executor.Kill ∉
      (Executor._execute_command (sample_os polite_process) default_config
         sample_context 1002 1002).2.
Proof.
  split; [reflexivity |]. split; [reflexivity |].
  change (Executor._execute_command _ _ _ _ _).2
    with [Executor.Communicate (Executor.Int 1); Executor.Poll;
          Executor.Terminate; Executor.Wait (Some 5)].
  rewrite !elem_of_cons, elem_of_nil. intuition discriminate.
Qed.

(** C5, as amended.  The child environment is the parent environment,
    overlaid with the configured variables when the configuration has
    any, in which exactly [LC_ALL], [LANG] and [PATH] are replaced by
    ["C"], ["C"] and the fixed search path; every other variable keeps
    the value it has in the parent (or in the configuration). *)
Theorem prepared_environment_overrides_three
    (os : Executor.OS) (config : ExecutionConfig) (k : string) :
  k ≠ "LC_ALL" → k ≠ "LANG" → k ≠ "PATH" →
  Executor._prepare_environment os config !! "PATH"
  = Some "/usr/local/sbin:/usr/local/bin:/usr/sbin:/usr/bin:/sbin:/bin"
  ∧ Executor._prepare_environment os config !! "LC_ALL" = Some "C"
  ∧ Executor._prepare_environment os config !! "LANG" = Some "C"
  ∧ Executor._prepare_environment os config !! k
    = (default ∅ (environment config) ∪ Executor.environ os) !! k
  ∧ (environment config = None →
     Executor._prepare_environment os config !! k = Executor.environ os !! k).
Proof.
  intros H1 H2 H3.
  pose proof (prepare_environment_other os config k H1 H2 H3) as Hk.
  split; [| split; [| split; [| split]]].
  - unfold Executor._prepare_environment. by rewrite lookup_insert_eq.
  - unfold Executor._prepare_environment.
    rewrite lookup_insert_ne by done. rewrite lookup_insert_ne by done.
    by rewrite lookup_insert_eq.
  - unfold Executor._prepare_environment.
    rewrite lookup_insert_ne by done. by rewrite lookup_insert_eq.
  - exact Hk.
  - intros Hnone. rewrite Hk, Hnone. simpl. by rewrite (left_id_L ∅ (∪)).
Qed.

Lemma prepared_environment_witness :
  Executor._prepare_environment (sample_os polite_process) default_config
    !! "LD_PRELOAD"
  = Executor.environ (sample_os polite_process) !! "LD_PRELOAD".
Proof.
  apply (prepared_environment_overrides_three (sample_os polite_process)
           default_config "LD_PRELOAD");
    [discriminate | discriminate | discriminate | reflexivity].
Defined.

(** C5, as stated, fails: the parent's credential and preloaded library
    reach the child, which a rebuild from a minimal safe set would not
    allow. *)
Lemma parent_environment_is_inherited :
  Executor.environ (sample_os polite_process) !! "AWS_SECRET_ACCESS_KEY"
  = Some "s3cr3t"
  ∧ Executor._prepare_environment (sample_os polite_process) default_config
      !! "AWS_SECRET_ACCESS_KEY" = Some "s3cr3t"
  ∧ Executor._prepare_environment (sample_os polite_process) default_config
      !! "LD_PRELOAD" = Some "/tmp/hook.so".
Proof. vm_compute. done. Qed.

(* ===================================================================== *)
(** * Properties of the task manager *)
(* ===================================================================== *)

Section TaskManagerFacts.

Import TaskManager.

Lemma update_task_status_queue task_id status progress error result now m :
  pending_queue (update_task_status task_id status progress error result now m).2
  = pending_queue m.
Proof.
  unfold update_task_status. destruct (tasks m !! task_id) as [task|]; [|done].
  repeat case_match; simplify_eq; by destruct progress.
Qed.

Lemma update_task_status_running task_id status progress error result now m :
  running_tasks (update_task_status task_id status progress error result now m).2
  = running_tasks m.
Proof.
  unfold update_task_status. destruct (tasks m !! task_id) as [task|]; [|done].
  repeat case_match; simplify_eq; by destruct progress.
Qed.

Lemma update_task_status_config task_id status progress error result now m :
  config (update_task_status task_id status progress error result now m).2
  = config m.
Proof.
  unfold update_task_status. destruct (tasks m !! task_id) as [task|]; [|done].
  repeat case_match; simplify_eq; by destruct progress.
Qed.

Lemma update_task_status_tasks task_id status progress error result now m task :
  tasks m !! task_id = Some task →
  tasks (update_task_status task_id status progress error result now m).2
  = <[task_id := updated_task task status progress error result now]> (tasks m).
Proof.
  intros Hlook. unfold update_task_status, updated_task. rewrite Hlook.
  repeat case_match; simplify_eq; by destruct progress.
Qed.

Lemma update_task_status_known task_id status progress error result now m task :
  tasks m !! task_id = Some task →
  (update_task_status task_id status progress error result now m).1 = true.
Proof.
  intros Hlook. unfold update_task_status. rewrite Hlook.
  repeat case_match; simplify_eq; by destruct progress.
Qed.

End TaskManagerFacts.

(** C1, as amended.  [update_task_status] is a no-op reported as false
    only for an unknown task id.  For a known task it stores the
    requested status whatever the current one is and reports true; it
    stamps [started_at] only on a PENDING to RUNNING update and
    [completed_at] only when the new status is a finished one and no
    completion time is recorded yet; the priority, the other tasks and
    the pending queue are untouched. *)
Theorem update_task_status_applies_any_status
    (task_id : string) (status : TaskManager.TaskStatus)
    (progress : option Qc) (error : option string)
    (result : option Executor.ExecResult) (now : Z) (m : TaskManager.t) :
  let r := TaskManager.update_task_status task_id status progress error
             result now m in
  match TaskManager.tasks m !! task_id with
  | None => r = (false, m)
  | Some task =>
      r.1 = true
      ∧ TaskManager.pending_queue r.2 = TaskManager.pending_queue m
      ∧ (∀ other, other ≠ task_id →
           TaskManager.tasks r.2 !! other = TaskManager.tasks m !! other)
      ∧ ∃ task',
          TaskManager.tasks r.2 !! task_id = Some task'
          ∧ TaskManager.status task' = status
          ∧ TaskManager.priority task' = TaskManager.priority task
          ∧ TaskManager.started_at task'
            = (if decide (status = TaskManager.RUNNING
                          ∧ TaskManager.status task = TaskManager.PENDING)
               then Some now else TaskManager.started_at task)
          ∧ TaskManager.completed_at task'
            = (if TaskManager.is_finished_status status
                  && negb (truthy_time (TaskManager.completed_at task))
               then Some now else TaskManager.completed_at task)
  end.
Proof.
  intros r. subst r.
  destruct (TaskManager.tasks m !! task_id) as [task|] eqn:Hlook.
  2: { unfold TaskManager.update_task_status. by rewrite Hlook. }
  split; [by eapply update_task_status_known |].
  split; [apply update_task_status_queue |].
  rewrite (update_task_status_tasks _ _ _ _ _ _ _ _ Hlook).
  split; [intros other Hne; by rewrite lookup_insert_ne |].
  eexists. split; [apply lookup_insert_eq |].
  unfold updated_task, TaskManager.is_finished. simpl.
  destruct (decide (status = TaskManager.RUNNING
                    ∧ TaskManager.status task = TaskManager.PENDING))
    as [[-> _]|_]; simpl; [done |].
  destruct (TaskManager.is_finished_status status
            && negb (truthy_time (TaskManager.completed_at task))); done.
Qed.

(** C1, as stated, fails: a completed task is moved to FAILED by a later
    update, which reports true; and a pending task is moved straight to
    COMPLETED. *)
Lemma terminal_task_is_overwritten :
  TaskManager.status <$> TaskManager.tasks one_task_done !! "t1"
  = Some TaskManager.COMPLETED
  ∧ (TaskManager.update_task_status "t1" TaskManager.FAILED None None None 103
       one_task_done).1 = true
  ∧ TaskManager.status <$>
      TaskManager.tasks
        (TaskManager.update_task_status "t1" TaskManager.FAILED None None None
           103 one_task_done).2 !! "t1"
    = Some TaskManager.FAILED
  ∧ TaskManager.status <$> TaskManager.tasks one_task !! "t1"
    = Some TaskManager.PENDING
  ∧ (TaskManager.update_task_status "t1" TaskManager.COMPLETED None None None
       101 one_task).1 = true
  ∧ TaskManager.status <$>
      TaskManager.tasks
        (TaskManager.update_task_status "t1" TaskManager.COMPLETED None None
           None 101 one_task).2 !! "t1"
    = Some TaskManager.COMPLETED.
Proof. vm_compute. done. Qed.

Section QueueFacts.

Import TaskManager.

Lemma insert_index_split ts p q i :
  Forall (λ x, is_Some (ts !! x)) q →
  ∃ l1 l2, q = l1 ++ l2
    ∧ insert_index ts p q i = Return (i + length l1)%nat
    ∧ Forall (λ x, priority_value p ≤ prio ts x) l1
    ∧ (∀ y l2', l2 = y :: l2' → prio ts y < priority_value p).
Proof.
  intros Hreg. revert i. induction Hreg as [|x q [t Ht] _ IH]; intros i.
  - exists [], []. repeat split; [simpl; f_equal; lia | constructor | done].
  - simpl. rewrite Ht.
    assert (prio ts x = priority_value (priority t)) as Hx
      by (unfold prio; by rewrite Ht).
    destruct (priority_value p >? priority_value (priority t)) eqn:Hgt.
    + exists [], (x :: q). repeat split; [simpl; f_equal; lia | constructor |].
      intros y l2' [= <- _]. rewrite Hx. lia.
    + destruct (IH (S i)) as (l1 & l2 & -> & Hidx & Hl1 & Hl2).
      exists (x :: l1), l2. repeat split; [| | done].
      * rewrite Hidx. simpl. f_equal. lia.
      * constructor; [rewrite Hx; lia | done].
Qed.

Lemma list_insert_at_app {A} (x : A) (l1 l2 : list A) :
  list_insert_at (0 + length l1) x (l1 ++ l2) = l1 ++ x :: l2.
Proof.
  unfold list_insert_at. simpl.
  by rewrite take_app_length, drop_app_length.
Qed.

Lemma prio_insert_ne ts i t x : x ≠ i → prio (<[i := t]> ts) x = prio ts x.
Proof. intros Hne. unfold prio. by rewrite lookup_insert_ne. Qed.

Lemma prio_insert_eq ts i t :
  prio (<[i := t]> ts) i = priority_value (priority t).
Proof. unfold prio. by rewrite lookup_insert_eq. Qed.

Lemma filter_sublist_mono {A} (P : A → Prop) `{!∀ x, Decision (P x)} (l k : list A) :
  l `sublist_of` k → filter P l `sublist_of` filter P k.
Proof.
  induction 1 as [|x l k _ IH|x l k _ IH]; [done | |].
  - rewrite !filter_cons. destruct (decide (P x)); [by constructor | done].
  - rewrite filter_cons. destruct (decide (P x)); [by constructor | done].
Qed.

Lemma filter_ext_in {A} (P Q : A → Prop) `{!∀ x, Decision (P x), !∀ x, Decision (Q x)}
    (l : list A) :
  (∀ x, x ∈ l → P x ↔ Q x) → filter P l = filter Q l.
Proof.
  induction l as [|a l IH]; intros Hpq; [done |].
  rewrite !filter_cons.
  assert (filter P l = filter Q l) as ->
    by (apply IH; intros x Hx; apply Hpq; by right).
  destruct (decide (P a)) as [Hp|Hp], (decide (Q a)) as [Hq|Hq]; try done;
    exfalso; apply (Hpq a) in Hp || apply (Hpq a) in Hq; try done; by left.
Qed.

Lemma StronglySorted_sublist {A} (R : relation A) (l k : list A) :
  l `sublist_of` k → StronglySorted R k → StronglySorted R l.
Proof.
  induction 1 as [|x l k Hsub IH|x l k Hsub IH]; [done | |].
  - rewrite !StronglySorted_cons. intros [Hall Hk]. split; [|by apply IH].
    rewrite Forall_forall in *. intros y Hy. apply Hall.
    by eapply elem_of_sublist.
  - rewrite StronglySorted_cons. intros [_ Hk]. by apply IH.
Qed.

Lemma filter_none {A} (P : A → Prop) `{!∀ x, Decision (P x)} (l : list A) :
  Forall (λ x, ¬ P x) l → filter P l = [].
Proof.
  induction 1 as [|x l Hx _ IH]; [done |]. by rewrite filter_cons_False.
Qed.

Lemma list_remove_first_sublist x l : list_remove_first x l `sublist_of` l.
Proof.
  induction l as [|y l IH]; simpl; [done |].
  destruct (String.eqb x y); by constructor.
Qed.

Lemma tail_below ts p l2 :
  StronglySorted (λ a b, b ≤ a) (prio ts <$> l2) →
  (∀ y l2', l2 = y :: l2' → prio ts y < p) →
  Forall (λ x, prio ts x < p) l2.
Proof.
  intros Hsorted Hhead. destruct l2 as [|y l2']; [constructor |].
  pose proof (Hhead y l2' eq_refl) as Hy.
  rewrite fmap_cons, StronglySorted_cons in Hsorted.
  destruct Hsorted as [Hall _]. constructor; [done |].
  rewrite Forall_fmap in Hall. eapply Forall_impl; [exact Hall |].
  simpl. intros x Hx. lia.
Qed.

Lemma create_task_spec command args options priority user_id session_id
    tid now m :
  Forall (λ x, is_Some (tasks m !! x)) (pending_queue m) →
  tasks m !! tid = None →
  let r := create_task command args options priority user_id session_id
             tid now m in
  ∃ task l1 l2,
    pending_queue m = l1 ++ l2
    ∧ r.1 = Return tid
    ∧ pending_queue r.2 = l1 ++ tid :: l2
    ∧ tasks r.2 = <[tid := task]> (tasks m)
    ∧ TaskManager.priority task = priority
    ∧ status task = PENDING
    ∧ running_tasks r.2 = running_tasks m
    ∧ config r.2 = config m
    ∧ Forall (λ x, priority_value priority ≤ prio (tasks m) x) l1
    ∧ (∀ y l2', l2 = y :: l2' → prio (tasks m) y < priority_value priority).
Proof.
  intros Hreg Hfresh r. subst r. unfold create_task.
  set (task := {| task_id := tid |}).
  assert (Forall (λ x, x ≠ tid) (pending_queue m)) as Hne.
  { eapply Forall_impl; [exact Hreg |]. simpl. intros x [t Hx] Heq. congruence. }
  assert (Forall (λ x, is_Some (<[tid := task]> (tasks m) !! x))
            (pending_queue m)) as Hreg'.
  { rewrite Forall_forall in *. intros x Hx.
    rewrite lookup_insert_ne; [by apply Hreg | intros Heq; by apply (Hne x)]. }
  destruct (insert_index_split _ priority _ 0%nat Hreg')
    as (l1 & l2 & Hq & Hidx & Hl1 & Hl2).
  unfold _add_to_queue. simpl. rewrite lookup_insert_eq. simpl.
  rewrite Hidx. simpl. exists task, l1, l2.
  rewrite Hq in Hne. apply Forall_app in Hne as [Hne1 Hne2].
  split; [done |]. split; [done |].
  split; [rewrite Hq; apply list_insert_at_app |].
  split; [done |]. split; [done |]. split; [done |]. split; [done |].
  split; [done |]. split.
  - rewrite Forall_forall in *. intros x Hx.
    rewrite <- (prio_insert_ne (tasks m) tid task x) by by apply Hne1.
    by apply Hl1.
  - intros y l2' ->. apply Forall_cons in Hne2 as [Hy _].
    rewrite <- (prio_insert_ne (tasks m) tid task y) by done.
    by eapply Hl2.
Qed.

Lemma queue_inv_registered hist m :
  queue_inv hist m → Forall (λ x, is_Some (tasks m !! x)) (pending_queue m).
Proof.
  intros Hinv. rewrite Forall_forall. intros x Hx.
  by apply (inv_hist_registered _ _ Hinv), (inv_queue_hist _ _ Hinv).
Qed.

Lemma queue_inv_init cfg : queue_inv [] (init cfg).
Proof.
  split; simpl.
  - constructor.
  - intros i Hi. by apply elem_of_nil in Hi.
  - done.
  - constructor.
  - intros p. constructor.
Qed.

Lemma queue_inv_create hist m command args options priority user_id
    session_id tid now :
  queue_inv hist m →
  tasks m !! tid = None →
  queue_inv (hist ++ [tid])
    (create_task command args options priority user_id session_id tid now m).2.
Proof.
  intros Hinv Hfresh.
  destruct (create_task_spec command args options priority user_id session_id
              tid now m (queue_inv_registered _ _ Hinv) Hfresh)
    as (task & l1 & l2 & Hq & _ & Hq' & Hts & Hprio & _ & _ & _ & Hl1 & Hl2).
  destruct Hinv as [Hnodup Hreg Hqh Hsorted Hfifo].
  assert (tid ∉ hist) as Hnotin.
  { intros Hin. apply Hreg in Hin as [t Ht]. congruence. }
  assert (∀ x, x ∈ pending_queue m → x ≠ tid) as Hne.
  { intros x Hx ->. by apply Hnotin, Hqh. }
  rewrite Hq in Hsorted, Hne, Hqh.
  assert (∀ l : list string, (∀ x, x ∈ l → x ≠ tid) →
               prio (<[tid := task]> (tasks m)) <$> l = prio (tasks m) <$> l)
    as Hmap.
  { intros l Hl. apply list_fmap_ext. intros i x Hx.
    apply prio_insert_ne, Hl. by eapply list_elem_of_lookup_2. }
  assert (∀ (l : list string) p, (∀ x, x ∈ l → x ≠ tid) →
               filter (λ i, prio (<[tid := task]> (tasks m)) i = p) l
               = filter (λ i, prio (tasks m) i = p) l)
    as Hfilter.
  { intros l p Hl. apply filter_ext_in. intros x Hx.
    by rewrite prio_insert_ne by by apply Hl. }
  rewrite fmap_app in Hsorted.
  pose proof (tail_below _ (priority_value priority) l2
                (StronglySorted_app_1_r _ _ _ Hsorted) Hl2) as Hbelow.
  split.
  - apply NoDup_app. split; [done |]. split; [| apply NoDup_singleton].
    intros x Hx Hx'. apply list_elem_of_singleton in Hx' as ->. done.
  - intros i Hi. rewrite Hts. apply elem_of_app in Hi as [Hi|Hi].
    + destruct (decide (i = tid)) as [->|Hne'];
        [rewrite lookup_insert_eq; by eexists |].
      rewrite lookup_insert_ne by done. by apply Hreg.
    + apply list_elem_of_singleton in Hi as ->.
      rewrite lookup_insert_eq. by eexists.
  - intros i. rewrite Hq'. rewrite elem_of_app, elem_of_cons.
    intros [Hi|[->|Hi]]; apply elem_of_app.
    + left. apply Hqh, elem_of_app. by left.
    + right. by apply list_elem_of_singleton.
    + left. apply Hqh, elem_of_app. by right.
  - rewrite Hq', Hts, fmap_app, fmap_cons, prio_insert_eq, Hprio.
    rewrite !Hmap
      by (intros x Hx; apply Hne, elem_of_app; (by left) || (by right)).
    apply StronglySorted_app in Hsorted as (Hcross & Hs1 & Hs2).
    apply StronglySorted_app_2; [| done |].
    + intros x1 x2 Hx1 Hx2. apply elem_of_cons in Hx2 as [->|Hx2].
      * apply list_elem_of_fmap in Hx1 as (i & -> & Hi).
        rewrite Forall_forall in Hl1. by apply Hl1.
      * by apply Hcross.
    + apply StronglySorted_cons. split; [| done].
      rewrite Forall_fmap. eapply Forall_impl; [exact Hbelow |].
      simpl. intros x Hx. lia.
  - intros p. rewrite Hq', Hts, filter_app, filter_cons, prio_insert_eq, Hprio.
    rewrite (Hfilter l1 p), (Hfilter l2 p)
      by (intros x Hx; apply Hne, elem_of_app; (by left) || (by right)).
    specialize (Hfifo p). rewrite Hq, filter_app in Hfifo.
    destruct (decide (priority_value priority = p)) as [Hp|Hp].
    + rewrite (filter_none _ l2) in *.
      2,3: eapply Forall_impl; [exact Hbelow | simpl; intros x Hx; lia].
      rewrite app_nil_r in Hfifo. by apply sublist_app.
    + by apply sublist_inserts_r.
Qed.

Lemma queue_inv_shrink hist m m' :
  queue_inv hist m →
  pending_queue m' `sublist_of` pending_queue m →
  (∀ x, prio (tasks m') x = prio (tasks m) x) →
  (∀ x, is_Some (tasks m !! x) → is_Some (tasks m' !! x)) →
  queue_inv hist m'.
Proof.
  intros [Hnodup Hreg Hqh Hsorted Hfifo] Hsub Hprio Hsome. split.
  - done.
  - intros i Hi. by apply Hsome, Hreg.
  - intros i Hi. apply Hqh. by eapply elem_of_sublist.
  - rewrite (list_fmap_ext (prio (tasks m')) (prio (tasks m)))
      by (intros i x _; apply Hprio).
    eapply StronglySorted_sublist; [| exact Hsorted]. by apply fmap_sublist.
  - intros p.
    rewrite (list_filter_iff _ (λ i, prio (tasks m) i = p))
      by (intros x; by rewrite Hprio).
    etrans; [| apply (Hfifo p)]. by apply filter_sublist_mono.
Qed.

Lemma updated_task_priority task status progress error result now :
  priority (updated_task task status progress error result now) = priority task.
Proof. unfold updated_task. by repeat case_match. Qed.

Lemma update_task_status_prio task_id status progress error result now m x :
  prio (tasks (update_task_status task_id status progress error result now m).2) x
  = prio (tasks m) x.
Proof.
  destruct (tasks m !! task_id) as [task|] eqn:Hlook.
  - rewrite (update_task_status_tasks _ _ _ _ _ _ _ _ Hlook).
    destruct (decide (x = task_id)) as [->|Hne].
    + rewrite prio_insert_eq, updated_task_priority.
      unfold prio. by rewrite Hlook.
    + by rewrite prio_insert_ne.
  - unfold update_task_status. by rewrite Hlook.
Qed.

Lemma update_task_status_registered task_id status progress error result now m x :
  is_Some (tasks m !! x) →
  is_Some (tasks (update_task_status task_id status progress error result now m).2
           !! x).
Proof.
  intros Hx. destruct (tasks m !! task_id) as [task|] eqn:Hlook.
  - rewrite (update_task_status_tasks _ _ _ _ _ _ _ _ Hlook).
    destruct (decide (x = task_id)) as [->|Hne].
    + rewrite lookup_insert_eq. by eexists.
    + by rewrite lookup_insert_ne.
  - unfold update_task_status. by rewrite Hlook.
Qed.

Lemma queue_inv_reaches cfg hist m : reaches cfg hist m → queue_inv hist m.
Proof.
  induction 1 as [| hist m ? ? ? ? ? ? tid now _ IH Hfresh | hist m _ IH
                  | hist m tid force now _ IH
                  | hist m tid status progress error result now _ IH
                  | hist m tid now _ IH].
  - apply queue_inv_init.
  - by apply queue_inv_create.
  - unfold get_next_task.
    destruct (pending_queue m) as [|next rest] eqn:Hq; simpl; [done |].
    eapply queue_inv_shrink; [exact IH | | done | done].
    simpl. rewrite Hq. by constructor.
  - unfold cancel_task. destruct (tasks m !! tid) as [task|]; [| done].
    destruct (is_finished task); [done |]. simpl.
    eapply queue_inv_shrink; [exact IH | | |].
    + rewrite update_task_status_queue. simpl. apply list_remove_first_sublist.
    + intros x. by rewrite update_task_status_prio.
    + intros x Hx. by apply update_task_status_registered.
  - eapply queue_inv_shrink; [exact IH | | |].
    + by rewrite update_task_status_queue.
    + intros x. by rewrite update_task_status_prio.
    + intros x Hx. by apply update_task_status_registered.
  - unfold mark_task_running. eapply queue_inv_shrink; [exact IH | | |].
    + by rewrite update_task_status_queue.
    + intros x. by rewrite update_task_status_prio.
    + intros x Hx. by apply update_task_status_registered.
Qed.

Lemma precedes_split {A} (a b : A) (l : list A) :
  [a; b] `sublist_of` l ↔ ∃ l1 l2 l3, l = l1 ++ a :: l2 ++ b :: l3.
Proof.
  split.
  - intros (l1 & k & -> & Hb)%sublist_cons_l.
    apply sublist_cons_l in Hb as (l2 & l3 & -> & _). by exists l1, l2, l3.
  - intros (l1 & l2 & l3 & ->).
    apply sublist_inserts_l, sublist_skip, sublist_inserts_l, sublist_skip,
      sublist_nil_l.
Qed.

Lemma queue_inv_order hist m q1 a q2 b q3 :
  queue_inv hist m →
  pending_queue m = q1 ++ a :: q2 ++ b :: q3 →
  prio (tasks m) b ≤ prio (tasks m) a
  ∧ (prio (tasks m) a = prio (tasks m) b →
     ∃ h1 h2 h3, hist = h1 ++ a :: h2 ++ b :: h3).
Proof.
  intros Hinv Hq. split.
  - pose proof (inv_sorted _ _ Hinv) as Hsorted.
    rewrite Hq, fmap_app, fmap_cons in Hsorted.
    apply StronglySorted_app_1_r, StronglySorted_cons in Hsorted as [Hall _].
    rewrite Forall_forall in Hall. apply Hall.
    rewrite fmap_app, fmap_cons. apply elem_of_app. right. by left.
  - intros Heq. apply precedes_split.
    etrans; [| apply (inv_fifo _ _ Hinv (prio (tasks m) a))].
    rewrite Hq.
    assert ([a; b] = filter (λ i, prio (tasks m) i = prio (tasks m) a) [a; b])
      as ->.
    { rewrite filter_cons_True by done.
      by rewrite filter_cons_True by done. }
    apply filter_sublist_mono, precedes_split. by exists q1, q2, q3.
Qed.

End QueueFacts.

(** C6.  In every manager reached by submissions (and pops, cancels and
    status updates), the pending queue holds registered tasks in
    descending priority, and two entries of equal priority stand in the
    order in which they were submitted; [create_task] returns the new id
    and places it behind every entry of priority at least its own and
    before every entry of lower priority, moving no other entry;
    [get_next_task] returns nothing on an empty queue and otherwise
    removes and returns the head, whose priority no other entry exceeds
    and which was submitted before every other entry of its priority. *)
Theorem pending_queue_is_priority_fifo
    (cfg : ExecutionConfig) (hist : list string) (m : TaskManager.t) :
  reaches cfg hist m →
  Forall (λ i, is_Some (TaskManager.tasks m !! i)) (TaskManager.pending_queue m)
  ∧ (∀ q1 a q2 b q3,
       TaskManager.pending_queue m = q1 ++ a :: q2 ++ b :: q3 →
       prio (TaskManager.tasks m) b ≤ prio (TaskManager.tasks m) a
       ∧ (prio (TaskManager.tasks m) a = prio (TaskManager.tasks m) b →
          ∃ h1 h2 h3, hist = h1 ++ a :: h2 ++ b :: h3))
  ∧ (∀ command args options priority user_id session_id tid now,
       TaskManager.tasks m !! tid = None →
       let r := TaskManager.create_task command args options priority user_id
                  session_id tid now m in
       r.1 = Return tid
       ∧ ∃ l1 l2,
           TaskManager.pending_queue m = l1 ++ l2
           ∧ TaskManager.pending_queue r.2 = l1 ++ tid :: l2
           ∧ Forall (λ x, TaskManager.priority_value priority
                          ≤ prio (TaskManager.tasks m) x) l1
           ∧ Forall (λ x, prio (TaskManager.tasks m) x
                          < TaskManager.priority_value priority) l2)
  ∧ match TaskManager.pending_queue m with
    | [] => TaskManager.get_next_task m = (None, m)
    | next :: rest =>
        TaskManager.get_next_task m = (Some next, TaskManager.set_queue m rest)
        ∧ Forall (λ other,
                    prio (TaskManager.tasks m) other
                    ≤ prio (TaskManager.tasks m) next
                    ∧ (prio (TaskManager.tasks m) other
                       = prio (TaskManager.tasks m) next →
                       ∃ h1 h2 h3, hist = h1 ++ next :: h2 ++ other :: h3))
                 rest
    end.
Proof.
  intros Hreach. pose proof (queue_inv_reaches _ _ _ Hreach) as Hinv.
  split; [by eapply queue_inv_registered |].
  split; [intros q1 a q2 b q3 Hq; by eapply queue_inv_order |].
  split.
  - intros command args options priority user_id session_id tid now Hfresh r.
    destruct (create_task_spec command args options priority user_id
                session_id tid now m (queue_inv_registered _ _ Hinv) Hfresh)
      as (task & l1 & l2 & Hq & Hret & Hq' & _ & _ & _ & _ & _ & Hl1 & Hl2).
    split; [done |]. exists l1, l2. split; [done |]. split; [done |].
    split; [done |]. eapply tail_below; [| exact Hl2].
    pose proof (inv_sorted _ _ Hinv) as Hsorted.
    rewrite Hq, fmap_app in Hsorted. by eapply StronglySorted_app_1_r.
  - unfold TaskManager.get_next_task.
    destruct (TaskManager.pending_queue m) as [|next rest] eqn:Hq; [done |].
    split; [done |]. rewrite Forall_forall. intros other Hother.
    apply list_elem_of_split in Hother as (q2 & q3 & ->).
    destruct (queue_inv_order hist m [] next q2 other q3 Hinv Hq) as [Hle Hfifo].
    split; [done |]. intros Heq. by apply Hfifo.
Qed.

Lemma four_tasks_reached : reaches default_config ["a"; "b"; "c"; "d"] four_tasks.
Proof.
  unfold four_tasks, submit.
  apply (reaches_create default_config ["a"; "b"; "c"]); [| reflexivity].
  apply (reaches_create default_config ["a"; "b"]); [| reflexivity].
  apply (reaches_create default_config ["a"]); [| reflexivity].
  apply (reaches_create default_config []); [| reflexivity].
  apply reaches_init.
Qed.

Lemma pending_queue_witness :
  TaskManager.pending_queue four_tasks = ["b"; "c"; "d"; "a"]
  ∧ TaskManager.get_next_task four_tasks
    = (Some "b", TaskManager.set_queue four_tasks ["c"; "d"; "a"]).
Proof.
  split; [reflexivity |].
  destruct (pending_queue_is_priority_fifo default_config ["a"; "b"; "c"; "d"]
              four_tasks four_tasks_reached) as (_ & _ & _ & Hpop).
  change (TaskManager.pending_queue four_tasks) with ["b"; "c"; "d"; "a"] in Hpop.
  apply Hpop.
Defined.

(* ===================================================================== *)
(** * Properties of the HTTP front end *)
(* ===================================================================== *)

Lemma can_accept_new_task_spec (m : TaskManager.t) :
  TaskManager.can_accept_new_task m = false
  ↔ max_concurrent_tasks (TaskManager.config m) ≤ TaskManager.active_count m.
Proof. unfold TaskManager.can_accept_new_task. rewrite Z.ltb_ge. done. Qed.

(** C2.  While the number of pending plus running tasks is at or above
    [max_concurrent_tasks], admission control refuses: no request changes
    the task manager (no task is created, the pending queue and the
    counters are as before, nothing is scheduled), and every request that
    the validator lets through to submission is answered at once with the
    system-overload rejection, the whole server being unchanged. *)
Theorem submit_at_capacity_is_rejected
    (validate_command : string → outcome MCPSSE.Verdict)
    (executor_execute : string → json → string → outcome Executor.ExecResult)
    (request : MCPServer.CommandRequest) (fresh_id : string) (clock : nat → Z)
    (s : MCPServer.t) :
  max_concurrent_tasks (TaskManager.config (MCPServer.task_manager s))
  ≤ TaskManager.active_count (MCPServer.task_manager s) →
  let r := MCPServer._execute_command_async validate_command executor_execute
             request fresh_id clock s in
  TaskManager.can_accept_new_task (MCPServer.task_manager s) = false
  ∧ MCPServer.task_manager r.2 = MCPServer.task_manager s
  ∧ MCPServer.background r.2 = MCPServer.background s
  ∧ (∀ priority verdict,
       MCPServer.priority_of
         (dict_get_default "priority" (JStr "normal")
            (default [] (MCPServer.options request))) = Return priority →
       validate_command
         (MCPServer.full_command_of (MCPServer.command request)
            (default [] (MCPServer.args request))) = Return verdict →
       MCPSSE.valid verdict = true →
       r = (MCPServer.Replied MCPServer.Overloaded, s)
       ∧ MCPServer.error_type MCPServer.Overloaded = Some "system_overload"
       ∧ MCPServer.success MCPServer.Overloaded = false).
Proof.
  intros Hfull r.
  pose proof (proj2 (can_accept_new_task_spec _) Hfull) as Hcan. subst r.
  split; [done |]. unfold MCPServer._execute_command_async.
  destruct (MCPServer.priority_of _) as [priority|e] eqn:Hprio.
  2: { simpl. split; [done |]. split; [done |]. intros ? ? [=]. }
  destruct (validate_command _) as [verdict|e] eqn:Hval.
  2: { simpl. split; [done |]. split; [done |]. intros ? ? _ [=]. }
  destruct (MCPSSE.valid verdict) eqn:Hvalid; simpl.
  - rewrite Hcan. simpl. split; [done |]. split; [done |]. by intros.
  - destruct (SSE.waiting_on _); simpl;
      (split; [done |]; split; [done |]; intros ? ? _ [= <-] Hv; congruence).
Qed.

Lemma submit_at_capacity_witness :
  MCPServer._execute_command_async accept_all quiet_executor echo_request
    "t2" (λ _, 20) busy_server
  = (MCPServer.Replied MCPServer.Overloaded, busy_server).
Proof.
  assert (max_concurrent_tasks
            (TaskManager.config (MCPServer.task_manager busy_server))
          ≤ TaskManager.active_count (MCPServer.task_manager busy_server))
    as Hfull by (vm_compute; discriminate).
  destruct (submit_at_capacity_is_rejected accept_all quiet_executor
              echo_request "t2" (λ _, 20) busy_server Hfull)
    as (_ & _ & _ & Hreply).
  apply (Hreply TaskManager.NORMAL
           {| MCPSSE.valid := true; MCPSSE.score := 1; MCPSSE.issues := [] |});
    reflexivity.
Defined.

(* ===================================================================== *)
(** * Properties of the event bus *)
(* ===================================================================== *)

Section BusFacts.

Import SSE.

Lemma deliver_nil c : deliver c [] = c.
Proof.
  unfold deliver. destruct c as [i t1 t2 subs [mx its] act]; simpl.
  destruct act; [| done]. unfold set_queue_of. simpl. by rewrite app_nil_r.
Qed.

Lemma deliver_id c evs : connection_id (deliver c evs) = connection_id c.
Proof. unfold deliver. by destruct (active c). Qed.

Lemma deliver_maxsize c evs : maxsize (queue (deliver c evs)) = maxsize (queue c).
Proof. unfold deliver. by destruct (active c). Qed.

Lemma send_event_unbounded event_type data now c :
  maxsize (queue c) = 0 →
  send_event event_type data now c
  = SendDone (deliver c [mk_event event_type data now c]).
Proof.
  intros Hmax. unfold send_event, deliver, put, full. rewrite Hmax. simpl.
  by destruct (active c).
Qed.

Lemma delivered_same_id event_type data clock ids k c c' :
  connection_id c = connection_id c' →
  delivered event_type data clock ids k c
  = delivered event_type data clock ids k c'.
Proof.
  intros Hid. revert k. induction ids as [|j ids IH]; intros k; simpl; [done |].
  rewrite IH, Hid. unfold mk_event. by rewrite Hid.
Qed.

Lemma deliver_deliver c evs evs' :
  deliver (deliver c evs) evs' = deliver c (evs ++ evs').
Proof.
  unfold deliver. destruct (active c) eqn:Hact; simpl; [| by rewrite Hact].
  rewrite Hact. unfold set_queue_of. simpl. by rewrite <- app_assoc.
Qed.

Lemma send_all_spec event_type data clock ids k conns :
  (∀ i c, conns !! i = Some c → maxsize (queue c) = 0) →
  (∀ i c, conns !! i = Some c → connection_id c = i) →
  (send_all event_type data clock ids k conns).1 = []
  ∧ ∀ i, (send_all event_type data clock ids k conns).2 !! i
         = (λ c, deliver c (delivered event_type data clock ids k c))
             <$> conns !! i.
Proof.
  revert k conns. induction ids as [|j ids IH]; intros k conns Hmax Hkey.
  - simpl. split; [done |]. intros i. destruct (conns !! i) as [c|]; simpl; [| done].
    by rewrite deliver_nil.
  - simpl. destruct (conns !! j) as [cj|] eqn:Hj.
    + rewrite (send_event_unbounded _ _ _ _ (Hmax _ _ Hj)).
      set (cj' := deliver cj [mk_event event_type data (clock k) cj]).
      destruct (IH (S k) (<[j := cj']> conns)) as [Hw Hconns].
      { intros i c. destruct (decide (i = j)) as [->|Hne].
        - rewrite lookup_insert_eq. intros [= <-]. unfold cj'.
          rewrite deliver_maxsize. by eapply Hmax.
        - rewrite lookup_insert_ne by done. apply Hmax. }
      { intros i c. destruct (decide (i = j)) as [->|Hne].
        - rewrite lookup_insert_eq. intros [= <-]. unfold cj'.
          rewrite deliver_id. by eapply Hkey.
        - rewrite lookup_insert_ne by done. apply Hkey. }
      split; [done |]. intros i. rewrite Hconns.
      destruct (decide (i = j)) as [->|Hne].
      * rewrite lookup_insert_eq, Hj. simpl. f_equal. unfold cj'.
        rewrite deliver_deliver.
        rewrite (delivered_same_id _ _ _ _ _ (deliver cj _) cj)
          by apply deliver_id.
        rewrite decide_True by (symmetry; by eapply Hkey). done.
      * rewrite lookup_insert_ne by done.
        destruct (conns !! i) as [c|] eqn:Hi; simpl; [| done].
        rewrite decide_False; [done |].
        intros ->. apply Hne. symmetry. by eapply Hkey.
    + destruct (IH (S k) conns Hmax Hkey) as [Hw Hconns].
      split; [done |]. intros i. rewrite Hconns.
      destruct (conns !! i) as [c|] eqn:Hi; simpl; [| done].
      rewrite decide_False; [done |].
      intros ->. rewrite (Hkey _ _ Hi) in Hj. congruence.
Qed.

Lemma broadcast_event_spec event_type data targets clock h :
  unbounded h → keyed h →
  let r := broadcast_event event_type data targets clock h in
  waiting_on r = []
  ∧ ∀ i, connections (handler r) !! i
         = (λ c, deliver c (delivered event_type data clock
                              (connections_to_send event_type targets h) 0 c))
             <$> connections h !! i.
Proof.
  intros Hmax Hkey r. subst r. unfold broadcast_event.
  destruct (decide (connections h = ∅)) as [Hempty|_]; simpl.
  { split; [done |]. intros i. by rewrite Hempty, lookup_empty. }
  destruct (send_all_spec event_type data clock
              (connections_to_send event_type targets h) 0 (connections h)
              Hmax Hkey) as [Hw Hconns].
  destruct (connections_to_send event_type targets h) as [|j ids] eqn:Hids.
  { simpl. split; [done |]. intros i.
    destruct (connections h !! i); simpl; [| done]. by rewrite deliver_nil. }
  destruct (send_all _ _ _ (j :: ids) _ _) as [w conns]. simpl in *.
  by subst w.
Qed.

Lemma unbounded_init : unbounded init.
Proof. intros i c. simpl. by rewrite lookup_empty. Qed.

Lemma keyed_init : keyed init.
Proof. intros i c. simpl. by rewrite lookup_empty. Qed.

Lemma subscribe_fold_queue types c :
  queue (foldl (λ c ty, subscribe ty c) c types) = queue c
  ∧ connection_id (foldl (λ c ty, subscribe ty c) c types) = connection_id c.
Proof.
  revert c. induction types as [|ty types IH]; intros c; [done |].
  simpl. by destruct (IH (subscribe ty c)) as [-> ->].
Qed.

Lemma created_connection event_types cid now h c :
  connections (create_connection event_types cid now h).2 !! cid = Some c →
  maxsize (queue c) = 0 ∧ connection_id c = cid.
Proof.
  simpl. rewrite lookup_insert_eq. intros [= <-].
  destruct event_types as [[|ty types]|]; [done | | done].
  by destruct (subscribe_fold_queue (ty :: types) (new_connection cid now))
    as [-> ->].
Qed.

Lemma unbounded_create event_types cid now h :
  unbounded h → unbounded (create_connection event_types cid now h).2.
Proof.
  intros Hmax i c. destruct (decide (i = cid)) as [->|Hne].
  - intros Hc. by apply created_connection in Hc as [? _].
  - simpl. rewrite lookup_insert_ne by done. apply Hmax.
Qed.

Lemma keyed_create event_types cid now h :
  keyed h → keyed (create_connection event_types cid now h).2.
Proof.
  intros Hkey i c. destruct (decide (i = cid)) as [->|Hne].
  - intros Hc. by apply created_connection in Hc as [_ ?].
  - simpl. rewrite lookup_insert_ne by done. apply Hkey.
Qed.

Lemma unbounded_close cid h : unbounded h → unbounded (close_connection cid h).
Proof.
  intros Hmax i c. unfold close_connection.
  destruct (connections h !! cid); [| apply Hmax]. simpl.
  intros Hc. apply lookup_delete_Some in Hc as [_ Hc]. by eapply Hmax.
Qed.

Lemma keyed_close cid h : keyed h → keyed (close_connection cid h).
Proof.
  intros Hkey i c. unfold close_connection.
  destruct (connections h !! cid); [| apply Hkey]. simpl.
  intros Hc. apply lookup_delete_Some in Hc as [_ Hc]. by eapply Hkey.
Qed.





End BusFacts.

Lemma ordered_keys_init : ordered_keys SSE.init.
Proof.
  intros i. simpl. rewrite lookup_empty, elem_of_nil.
  split; [done | by intros [? ?]].
Qed.

Lemma ordered_keys_create event_types cid now h :
  ordered_keys h → ordered_keys (SSE.create_connection event_types cid now h).2.
Proof.
  intros Hkeys i. simpl. destruct (decide (i = cid)) as [->|Hne].
  - rewrite lookup_insert_eq. split; [by eexists |]. intros _.
    case_decide; [done |]. apply elem_of_app. right. by left.
  - rewrite lookup_insert_ne by done. specialize (Hkeys i).
    case_decide; [done |]. rewrite elem_of_app, list_elem_of_singleton. tauto.
Qed.









Lemma two_subscribers_unbounded : SSE.unbounded two_subscribers.
Proof. apply unbounded_create, unbounded_create, unbounded_init. Qed.

Lemma two_subscribers_keyed : SSE.keyed two_subscribers.
Proof. apply keyed_create, keyed_create, keyed_init. Qed.

Lemma two_subscribers_ordered : ordered_keys two_subscribers.
Proof. apply ordered_keys_create, ordered_keys_create, ordered_keys_init. Qed.

Lemma deliver_last_ping c evs : SSE.last_ping (deliver c evs) = SSE.last_ping c.
Proof. unfold deliver. destruct (SSE.active c); reflexivity. Qed.

Lemma deliver_active c evs : SSE.active (deliver c evs) = SSE.active c.
Proof. unfold deliver. destruct (SSE.active c) eqn:E; simpl; congruence. Qed.

Lemma broadcast_event_order event_type data targets clock h :
  SSE.order (SSE.handler (SSE.broadcast_event event_type data targets clock h))
  = SSE.order h.
Proof.
  unfold SSE.broadcast_event. case_decide; [done |].
  destruct (SSE.connections_to_send _ _ _) as [|j ids]; [done |].
  by destruct (SSE.send_all _ _ _ _ _ _).
Qed.



(* ===================================================================== *)
(** * Properties of the MCP gateway *)
(* ===================================================================== *)

Section GatewayFacts.

Variable jsonschema_message : dict → string.
Variable validate_command : string → outcome MCPSSE.Verdict.
Variable check_syntax : string → outcome MCPSSE.Verdict.
Variable execute : string → json → outcome Executor.ExecResult.
Variable supported_tools : outcome json.

Let handle := MCPSSE.handle_message jsonschema_message validate_command
  check_syntax execute supported_tools.

Lemma dict_mem_get k d v : dict_get k d = Some v → dict_mem k d = true.
Proof. unfold dict_mem. by intros ->. Qed.

Lemma dict_mem_false k d : dict_mem k d = false → dict_get k d = None.
Proof. unfold dict_mem. by destruct (dict_get k d). Qed.

(** Every message is answered: no branch of [handle_message] returns
    [None]. *)
Lemma handle_message_always_answers message_data now c :
  ∃ response, (handle message_data now c).1 = Some response.
Proof.
  unfold handle, MCPSSE.handle_message.
  destruct (MessageParser.parse_message _ _) as [message|e]; [| by eexists].
  repeat case_match; simplify_eq; by eexists.
Qed.

(** A request that passes the schema is dispatched on its method. *)
Lemma parse_request message_data :
  MessageParser.request_schema message_data = true →
  is_Some (dict_get "method" message_data) →
  MessageParser.parse_message jsonschema_message message_data
  = Return (MessageParser.build_message message_data).
Proof.
  intros Hschema [v Hv]. unfold MessageParser.parse_message,
    MessageParser._validate_message_structure.
  by rewrite (dict_mem_get _ _ _ Hv), Hschema.
Qed.

End GatewayFacts.

Lemma execute_command_without_command
    (validate_command : string → outcome MCPSSE.Verdict)
    (execute : string → json → outcome Executor.ExecResult) (arguments : dict) :
  dict_get "command" arguments = None →
  MCPSSE._execute_command validate_command execute (JObj arguments)
  = Raise (ValueError "缺少命令参数").
Proof.
  intros Hmissing. unfold MCPSSE._execute_command, MCPSSE.json_get, mbind,
    outcome_bind. by rewrite Hmissing.
Qed.

(** The error codes of the gateway.  An error response carries -32603
    (a message that does not parse, a tool that raises), -32601 (a
    method the gateway does not serve) or -32602, the last one only on
    a [tools/call] whose tool name is none of the three tools. *)
Lemma handle_message_error_codes
    (jsonschema_message : dict → string)
    (validate_command check_syntax : string → outcome MCPSSE.Verdict)
    (execute : string → json → outcome Executor.ExecResult)
    (supported_tools : outcome json)
    (message_data : dict) (now : Z) (c : MCPSSE.MCPSSEConnection)
    (response : MCPSSE.Response) (code : Z) (message : MCPSSE.ErrorMessage) :
  (MCPSSE.handle_message jsonschema_message validate_command check_syntax
     execute supported_tools message_data now c).1 = Some response →
  MCPSSE.body response = MCPSSE.Error code message →
  (code = -32603
   ∧ ∃ e, message = MCPSSE.InternalFailure e ∨ message = MCPSSE.ToolCallFailed e)
  ∨ (code = -32601 ∧ ∃ method, message = MCPSSE.UnknownMethod method)
  ∨ (code = -32602
     ∧ dict_get "method" message_data = Some (JStr "tools/call")
     ∧ ∃ tool_name,
         message = MCPSSE.UnknownTool tool_name
         ∧ tool_name
           = dict_get "name"
               (default []
                  (MessageParser.params
                     (MessageParser.build_message message_data)))
         ∧ tool_name
           ∉ (Some ∘ JStr) <$> ["execute_command"; "validate_command";
                                 "list_supported_tools"]).
Proof.
  unfold MCPSSE.handle_message.
  destruct (MessageParser.parse_message _ _) as [parsed|e] eqn:Hparse.
  2: { simpl. intros [= <-] [= <- <-]. left. split; [done |]. eexists. by left. }
  assert (parsed = MessageParser.build_message message_data) as ->.
  { unfold MessageParser.parse_message in Hparse.
    destruct (MessageParser._validate_message_structure _ _); congruence. }
  destruct (MCPSSE.method_is "initialize" _); [by intros [= <-] |].
  destruct (MCPSSE.method_is "tools/list" _); [by intros [= <-] |].
  destruct (MCPSSE.method_is "tools/call" _) eqn:Hcall.
  2: { destruct (MCPSSE.method_is "resources/list" _); [by intros [= <-] |].
       destruct (MCPSSE.method_is "prompts/list" _); [by intros [= <-] |].
       simpl. intros [= <-] [= <- <-]. right. left. split; [done |].
       by eexists. }
  simpl. intros [= <-]. unfold MCPSSE._handle_tools_call.
  set (tool_name := dict_get "name" _).
  destruct (MCPSSE.is_tool "execute_command" tool_name) eqn:H1.
  { destruct (MCPSSE._execute_command _ _ _) as [r|e]; simpl; [done |].
    intros [= <- <-]. left. split; [done |]. eexists. by right. }
  destruct (MCPSSE.is_tool "validate_command" tool_name) eqn:H2.
  { destruct (MCPSSE._validate_command _ _ _) as [r|e]; simpl; [done |].
    intros [= <- <-]. left. split; [done |]. eexists. by right. }
  destruct (MCPSSE.is_tool "list_supported_tools" tool_name) eqn:H3.
  { destruct (MCPSSE._list_supported_tools _ _) as [r|e]; simpl; [done |].
    intros [= <- <-]. left. split; [done |]. eexists. by right. }
  simpl. intros [= <- <-]. right. right. split; [done |]. split.
  - unfold MCPSSE.method_is, MessageParser.build_message in Hcall. simpl in Hcall.
    destruct (dict_get "method" message_data) as [[| | |m| |]|]; try done.
    apply String.eqb_eq in Hcall. by subst.
  - exists tool_name. split; [done |]. split; [done |].
    intros Hin. rewrite !elem_of_cons, elem_of_nil in Hin.
    destruct Hin as [Hin|[Hin|[Hin|[]]]]; rewrite Hin in H1, H2, H3;
      discriminate.
Qed.

(** C7, as amended.  A well-formed [tools/call] request that names
    [execute_command] and whose arguments are absent, or are an object
    without the [command] member, is answered with a JSON-RPC error that
    echoes the request id and carries the InternalError code -32603 (the
    [ValueError] of the missing argument is caught by the tool-call
    handler).  InvalidParams (-32602) is returned only for an unknown
    tool name: whatever message the gateway answers with -32602 is a
    [tools/call] whose tool name is none of the three tools. *)
Theorem missing_command_is_internal_error
    (jsonschema_message : dict → string)
    (validate_command check_syntax : string → outcome MCPSSE.Verdict)
    (execute : string → json → outcome Executor.ExecResult)
    (supported_tools : outcome json)
    (message_data params : dict) (now : Z) (c : MCPSSE.MCPSSEConnection) :
  MessageParser.request_schema message_data = true →
  dict_get "method" message_data = Some (JStr "tools/call") →
  dict_get "params" message_data = Some (JObj params) →
  dict_get "name" params = Some (JStr "execute_command") →
  match dict_get "arguments" params with
  | None => True
  | Some (JObj arguments) => dict_get "command" arguments = None
  | Some _ => False
  end →
  MCPSSE.handle_message jsonschema_message validate_command check_syntax
    execute supported_tools message_data now c
  = (Some {| MCPSSE.resp_id := dict_get "id" message_data;
             MCPSSE.body :=
               MCPSSE.Error (-32603)
                 (MCPSSE.ToolCallFailed (ValueError "缺少命令参数")) |},
     MCPSSE.touch now c)
  ∧ MCPErrorCodes.INTERNAL_ERROR = -32603
  ∧ MCPErrorCodes.INVALID_PARAMS = -32602
  ∧ (∀ (other : dict) (now' : Z) (c' : MCPSSE.MCPSSEConnection)
       (response : MCPSSE.Response) (message : MCPSSE.ErrorMessage),
       (MCPSSE.handle_message jsonschema_message validate_command check_syntax
          execute supported_tools other now' c').1 = Some response →
       MCPSSE.body response
       = MCPSSE.Error MCPErrorCodes.INVALID_PARAMS message →
       dict_get "method" other = Some (JStr "tools/call")
       ∧ ∃ tool_name,
           message = MCPSSE.UnknownTool tool_name
           ∧ tool_name
             = dict_get "name"
                 (default []
                    (MessageParser.params (MessageParser.build_message other)))
           ∧ tool_name
             ∉ (Some ∘ JStr) <$> ["execute_command"; "validate_command";
                                   "list_supported_tools"]).
Proof.
  intros Hschema Hmethod Hparams Hname Hargs.
  split; [| split; [done | split; [done |]]].
  2: { intros other now' c' response message Hresponse Hbody.
       destruct (handle_message_error_codes jsonschema_message validate_command
                   check_syntax execute supported_tools other now' c' response
                   _ message Hresponse Hbody)
         as [[Hcode _]|[[Hcode _]|[_ Hunknown]]]; [done | done | done]. }
  unfold MCPSSE.handle_message.
  rewrite (parse_request jsonschema_message message_data Hschema)
    by by rewrite Hmethod.
  unfold MCPSSE.method_is, MessageParser.build_message. simpl.
  rewrite Hmethod. simpl.
  unfold MCPSSE._handle_tools_call. simpl. rewrite Hparams. simpl.
  rewrite Hname. simpl. unfold dict_get_default.
  destruct (dict_get "arguments" params) as [[| | | | |arguments]|];
    try done; simpl.
  by rewrite execute_command_without_command.
Qed.

Lemma missing_command_witness :
  (MCPSSE.handle_direct_message (λ _, "") accept_all accept_all
     (λ command timeout, quiet_executor command timeout "sync")
     (Return (JArr [])) call_without_command 50)
  = Some {| MCPSSE.resp_id := Some (JInt 7);
            MCPSSE.body :=
              MCPSSE.Error (-32603)
                (MCPSSE.ToolCallFailed (ValueError "缺少命令参数")) |}.
Proof.
  unfold MCPSSE.handle_direct_message.
  by rewrite (proj1 (missing_command_is_internal_error (λ _, "") accept_all
                       accept_all
                       (λ command timeout, quiet_executor command timeout "sync")
                       (Return (JArr [])) call_without_command
                       [("name", JStr "execute_command");
                        ("arguments", JObj [("args", JArr [JStr "-sV"])])]
                       50 (MCPSSE.new_connection "temp" 50)
                       eq_refl eq_refl eq_refl eq_refl eq_refl)).
Defined.

(** C7, as stated, fails: the reply to a [tools/call] of
    [execute_command] without [command] does not carry -32602. *)
Lemma missing_command_not_invalid_params :
  MessageParser.request_schema call_without_command = true
  ∧ dict_get "command" [("args", JArr [JStr "-sV"])] = None
  ∧ ∃ response,
      MCPSSE.handle_direct_message (λ _, "") accept_all accept_all
        (λ command timeout, quiet_executor command timeout "sync")
        (Return (JArr [])) call_without_command 50
      = Some response
      ∧ MCPSSE.body response
        = MCPSSE.Error (-32603)
            (MCPSSE.ToolCallFailed (ValueError "缺少命令参数"))
      ∧ ∀ message,
          MCPSSE.body response ≠ MCPSSE.Error MCPErrorCodes.INVALID_PARAMS message.
Proof.
  split; [reflexivity |]. split; [reflexivity |].
  eexists. split; [reflexivity |]. split; [reflexivity |].
  intros message. simpl. discriminate.
Qed.

(** C8, as amended.  An inbound message without a [method] member that
    is not a well-formed response makes [parse_message] raise; the gateway
    answers it with the message's own [id] member and the InternalError
    code -32603.  The InvalidRequest code -32600 is never produced:
    every error the gateway returns, on a stream or to a POST, carries
    -32603, -32601 or -32602. *)
Theorem missing_method_is_internal_error
    (jsonschema_message : dict → string)
    (validate_command check_syntax : string → outcome MCPSSE.Verdict)
    (execute : string → json → outcome Executor.ExecResult)
    (supported_tools : outcome json)
    (message_data : dict) (now : Z) (c : MCPSSE.MCPSSEConnection) :
  dict_mem "method" message_data = false →
  MessageParser.response_schema message_data = false →
  (∃ e,
     MCPSSE.handle_message jsonschema_message validate_command check_syntax
       execute supported_tools message_data now c
     = (Some {| MCPSSE.resp_id := dict_get "id" message_data;
                MCPSSE.body := MCPSSE.Error (-32603) (MCPSSE.InternalFailure e) |},
        MCPSSE.touch now c))
  ∧ MCPErrorCodes.INTERNAL_ERROR = -32603
  ∧ MCPErrorCodes.INVALID_REQUEST = -32600
  ∧ (∀ (other : dict) (now' : Z) (c' : MCPSSE.MCPSSEConnection)
       (response : MCPSSE.Response) (code : Z) (message : MCPSSE.ErrorMessage),
       (MCPSSE.handle_message jsonschema_message validate_command check_syntax
          execute supported_tools other now' c').1 = Some response →
       MCPSSE.body response = MCPSSE.Error code message →
       code ≠ MCPErrorCodes.INVALID_REQUEST
       ∧ code ∈ [-32603; -32601; -32602])
  ∧ (∀ (posted : MCPServer.PostBody) (now' : Z) (response : MCPSSE.Response)
       (code : Z) (message : MCPSSE.ErrorMessage),
       MCPServer.mcp_sse_message jsonschema_message validate_command
         check_syntax execute supported_tools posted now'
       = MCPServer.PostResponse response →
       MCPSSE.body response = MCPSSE.Error code message →
       code ≠ MCPErrorCodes.INVALID_REQUEST
       ∧ code ∈ [-32603; -32601; -32602]).
Proof.
  intros Hmethod Hresponse.
  assert (∀ (other : dict) (now' : Z) (c' : MCPSSE.MCPSSEConnection)
            (response : MCPSSE.Response) (code : Z)
            (message : MCPSSE.ErrorMessage),
            (MCPSSE.handle_message jsonschema_message validate_command
               check_syntax execute supported_tools other now' c').1
            = Some response →
            MCPSSE.body response = MCPSSE.Error code message →
            code ≠ MCPErrorCodes.INVALID_REQUEST
            ∧ code ∈ [-32603; -32601; -32602]) as Hcodes.
  { intros other now' c' response code message Hanswer Hbody.
    destruct (handle_message_error_codes jsonschema_message validate_command
                check_syntax execute supported_tools other now' c' response
                code message Hanswer Hbody)
      as [[-> _]|[[-> _]|[-> _]]];
      (split; [done |]); rewrite !elem_of_cons; tauto. }
  split; [| split; [done | split; [done | split; [exact Hcodes |]]]].
  2: { intros posted now' response code message Hpost Hbody.
       unfold MCPServer.mcp_sse_message in Hpost.
       destruct posted as [| |other]; [done | |].
       - injection Hpost as <-. simpl in Hbody. injection Hbody as <- <-.
         split; [done |]. by left.
       - unfold MCPSSE.handle_direct_message in Hpost.
         destruct (MCPSSE.handle_message _ _ _ _ _ other now' _).1
           as [answer|] eqn:Hanswer.
         + injection Hpost as <-. by eapply Hcodes.
         + injection Hpost as <-. done. }
  unfold MCPSSE.handle_message, MessageParser.parse_message,
    MessageParser._validate_message_structure.
  rewrite Hmethod, Hresponse.
  destruct (dict_mem "result" message_data || dict_mem "error" message_data);
    by eexists.
Qed.

Lemma missing_method_witness :
  ∃ e,
    MCPSSE.handle_message (λ _, "") accept_all accept_all
      (λ command timeout, quiet_executor command timeout "sync")
      (Return (JArr [])) envelope_without_method 50
      (MCPSSE.new_connection "c1" 40)
    = (Some {| MCPSSE.resp_id := Some (JInt 8);
               MCPSSE.body := MCPSSE.Error (-32603) (MCPSSE.InternalFailure e) |},
       MCPSSE.touch 50 (MCPSSE.new_connection "c1" 40)).
Proof.
  apply (missing_method_is_internal_error (λ _, "") accept_all accept_all
           (λ command timeout, quiet_executor command timeout "sync")
           (Return (JArr [])) envelope_without_method 50
           (MCPSSE.new_connection "c1" 40) eq_refl eq_refl).
Defined.

(** C8, as stated, fails: an envelope with a version tag and an id but no
    [method] is answered with -32603, not with -32600. *)
Lemma missing_method_not_invalid_request :
  dict_mem "method" envelope_without_method = false
  ∧ MessageParser.response_schema envelope_without_method = false
  ∧ MCPSSE.handle_direct_message (λ _, "") accept_all accept_all
      (λ command timeout, quiet_executor command timeout "sync")
      (Return (JArr [])) envelope_without_method 50
    = Some {| MCPSSE.resp_id := Some (JInt 8);
              MCPSSE.body :=
                MCPSSE.Error (-32603)
                  (MCPSSE.InternalFailure
                     (ValueError "消息解析异常: 无法确定消息类型")) |}
  ∧ (-32603 : Z) ≠ MCPErrorCodes.INVALID_REQUEST.
Proof. repeat split; discriminate. Qed.

(** C9: the failing input.  The notification
    [{"jsonrpc": "2.0", "method": "notifications/initialized"}] has a
    method and no id.  The SSE gateway answers it with a MethodNotFound
    error whose id is null: [handle_message] returns that response, the
    stream handler queues it on the client's connection, and the POST
    endpoint returns it as the reply body.  The stdio server, on the same
    message, returns no response. *)
Theorem notification_is_answered
    (jsonschema_message : dict → string)
    (validate_command check_syntax : string → outcome MCPSSE.Verdict)
    (execute : string → json → outcome Executor.ExecResult)
    (supported_tools : outcome json) :
  let answer :=
    {| MCPSSE.resp_id := None;
       MCPSSE.body := MCPSSE.Error (-32601)
                        (MCPSSE.UnknownMethod (Some "notifications/initialized")) |} in
  dict_mem "method" initialized_notification = true
  ∧ dict_mem "id" initialized_notification = false
  ∧ (MCPSSE.handle_message jsonschema_message validate_command check_syntax
       execute supported_tools initialized_notification 50
       (MCPSSE.new_connection "c1" 40)).1 = Some answer
  ∧ MCPSSE.outbound_queue
      <$> MCPSSE.handler_handle_message jsonschema_message validate_command
            check_syntax execute supported_tools "c1" initialized_notification
            50 51 open_stream !! "c1"
    = Some [MCPSSE.OutResponse answer]
  ∧ MCPServer.mcp_sse_message jsonschema_message validate_command check_syntax
      execute supported_tools (MCPServer.JsonObject initialized_notification) 50
    = MCPServer.PostResponse answer
  ∧ MCPStdio.handle_message jsonschema_message validate_command check_syntax
      execute supported_tools initialized_notification 50 = None.
Proof.
  intros answer. split; [reflexivity |]. split; [reflexivity |].
  split; [reflexivity |]. split; [| split; reflexivity].
  unfold MCPSSE.handler_handle_message, open_stream.
  rewrite lookup_singleton_eq. simpl. by rewrite lookup_insert_eq.
Qed.

(** Beyond that input: the SSE gateway answers every message that has a
    method and no id, on the stream and on the POST endpoint alike. *)
Lemma every_notification_is_answered
    (jsonschema_message : dict → string)
    (validate_command check_syntax : string → outcome MCPSSE.Verdict)
    (execute : string → json → outcome Executor.ExecResult)
    (supported_tools : outcome json) (message_data : dict) (now : Z) :
  dict_mem "method" message_data = true →
  dict_mem "id" message_data = false →
  ∃ response,
    MCPSSE.handle_direct_message jsonschema_message validate_command
      check_syntax execute supported_tools message_data now = Some response
    ∧ MCPServer.mcp_sse_message jsonschema_message validate_command
        check_syntax execute supported_tools (MCPServer.JsonObject message_data)
        now = MCPServer.PostResponse response
    ∧ MCPStdio.handle_message jsonschema_message validate_command check_syntax
        execute supported_tools message_data now = None.
Proof.
  intros _ Hid.
  destruct (handle_message_always_answers jsonschema_message validate_command
              check_syntax execute supported_tools message_data now
              (MCPSSE.new_connection "temp" now)) as [response Hresponse].
  exists response. unfold MCPServer.mcp_sse_message, MCPStdio.handle_message,
    MCPSSE.handle_direct_message.
  by rewrite Hresponse, Hid.
Qed.

(* ===================================================================== *)
(** * Further properties of the task manager *)
(* ===================================================================== *)

(** X1.  [cancel_task] refuses an unknown id and a task that is already in a
    finished state: it returns false and leaves the manager exactly as it
    was. *)
Theorem cancel_task_refuses_finished
    (tid : string) (force : bool) (now : Z) (m : TaskManager.t) :
  match TaskManager.tasks m !! tid with
  | None => True
  | Some task => TaskManager.is_finished task = true
  end →
  TaskManager.cancel_task tid force now m = (false, m).
Proof.
  unfold TaskManager.cancel_task.
  destruct (TaskManager.tasks m !! tid) as [task|]; [| done].
  by intros ->.
Qed.

Lemma cancel_task_refuses_witness :
  TaskManager.cancel_task "t1" false 200 one_task_done = (false, one_task_done).
Proof. apply cancel_task_refuses_finished. reflexivity. Defined.

Lemma reaches_queue_nodup cfg hist m :
  reaches cfg hist m → NoDup (TaskManager.pending_queue m).
Proof.
  intros Hreach. induction Hreach
    as [| hist m ? ? ? ? ? ? tid now Hreach IH Hfresh | hist m _ IH
        | hist m tid force now _ IH
        | hist m tid status progress error result now _ IH
        | hist m tid now _ IH].
  - constructor.
  - pose proof (queue_inv_reaches _ _ _ Hreach) as Hinv.
    destruct (create_task_spec command args options priority user_id
                session_id tid now m (queue_inv_registered _ _ Hinv) Hfresh)
      as (task & l1 & l2 & Hq & _ & Hq' & _).
    rewrite Hq'. rewrite Hq in IH.
    assert (tid ∉ l1 ++ l2) as Hnotin.
    { rewrite <- Hq. intros Hin.
      apply (inv_queue_hist _ _ Hinv), (inv_hist_registered _ _ Hinv) in Hin.
      destruct Hin as [t Ht]. congruence. }
    apply NoDup_app in IH as (H1 & H12 & H2).
    apply not_elem_of_app in Hnotin as [Hn1 Hn2].
    apply NoDup_app. split; [done |]. split; [| by apply NoDup_cons].
    intros x Hx1 Hx2. apply elem_of_cons in Hx2 as [->|Hx2]; [done |].
    by eapply H12.
  - unfold TaskManager.get_next_task.
    destruct (TaskManager.pending_queue m) as [|next rest] eqn:Hq; simpl.
    + rewrite Hq. constructor.
    + by apply NoDup_cons in IH as [_ ?].
  - unfold TaskManager.cancel_task.
    destruct (TaskManager.tasks m !! tid) as [task|]; [| done].
    destruct (TaskManager.is_finished task); [done |]. simpl.
    rewrite update_task_status_queue. simpl.
    eapply sublist_NoDup; [exact IH | apply list_remove_first_sublist].
  - by rewrite update_task_status_queue.
  - unfold TaskManager.mark_task_running. by rewrite update_task_status_queue.
Qed.

Lemma filter_all {A} (P : A → Prop) `{!∀ x, Decision (P x)} (l : list A) :
  Forall P l → filter P l = l.
Proof.
  induction 1 as [|x l Hx _ IH]; [done |].
  by rewrite filter_cons_True, IH.
Qed.

Lemma list_remove_first_nodup x l :
  NoDup l → TaskManager.list_remove_first x l = filter (λ y, y ≠ x) l.
Proof.
  induction 1 as [|y l Hy Hl IH]; [done |]. simpl.
  destruct (String.eqb x y) eqn:Heq.
  - apply String.eqb_eq in Heq as ->.
    rewrite filter_cons_False by (intros Hne; by apply Hne).
    symmetry. apply filter_all. rewrite Forall_forall. by intros z Hz ->.
  - apply String.eqb_neq in Heq.
    rewrite filter_cons_True by done. by rewrite IH.
Qed.

(** X2.  Cancelling a task that is not finished, in any manager reached by the
    public operations: the call returns true, the task's status becomes
    CANCELLED, its id leaves the set of running tasks, and the pending
    queue is the old one without that id, the other entries keeping their
    order; so [get_next_task] never dispatches it afterwards. *)
Theorem cancel_task_dequeues
    (cfg : ExecutionConfig) (hist : list string) (m : TaskManager.t)
    (tid : string) (force : bool) (now : Z) (task : TaskManager.Task) :
  reaches cfg hist m →
  TaskManager.tasks m !! tid = Some task →
  TaskManager.is_finished task = false →
  let r := TaskManager.cancel_task tid force now m in
  r.1 = true
  ∧ TaskManager.status <$> TaskManager.tasks r.2 !! tid
    = Some TaskManager.CANCELLED
  ∧ TaskManager.pending_queue r.2
    = filter (λ i, i ≠ tid) (TaskManager.pending_queue m)
  ∧ (tid ∉ TaskManager.pending_queue r.2)
  ∧ (tid ∉ TaskManager.running_tasks r.2)
  ∧ (TaskManager.get_next_task r.2).1 ≠ Some tid.
Proof.
  intros Hreach Htask Hfin r. subst r. unfold TaskManager.cancel_task.
  rewrite Htask, Hfin. simpl.
  set (m1 := TaskManager.set_running _ _).
  assert (TaskManager.tasks m1 !! tid = Some task) as Htask1 by done.
  assert (TaskManager.pending_queue
            (TaskManager.update_task_status tid TaskManager.CANCELLED None None
               None now m1).2
          = filter (λ i, i ≠ tid) (TaskManager.pending_queue m)) as Hqueue.
  { rewrite update_task_status_queue. simpl.
    apply list_remove_first_nodup. by eapply reaches_queue_nodup. }
  assert (tid ∉ filter (λ i, i ≠ tid) (TaskManager.pending_queue m)) as Hnotin.
  { intros Hin. by apply list_elem_of_filter in Hin as [Hne _]. }
  split; [done |]. split.
  - rewrite (update_task_status_tasks _ _ _ _ _ _ _ _ Htask1).
    rewrite lookup_insert_eq. simpl. unfold updated_task.
    by repeat case_match.
  - split; [done |]. rewrite Hqueue. split; [done |]. split.
    + rewrite update_task_status_running. simpl.
      rewrite elem_of_difference, elem_of_singleton. by intros [_ Hne].
    + unfold TaskManager.get_next_task. rewrite Hqueue.
      destruct (filter _ _) as [|next rest] eqn:Hf; simpl; [done |].
      intros [= ->]. apply Hnotin. by left.
Qed.

Lemma cancel_task_dequeues_witness :
  TaskManager.pending_queue (TaskManager.cancel_task "c" false 20 four_tasks).2
  = filter (λ i, i ≠ "c") (TaskManager.pending_queue four_tasks).
Proof.
  assert (∃ task, TaskManager.tasks four_tasks !! "c" = Some task
                  ∧ TaskManager.is_finished task = false) as (task & Ht & Hf)
    by (eexists; split; reflexivity).
  apply (cancel_task_dequeues default_config ["a"; "b"; "c"; "d"] four_tasks
           "c" false 20 task four_tasks_reached Ht Hf).
Defined.

(** X3.  Once a task carries a completion time, no later status update moves
    that time or touches the counters, and the only events such an update
    can trigger are [task_started] and [task_progress]. *)
Theorem completion_is_recorded_once
    (tid : string) (status : TaskManager.TaskStatus) (progress : option Qc)
    (error : option string) (result : option Executor.ExecResult) (now : Z)
    (m : TaskManager.t) (task : TaskManager.Task) :
  TaskManager.tasks m !! tid = Some task →
  truthy_time (TaskManager.completed_at task) = true →
  let r := TaskManager.update_task_status tid status progress error result
             now m in
  TaskManager.completed_at <$> TaskManager.tasks r.2 !! tid
  = Some (TaskManager.completed_at task)
  ∧ TaskManager.stats r.2 = TaskManager.stats m
  ∧ ∃ events,
      TaskManager.triggered r.2 = TaskManager.triggered m ++ events
      ∧ Forall (λ ev, ev.1 = "task_started" ∨ ev.1 = "task_progress") events.
Proof.
  intros Htask Hdone r. subst r. split.
  - rewrite (update_task_status_tasks _ _ _ _ _ _ _ _ Htask).
    rewrite lookup_insert_eq. simpl. f_equal. unfold updated_task.
    unfold TaskManager.is_finished. simpl. rewrite Hdone.
    rewrite andb_false_r. by case_match.
  - unfold TaskManager.update_task_status. rewrite Htask.
    unfold TaskManager.is_finished. simpl. rewrite Hdone, andb_false_r.
    destruct (decide (status = TaskManager.RUNNING
                      ∧ TaskManager.status task = TaskManager.PENDING));
      destruct progress; simpl; (split; [done |]).
    + exists [("task_started", TaskManager.task_id task);
              ("task_progress", TaskManager.task_id task)].
      rewrite <- app_assoc. split; [done |].
      constructor; [by left |]. constructor; [by right | constructor].
    + exists [("task_started", TaskManager.task_id task)].
      split; [done |]. constructor; [by left | constructor].
    + exists [("task_progress", TaskManager.task_id task)].
      split; [done |]. constructor; [by right | constructor].
    + exists []. split; [by rewrite app_nil_r | constructor].
Qed.

Lemma completion_is_recorded_once_witness :
  TaskManager.completed_at <$>
    TaskManager.tasks
      (TaskManager.update_task_status "t1" TaskManager.FAILED None None None
         500 one_task_done).2 !! "t1"
  = Some (Some 102).
Proof.
  assert (∃ task, TaskManager.tasks one_task_done !! "t1" = Some task
                  ∧ TaskManager.completed_at task = Some 102
                  ∧ truthy_time (TaskManager.completed_at task) = true)
    as (task & Ht & Hc & Hd) by (eexists; repeat split; reflexivity).
  rewrite <- Hc.
  apply (completion_is_recorded_once "t1" TaskManager.FAILED None None None 500
           one_task_done task Ht Hd).
Defined.

Lemma updated_task_id task status progress error result now :
  TaskManager.task_id (updated_task task status progress error result now)
  = TaskManager.task_id task.
Proof. unfold updated_task. by repeat case_match. Qed.

Lemma update_task_status_total tid status progress error result now m :
  TaskManager.total_tasks
    (TaskManager.stats
       (TaskManager.update_task_status tid status progress error result now m).2)
  = TaskManager.total_tasks (TaskManager.stats m).
Proof.
  unfold TaskManager.update_task_status.
  destruct (TaskManager.tasks m !! tid) as [task|]; [| done].
  repeat case_match; simplify_eq; try destruct progress; done.
Qed.

Lemma create_task_registers command args options priority user_id session_id
    tid now m :
  Forall (λ x, is_Some (TaskManager.tasks m !! x)) (TaskManager.pending_queue m) →
  TaskManager.tasks m !! tid = None →
  let r := TaskManager.create_task command args options priority user_id
             session_id tid now m in
  TaskManager.stats r.2 = TaskManager.bump_created (TaskManager.stats m)
  ∧ TaskManager.triggered r.2 = TaskManager.triggered m ++ [("task_created", tid)]
  ∧ ∃ task, TaskManager.tasks r.2 = <[tid := task]> (TaskManager.tasks m)
            ∧ TaskManager.task_id task = tid
            ∧ TaskManager.command task = command
            ∧ TaskManager.args task = default [] args
            ∧ TaskManager.priority task = priority
            ∧ TaskManager.status task = TaskManager.PENDING
            ∧ TaskManager.created_at task = now
            ∧ TaskManager.started_at task = None
            ∧ TaskManager.completed_at task = None.
Proof.
  intros Hreg Hfresh r. subst r. unfold TaskManager.create_task.
  set (task := {| TaskManager.task_id := tid |}).
  assert (Forall (λ x, is_Some (<[tid := task]> (TaskManager.tasks m) !! x))
            (TaskManager.pending_queue m)) as Hreg'.
  { rewrite Forall_forall in *. intros x Hx.
    destruct (decide (x = tid)) as [->|Hne];
      [rewrite lookup_insert_eq; by eexists |].
    rewrite lookup_insert_ne by done. by apply Hreg. }
  destruct (insert_index_split _ priority _ 0%nat Hreg')
    as (l1 & l2 & Hq & Hidx & _).
  unfold TaskManager._add_to_queue. simpl. rewrite lookup_insert_eq. simpl.
  rewrite Hidx. simpl. split; [done |]. split; [done |].
  exists task. by repeat split.
Qed.

Lemma update_task_status_registry tid status progress error result now m :
  registry_kept m
    (TaskManager.update_task_status tid status progress error result now m).2.
Proof.
  unfold registry_kept. rewrite update_task_status_total, update_task_status_config.
  destruct (TaskManager.tasks m !! tid) as [task|] eqn:Htask.
  - rewrite (update_task_status_tasks _ _ _ _ _ _ _ _ Htask).
    split; [| split; [| split; [done | split; [done |]]]].
    + intros i. destruct (decide (i = tid)) as [->|Hne].
      * rewrite lookup_insert_eq, Htask. split; by eexists.
      * by rewrite lookup_insert_ne.
    + rewrite map_size_insert_Some; [done | by eexists].
    + intros Hkey i t. destruct (decide (i = tid)) as [->|Hne].
      * rewrite lookup_insert_eq. intros [= <-].
        rewrite updated_task_id. by apply Hkey.
      * rewrite lookup_insert_ne by done. apply Hkey.
  - unfold TaskManager.update_task_status. rewrite Htask. simpl.
    by repeat split.
Qed.

(** X4.  In every manager reached by the public operations, the registry
    holds exactly the submitted ids, each under its own id, no task is
    ever dropped, and [total_tasks] counts the submissions. *)
Theorem registry_counts_submissions
    (cfg : ExecutionConfig) (hist : list string) (m : TaskManager.t) :
  reaches cfg hist m →
  (∀ i, i ∈ hist ↔ is_Some (TaskManager.tasks m !! i))
  ∧ size (TaskManager.tasks m) = length hist
  ∧ TaskManager.total_tasks (TaskManager.stats m) = Z.of_nat (length hist)
  ∧ (TaskSweep.total_stored_tasks (TaskSweep.get_statistics m)
     = TaskManager.total_tasks (TaskManager.stats m))
  ∧ TaskManager.config m = cfg
  ∧ (∀ i t, TaskManager.tasks m !! i = Some t → TaskManager.task_id t = i).
Proof.
  intros Hreach.
  enough ((∀ i, i ∈ hist ↔ is_Some (TaskManager.tasks m !! i))
          ∧ size (TaskManager.tasks m) = length hist
          ∧ TaskManager.total_tasks (TaskManager.stats m) = Z.of_nat (length hist)
          ∧ TaskManager.config m = cfg
          ∧ (∀ i t, TaskManager.tasks m !! i = Some t → TaskManager.task_id t = i))
    as (H1 & H2 & H3 & H4 & H5).
  { repeat split; try done; try apply H1. simpl. by rewrite H2, H3. }
  assert (∀ hist m m',
            ((∀ i, i ∈ hist ↔ is_Some (TaskManager.tasks m !! i))
             ∧ size (TaskManager.tasks m) = length hist
             ∧ TaskManager.total_tasks (TaskManager.stats m) = Z.of_nat (length hist)
             ∧ TaskManager.config m = cfg
             ∧ (∀ i t, TaskManager.tasks m !! i = Some t → TaskManager.task_id t = i)) →
            registry_kept m m' →
            ((∀ i, i ∈ hist ↔ is_Some (TaskManager.tasks m' !! i))
             ∧ size (TaskManager.tasks m') = length hist
             ∧ TaskManager.total_tasks (TaskManager.stats m') = Z.of_nat (length hist)
             ∧ TaskManager.config m' = cfg
             ∧ (∀ i t, TaskManager.tasks m' !! i = Some t → TaskManager.task_id t = i)))
    as Hkept.
  { clear. intros hist m m' (H1 & H2 & H3 & H4 & H5) (K1 & K2 & K3 & K4 & K5).
    split; [intros i; by rewrite K1 |]. split; [congruence |].
    split; [congruence |]. split; [congruence |]. by apply K5. }
  induction Hreach
    as [| hist m ? ? ? ? ? ? tid now Hreach IH Hfresh | hist m _ IH
        | hist m tid force now _ IH
        | hist m tid status progress error result now _ IH
        | hist m tid now _ IH].
  - simpl. split; [| done]. intros i. rewrite lookup_empty, elem_of_nil.
    split; [done | by intros [? ?]].
  - destruct IH as (H1 & H2 & H3 & H4 & H5).
    pose proof (queue_inv_reaches _ _ _ Hreach) as Hinv.
    destruct (create_task_spec command args options priority user_id
                session_id tid now m (queue_inv_registered _ _ Hinv) Hfresh)
      as (task0 & l1 & l2 & _ & _ & _ & _ & _ & _ & _ & Hcfg & _).
    destruct (create_task_registers command args options priority user_id
                session_id tid now m (queue_inv_registered _ _ Hinv) Hfresh)
      as (Hstats & _ & task & Hts & Hid & _).
    rewrite Hts, Hcfg, length_app. simpl.
    split; [| split; [| split; [| split; [done |]]]].
    + intros i. rewrite elem_of_app, list_elem_of_singleton.
      destruct (decide (i = tid)) as [->|Hne].
      * rewrite lookup_insert_eq. split; [by eexists | by right].
      * rewrite lookup_insert_ne by done. rewrite <- H1. tauto.
    + rewrite map_size_insert_None by done. lia.
    + rewrite Hstats. simpl. lia.
    + intros i t. destruct (decide (i = tid)) as [->|Hne].
      * rewrite lookup_insert_eq. by intros [= <-].
      * rewrite lookup_insert_ne by done. apply H5.
  - eapply Hkept; [exact IH |]. unfold TaskManager.get_next_task.
    destruct (TaskManager.pending_queue m); simpl; by repeat split.
  - eapply Hkept; [exact IH |]. unfold TaskManager.cancel_task.
    destruct (TaskManager.tasks m !! tid) as [task|]; [| by repeat split].
    destruct (TaskManager.is_finished task); [by repeat split |]. simpl.
    exact (update_task_status_registry tid TaskManager.CANCELLED None None None
             now (TaskManager.set_running
                    (TaskManager.set_queue m
                       (TaskManager.list_remove_first tid
                          (TaskManager.pending_queue m)))
                    (TaskManager.running_tasks
                       (TaskManager.set_queue m
                          (TaskManager.list_remove_first tid
                             (TaskManager.pending_queue m))) ∖ {[tid]}))).
  - eapply Hkept; [exact IH |]. apply update_task_status_registry.
  - eapply Hkept; [exact IH |]. unfold TaskManager.mark_task_running.
    exact (update_task_status_registry tid TaskManager.RUNNING None None None
             now (TaskManager.set_running m
                    ({[tid]} ∪ TaskManager.running_tasks m))).
Qed.

Lemma registry_counts_witness :
  size (TaskManager.tasks four_tasks) = 4%nat
  ∧ TaskManager.total_tasks (TaskManager.stats four_tasks) = 4.
Proof.
  destruct (registry_counts_submissions default_config ["a"; "b"; "c"; "d"]
              four_tasks four_tasks_reached) as (_ & Hsize & Htotal & _).
  split; [exact Hsize | exact Htotal].
Defined.

Lemma updated_task_same task status progress error result now :
  same_submission task (updated_task task status progress error result now).
Proof.
  unfold updated_task, same_submission.
  destruct (decide _); [done |]. by destruct (_ && _).
Qed.

Lemma same_submission_refl t : same_submission t t.
Proof. by repeat split. Qed.

Lemma update_task_status_same tid status progress error result now m i t :
  TaskManager.tasks m !! i = Some t →
  ∃ t', TaskManager.tasks
          (TaskManager.update_task_status tid status progress error result now m).2
        !! i = Some t'
        ∧ same_submission t t'.
Proof.
  intros Hi. destruct (TaskManager.tasks m !! tid) as [task|] eqn:Htask.
  - rewrite (update_task_status_tasks _ _ _ _ _ _ _ _ Htask).
    destruct (decide (i = tid)) as [->|Hne].
    + rewrite lookup_insert_eq. eexists. split; [done |].
      assert (task = t) as -> by congruence. apply updated_task_same.
    + rewrite lookup_insert_ne by done. exists t. split; [done |].
      apply same_submission_refl.
  - unfold TaskManager.update_task_status. rewrite Htask. simpl.
    exists t. split; [done | apply same_submission_refl].
Qed.

(** X5.  No status update, cancellation or dispatch removes a task or changes
    its id, command, arguments, options, priority, creation time,
    timeout, retry settings or owner; a submission under a new id leaves
    every registered task as it is. *)
Theorem operations_keep_submission_data
    (m : TaskManager.t) (i : string) (t : TaskManager.Task) :
  TaskManager.tasks m !! i = Some t →
  (∀ tid status progress error result now,
     ∃ t', TaskManager.tasks
             (TaskManager.update_task_status tid status progress error result
                now m).2 !! i = Some t'
           ∧ same_submission t t')
  ∧ (∀ tid force now,
       ∃ t', TaskManager.tasks (TaskManager.cancel_task tid force now m).2 !! i
             = Some t'
             ∧ same_submission t t')
  ∧ (∀ tid now,
       ∃ t', TaskManager.tasks (TaskManager.mark_task_running tid now m) !! i
             = Some t'
             ∧ same_submission t t')
  ∧ TaskManager.tasks (TaskManager.get_next_task m).2 !! i = Some t
  ∧ (∀ command args options priority user_id session_id tid now,
       tid ≠ i →
       TaskManager.tasks
         (TaskManager.create_task command args options priority user_id
            session_id tid now m).2 !! i = Some t).
Proof.
  intros Hi. split; [| split; [| split; [| split]]].
  - intros. by apply update_task_status_same.
  - intros tid force now. unfold TaskManager.cancel_task.
    destruct (TaskManager.tasks m !! tid) as [task|];
      [| exists t; split; [done | apply same_submission_refl]].
    destruct (TaskManager.is_finished task);
      [exists t; split; [done | apply same_submission_refl] |].
    simpl. by apply update_task_status_same.
  - intros tid now. unfold TaskManager.mark_task_running.
    by apply update_task_status_same.
  - unfold TaskManager.get_next_task.
    by destruct (TaskManager.pending_queue m).
  - intros command args options priority user_id session_id tid now Hne.
    unfold TaskManager.create_task.
    destruct (TaskManager._add_to_queue _ _) as [m'|e] eqn:Hadd; simpl.
    + unfold TaskManager._add_to_queue in Hadd. simpl in Hadd.
      rewrite lookup_insert_eq in Hadd. simpl in Hadd.
      destruct (TaskManager.insert_index _ _ _ _); simpl in Hadd; [| done].
      injection Hadd as <-. simpl. by rewrite lookup_insert_ne.
    + by rewrite lookup_insert_ne.
Qed.

Lemma operations_keep_witness :
  ∃ t, TaskManager.tasks four_tasks !! "a" = Some t
       ∧ TaskManager.tasks (TaskManager.get_next_task four_tasks).2 !! "a"
         = Some t.
Proof.
  eexists. split; [reflexivity |].
  eapply (proj1 (proj2 (proj2 (proj2
            (operations_keep_submission_data four_tasks "a" _ eq_refl))))).
Defined.

Lemma tasks_to_remove_spec now m i :
  i ∈ TaskSweep.tasks_to_remove now m
  ↔ ∃ t, TaskManager.tasks m !! i = Some t ∧ TaskSweep.expired now t = true.
Proof.
  unfold TaskSweep.tasks_to_remove. rewrite list_elem_of_fmap. split.
  - intros ([j t] & -> & Hin). apply list_elem_of_filter in Hin as [Hexp Hin].
    apply elem_of_map_to_list in Hin. exists t. split; [done |].
    by apply Is_true_true.
  - intros (t & Ht & Hexp). exists (i, t). split; [done |].
    apply list_elem_of_filter. split; [by apply Is_true_true |].
    by apply elem_of_map_to_list.
Qed.

(** X6.  One pass of the sweep deletes exactly the tasks that are finished and
    whose (non-zero) completion time lies more than 86400 seconds back;
    a task that is not finished is never deleted.  The pending queue, the
    running set and the counters are not touched, so the queue can keep an
    id whose task is gone. *)
Theorem sweep_removes_only_expired (now : Z) (m : TaskManager.t) :
  let m' := TaskSweep._cleanup_task now m in
  (∀ i, TaskManager.tasks m' !! i
        = match TaskManager.tasks m !! i with
          | Some t => if TaskSweep.expired now t then None else Some t
          | None => None
          end)
  ∧ (∀ i t, TaskManager.tasks m !! i = Some t →
            TaskManager.is_finished t = false →
            TaskManager.tasks m' !! i = Some t)
  ∧ (∀ i t, TaskManager.tasks m !! i = Some t →
            TaskManager.completed_at t = None →
            TaskManager.tasks m' !! i = Some t)
  ∧ TaskManager.pending_queue m' = TaskManager.pending_queue m
  ∧ TaskManager.running_tasks m' = TaskManager.running_tasks m
  ∧ TaskManager.stats m' = TaskManager.stats m.
Proof.
  intros m'.
  assert (∀ i, TaskManager.tasks m' !! i
               = match TaskManager.tasks m !! i with
                 | Some t => if TaskSweep.expired now t then None else Some t
                 | None => None
                 end) as Hlook.
  { intros i. subst m'. unfold TaskSweep._cleanup_task. simpl.
    destruct (decide (i ∈ TaskSweep.tasks_to_remove now m)) as [Hin|Hnotin].
    - rewrite lookup_foldr_delete by done.
      apply tasks_to_remove_spec in Hin as (t & -> & ->). done.
    - rewrite lookup_foldr_delete_not_elem_of by done.
      destruct (TaskManager.tasks m !! i) as [t|] eqn:Ht; [| done].
      destruct (TaskSweep.expired now t) eqn:Hexp; [| done].
      exfalso. apply Hnotin, tasks_to_remove_spec. by exists t. }
  split; [done |]. split; [| split; [| done]].
  - intros i t Ht Hfin. rewrite Hlook, Ht. unfold TaskSweep.expired.
    by rewrite Hfin.
  - intros i t Ht Hnone. rewrite Hlook, Ht. unfold TaskSweep.expired.
    rewrite Hnone. simpl. by rewrite andb_false_r.
Qed.

(** X7.  When the entry at the head of the pending queue names a task that is
    no longer registered, [create_task] raises [KeyError] for that entry:
    the new task is left in the registry but is neither queued nor
    counted, and no event is triggered. *)
Theorem create_task_raises_on_purged_entry
    (command : string) (args : option (list string)) (options : option dict)
    (priority : TaskManager.TaskPriority) (user_id session_id : option json)
    (tid : string) (now : Z) (m : TaskManager.t) (x : string)
    (rest : list string) :
  TaskManager.pending_queue m = x :: rest →
  TaskManager.tasks m !! x = None →
  x ≠ tid →
  let r := TaskManager.create_task command args options priority user_id
             session_id tid now m in
  r.1 = Raise (KeyError x)
  ∧ TaskManager.pending_queue r.2 = TaskManager.pending_queue m
  ∧ is_Some (TaskManager.tasks r.2 !! tid)
  ∧ TaskManager.stats r.2 = TaskManager.stats m
  ∧ TaskManager.triggered r.2 = TaskManager.triggered m.
Proof.
  intros Hq Hx Hne r. subst r. unfold TaskManager.create_task,
    TaskManager._add_to_queue. simpl. rewrite lookup_insert_eq, Hq. simpl.
  rewrite lookup_insert_ne by done. rewrite Hx. simpl.
  repeat split; try done. rewrite lookup_insert_eq. by eexists.
Qed.

Lemma create_task_raises_witness :
  (TaskManager.create_task "echo again" None None TaskManager.NORMAL None None
     "t2" 90001 (TaskSweep._cleanup_task 90000 one_task_done)).1
  = Raise (KeyError "t1").
Proof.
  apply (create_task_raises_on_purged_entry "echo again" None None
           TaskManager.NORMAL None None "t2" 90001
           (TaskSweep._cleanup_task 90000 one_task_done) "t1" []).
  - reflexivity.
  - vm_compute. reflexivity.
  - discriminate.
Defined.

Lemma sweep_removes_witness :
  TaskManager.tasks (TaskSweep._cleanup_task 90000 one_task_done) !! "t1" = None
  ∧ TaskManager.pending_queue (TaskSweep._cleanup_task 90000 one_task_done)
    = ["t1"].
Proof.
  destruct (sweep_removes_only_expired 90000 one_task_done)
    as (Hlook & _ & _ & Hq & _).
  split; [rewrite Hlook; reflexivity | rewrite Hq; reflexivity].
Defined.

(* ===================================================================== *)
(** * Further properties of the executor *)
(* ===================================================================== *)

(** X8.  A run reports success exactly when the child was started, ended by
    itself within the timeout and returned the exit code 0; the result
    then carries the child's own output, no error text, and the only call
    made on the child is [communicate]. *)
Theorem success_means_clean_exit
    (os : Executor.OS) (config : ExecutionConfig)
    (context : Executor.ExecutionContext) (t_end t_res : Z) :
  let spawned :=
    Executor._parse_command os (Executor.command context)
      ≫= (λ parts, Executor.popen os parts
                      (Executor._prepare_environment os config)
                      (working_directory config)) in
  let run := Executor._execute_command os config context t_end t_res in
  Executor.r_success run.1 = true
  ↔ ∃ p out err,
      spawned = Return p
      ∧ Executor.communicate p (Executor.timeout context)
        = Executor.CommDone out err 0
      ∧ Executor.r_stdout run.1 = out
      ∧ Executor.r_stderr run.1 = err
      ∧ Executor.r_return_code run.1 = Some 0
      ∧ Executor.r_error run.1 = None
      ∧ run.2 = [Executor.Communicate (Executor.timeout context)].
Proof.
  intros spawned run. subst run spawned. unfold Executor._execute_command.
  destruct (Executor._parse_command os (Executor.command context) ≫= _)
    as [p|e]; simpl.
  2: { split; [done |]. by intros (p & out & err & [=] & _). }
  destruct (Executor.communicate p (Executor.timeout context))
    as [out err rc| |e] eqn:Hcomm; simpl.
  - rewrite bool_decide_eq_true. split.
    + intros [= ->]. by exists p, out, err.
    + intros (p' & out' & err' & [= <-] & Hc & _).
      rewrite Hcomm in Hc. by injection Hc as _ _ ->.
  - split; [done |].
    intros (p' & out' & err' & [= <-] & Hc & _). congruence.
  - split; [done |].
    intros (p' & out' & err' & [= <-] & Hc & _). congruence.
Qed.




(** X10.  A command accepted by [_is_valid_command] names an executable file:
    the command itself when it is an absolute path, else its join with a
    non-empty entry of the server's [PATH].  When [PATH] is unset or
    empty no relative command is accepted, and an absolute command is
    judged without looking at the environment. *)
Theorem valid_command_is_executable_file
    (fs : ExecutorControl.FS) (environ : gmap string string) (cmd : string) :
  (ExecutorControl._is_valid_command fs environ cmd = true →
   ∃ path,
     ExecutorControl.isfile fs path = true
     ∧ ExecutorControl.access_x fs path = true
     ∧ (if ExecutorControl.isabs cmd then path = cmd
        else ∃ dir, dir ≠ ""
                    ∧ dir ∈ ExecutorControl.split_on ":"%char
                              (default "" (environ !! "PATH"))
                    ∧ path = ExecutorControl.path_join dir cmd))
  ∧ (ExecutorControl.isabs cmd = false →
     default "" (environ !! "PATH") = "" →
     ExecutorControl._is_valid_command fs environ cmd = false)
  ∧ (ExecutorControl.isabs cmd = true →
     ∀ environ', ExecutorControl._is_valid_command fs environ' cmd
                 = ExecutorControl._is_valid_command fs environ cmd).
Proof.
  unfold ExecutorControl._is_valid_command. split; [| split].
  - destruct (ExecutorControl.isabs cmd).
    + intros [Hf Hx]%andb_true_iff. by exists cmd.
    + intros (dir & Hin & Hok)%existsb_exists.
      apply andb_true_iff in Hok as [Hok Hx].
      apply andb_true_iff in Hok as [Hne Hf].
      exists (ExecutorControl.path_join dir cmd). split; [done |].
      split; [done |]. exists dir. split.
      * intros ->. done.
      * split; [by apply list_elem_of_In | done].
  - intros -> ->. done.
  - by intros ->.
Qed.

Lemma valid_command_witness :
  ExecutorControl._is_valid_command
    {| ExecutorControl.isfile := λ _, true;
       ExecutorControl.access_x := λ _, true |} ∅ "nmap" = false.
Proof.
  apply (valid_command_is_executable_file
           {| ExecutorControl.isfile := λ _, true;
              ExecutorControl.access_x := λ _, true |} ∅ "nmap");
    reflexivity.
Defined.

(** X11.  Cancelling through the executor sends at most one signal and never
    waits or escalates: for an unknown task it answers false and does
    nothing; for a child that is still running it marks the context as
    cancelled and sends [kill()] when [force] is set and [terminate()]
    otherwise, answering false only if that call raises; for a context
    without a child, or whose child has exited, it answers true and sends
    nothing.  Other contexts are never touched. *)
Theorem executor_cancel_sends_one_signal
    (task_id : string) (force : bool)
    (active_contexts : gmap string ExecutorControl.Run) :
  let r := ExecutorControl.cancel_task task_id force active_contexts in
  (active_contexts !! task_id = None → r = (false, [], active_contexts))
  ∧ (∀ t, Executor.Wait t ∉ r.1.2)
  ∧ (Executor.Kill ∈ r.1.2 → force = true ∧ (Executor.Terminate ∉ r.1.2))
  ∧ (Executor.Terminate ∈ r.1.2 → force = false)
  ∧ (∀ run p,
       active_contexts !! task_id = Some run →
       ExecutorControl.process run = Some p →
       Executor.poll_running p = true →
       r.1.2 = [Executor.Poll;
                if force then Executor.Kill else Executor.Terminate]
       ∧ (Executor.cancelled ∘ ExecutorControl.context) <$> r.2 !! task_id
         = Some true
       ∧ r.1.1 = match (if force then Executor.kill p else Executor.terminate p)
                 with None => true | Some _ => false end)
  ∧ (∀ run,
       active_contexts !! task_id = Some run →
       match ExecutorControl.process run with
       | None => True
       | Some p => Executor.poll_running p = false
       end →
       r.1.1 = true ∧ r.2 = active_contexts
       ∧ (Executor.Kill ∉ r.1.2) ∧ (Executor.Terminate ∉ r.1.2))
  ∧ (∀ other, other ≠ task_id → r.2 !! other = active_contexts !! other).
Proof.
  intros r. subst r. unfold ExecutorControl.cancel_task.
  destruct (active_contexts !! task_id) as [run|] eqn:Hrun; simpl;
    [destruct (ExecutorControl.process run) as [p|] eqn:Hproc; simpl;
       [destruct (Executor.poll_running p) eqn:Hpoll; simpl;
          [destruct force; simpl |] |] |];
    repeat split; intros; simplify_eq/=;
    repeat match goal with
           | H : context [ExecutorControl.process _] |- _ =>
               rewrite Hproc in H; simpl in H
           end;
    try done; try congruence;
    try (by rewrite lookup_insert_eq);
    try (by rewrite lookup_insert_ne);
    rewrite ?elem_of_cons, ?elem_of_nil in *; intuition discriminate.
Qed.

(** X12.  [cleanup_completed_tasks] drops exactly the contexts whose child was
    started and has exited.  A context whose child is still running
    stays, and so does one whose child was never started. *)
Theorem cleanup_drops_only_exited_children
    (active_contexts : gmap string ExecutorControl.Run) (task_id : string) :
  ExecutorControl.cleanup_completed_tasks active_contexts !! task_id
  = match active_contexts !! task_id with
    | Some run =>
        match ExecutorControl.process run with
        | Some p => if Executor.poll_running p then Some run else None
        | None => Some run
        end
    | None => None
    end.
Proof.
  unfold ExecutorControl.cleanup_completed_tasks.
  set (gone := (filter _ (map_to_list active_contexts)).*1).
  assert (∀ i, i ∈ gone
               ↔ ∃ run, active_contexts !! i = Some run
                        ∧ ExecutorControl.completed run = true) as Hgone.
  { intros i. subst gone. rewrite list_elem_of_fmap. split.
    - intros ([j run] & -> & Hin). apply list_elem_of_filter in Hin as [Hc Hin].
      apply elem_of_map_to_list in Hin. exists run. split; [done |].
      by apply Is_true_true.
    - intros (run & Hrun & Hc). exists (i, run). split; [done |].
      apply list_elem_of_filter. split; [by apply Is_true_true |].
      by apply elem_of_map_to_list. }
  clearbody gone.
  destruct (decide (task_id ∈ gone)) as [Hin|Hnotin].
  - rewrite lookup_foldr_delete by done.
    apply Hgone in Hin as (run & -> & Hc). unfold ExecutorControl.completed in Hc.
    destruct (ExecutorControl.process run) as [p|]; [| done].
    by destruct (Executor.poll_running p).
  - rewrite lookup_foldr_delete_not_elem_of by done.
    destruct (active_contexts !! task_id) as [run|] eqn:Hrun; [| done].
    destruct (ExecutorControl.process run) as [p|] eqn:Hp; [| done].
    destruct (Executor.poll_running p) eqn:Hpoll; [done |].
    exfalso. apply Hnotin, Hgone. exists run. split; [done |].
    unfold ExecutorControl.completed. by rewrite Hp, Hpoll.
Qed.

(* ===================================================================== *)
(** * Further properties of the event bus *)
(* ===================================================================== *)

Lemma subscribe_fold_subscriptions types c :
  SSE.subscriptions (foldl (λ c ty, SSE.subscribe ty c) c types)
  = list_to_set types ∪ SSE.subscriptions c.
Proof.
  revert c. induction types as [|ty types IH]; intros c; simpl.
  - by rewrite (left_id_L ∅ (∪)).
  - rewrite IH. simpl. set_solver.
Qed.

Lemma subscribe_fold_fields types c :
  SSE.active (foldl (λ c ty, SSE.subscribe ty c) c types) = SSE.active c
  ∧ SSE.last_ping (foldl (λ c ty, SSE.subscribe ty c) c types) = SSE.last_ping c.
Proof.
  revert c. induction types as [|ty types IH]; intros c; [done |].
  simpl. by destruct (IH (SSE.subscribe ty c)) as [-> ->].
Qed.

Lemma create_connection_fields
    (event_types : option (list string)) (cid : string) (now : Z) (h : SSE.t)
    (event_type : string) :
  ∃ c,
    SSE.connections (SSE.create_connection event_types cid now h).2 !! cid
    = Some c
    ∧ SSE.connection_id c = cid
    ∧ SSE.active c = true
    ∧ SSE.last_ping c = now
    ∧ SSE.queue c = SSE.Queue_new
    ∧ (SSE.is_subscribed event_type c = true
       ↔ match event_types with
         | Some ((_ :: _) as types) => event_type ∈ types ∨ "*" ∈ types
         | _ => True
         end).
Proof.
  simpl. rewrite lookup_insert_eq. eexists. split; [done |].
  destruct event_types as [[|ty types]|].
  - repeat split; try done. intros _. unfold SSE.is_subscribed. simpl.
    apply orb_true_iff. right. apply bool_decide_eq_true. set_solver.
  - destruct (subscribe_fold_queue (ty :: types) (SSE.new_connection cid now))
      as [Hq Hid].
    destruct (subscribe_fold_fields (ty :: types) (SSE.new_connection cid now))
      as [Hact Hping].
    split; [done |]. split; [done |]. split; [done |]. split; [done |].
    unfold SSE.is_subscribed.
    rewrite (subscribe_fold_subscriptions (ty :: types)).
    rewrite orb_true_iff, !bool_decide_eq_true. simpl.
    rewrite !elem_of_union, !elem_of_list_to_set. set_solver.
  - repeat split; try done. intros _. unfold SSE.is_subscribed. simpl.
    apply orb_true_iff. right. apply bool_decide_eq_true. set_solver.
Qed.

(** X13.  A connection created without event types, or with an empty list of
    them, is subscribed to every event type; one created with a list is
    subscribed to the listed types, and to every type when the list holds
    the wildcard.  The new connection is active, keyed by its id, pinged
    at its creation time, and its queue is empty and unbounded. *)
Theorem new_connection_subscriptions
    (event_types : option (list string)) (cid : string) (now : Z) (h : SSE.t)
    (event_type : string) :
  ∃ c,
    SSE.connections (SSE.create_connection event_types cid now h).2 !! cid
    = Some c
    ∧ SSE.connection_id c = cid
    ∧ SSE.active c = true
    ∧ SSE.last_ping c = now
    ∧ SSE.queue c = SSE.Queue_new
    ∧ (SSE.is_subscribed event_type c = true
       ↔ match event_types with
         | Some ((_ :: _) as types) => event_type ∈ types ∨ "*" ∈ types
         | _ => True
         end).
Proof. apply create_connection_fields. Qed.

Lemma close_connection_lookup j h i :
  SSE.connections (SSE.close_connection j h) !! i
  = if decide (i = j) then None else SSE.connections h !! i.
Proof.
  unfold SSE.close_connection.
  destruct (SSE.connections h !! j) as [c|] eqn:Hj; simpl.
  - rewrite lookup_delete. by repeat case_decide.
  - case_decide; [by subst | done].
Qed.

(** X14.  After [close_connection] the connection is gone from the registry
    and is selected by no broadcast, whether addressed to it or to the
    subscribers of an event; the other connections are untouched.
    Closing an unknown connection changes nothing, so closing twice is
    closing once. *)
Theorem closed_connection_gets_nothing (cid : string) (h : SSE.t) :
  let h' := SSE.close_connection cid h in
  SSE.connections h' !! cid = None
  ∧ (∀ event_type targets, cid ∉ SSE.connections_to_send event_type targets h')
  ∧ (∀ i, i ≠ cid → SSE.connections h' !! i = SSE.connections h !! i)
  ∧ (SSE.connections h !! cid = None → h' = h)
  ∧ SSE.close_connection cid h' = h'.
Proof.
  intros h'.
  assert (SSE.connections h' !! cid = None) as Hgone.
  { subst h'. rewrite close_connection_lookup. by case_decide. }
  split; [done |]. split; [| split; [| split]].
  - intros event_type targets Hin. unfold SSE.connections_to_send in Hin.
    destruct targets as [[|t ts]|].
    + apply list_elem_of_filter in Hin as [Hsub _].
      unfold SSE.subscribed_in in Hsub. by rewrite Hgone in Hsub.
    + apply list_elem_of_filter in Hin as [[c Hc] _]. congruence.
    + apply list_elem_of_filter in Hin as [Hsub _].
      unfold SSE.subscribed_in in Hsub. by rewrite Hgone in Hsub.
  - intros i Hne. subst h'. rewrite close_connection_lookup. by case_decide.
  - intros Hnone. subst h'. unfold SSE.close_connection. by rewrite Hnone.
  - unfold SSE.close_connection at 1. by rewrite Hgone.
Qed.




Lemma foldl_close_lookup l h i :
  SSE.connections (foldl (λ h j, SSE.close_connection j h) h l) !! i
  = if decide (i ∈ l) then None else SSE.connections h !! i.
Proof.
  revert h. induction l as [|j l IH]; intros h.
  - destruct (decide (i ∈ [])) as [Hin|_]; [by apply elem_of_nil in Hin | done].
  - change (foldl _ h (j :: l))
      with (foldl (λ h j, SSE.close_connection j h) (SSE.close_connection j h) l).
    rewrite IH, close_connection_lookup.
    destruct (decide (i ∈ l)) as [Hl|Hl].
    + rewrite decide_True by by right. done.
    + destruct (decide (i = j)) as [->|Hne].
      * rewrite decide_True by by left. done.
      * rewrite decide_False; [done |].
        intros [?|?]%elem_of_cons; done.
Qed.

Lemma connections_to_remove_spec now h i :
  ordered_keys h →
  i ∈ SSEStream.connections_to_remove now h
  ↔ ∃ c, SSE.connections h !! i = Some c
         ∧ (300 < now - SSE.last_ping c ∨ SSE.active c = false).
Proof.
  intros Hkeys. unfold SSEStream.connections_to_remove.
  rewrite list_elem_of_In, in_flat_map. split.
  - intros (j & _ & Hin). apply list_elem_of_In in Hin.
    destruct (SSE.connections h !! j) as [c|] eqn:Hj;
      [| by apply elem_of_nil in Hin].
    apply elem_of_app in Hin as [Hin|Hin].
    + destruct (300 <? now - SSE.last_ping c) eqn:Hst;
        [| by apply elem_of_nil in Hin].
      apply list_elem_of_singleton in Hin as ->. exists c. split; [done |].
      left. by apply Z.ltb_lt.
    + destruct (SSE.active c) eqn:Hact; simpl in Hin;
        [by apply elem_of_nil in Hin |].
      apply list_elem_of_singleton in Hin as ->. exists c. split; [done |].
      by right.
  - intros (c & Hc & Hwhy). exists i. split.
    + apply list_elem_of_In, Hkeys. by eexists.
    + rewrite Hc. apply list_elem_of_In, elem_of_app.
      destruct Hwhy as [Hst|Hact].
      * left. apply Z.ltb_lt in Hst. rewrite Hst. by left.
      * right. rewrite Hact. by left.
Qed.

Lemma cleanup_task_lookup (now : Z) (h : SSE.t) (i : string) :
  ordered_keys h →
  SSE.connections (SSEStream._cleanup_task now h) !! i
  = match SSE.connections h !! i with
    | Some c =>
        if (300 <? now - SSE.last_ping c) || negb (SSE.active c) then None
        else Some c
    | None => None
    end.
Proof.
  intros Hkeys. unfold SSEStream._cleanup_task. rewrite foldl_close_lookup.
  destruct (decide (i ∈ SSEStream.connections_to_remove now h)) as [Hin|Hnotin].
  - apply (connections_to_remove_spec now h i Hkeys) in Hin
      as (c & -> & [Hst|Hact]).
    + apply Z.ltb_lt in Hst. by rewrite Hst.
    + rewrite Hact. by rewrite orb_true_r.
  - destruct (SSE.connections h !! i) as [c|] eqn:Hc; [| done].
    destruct ((300 <? now - SSE.last_ping c) || negb (SSE.active c)) eqn:Hwhy;
      [| done].
    exfalso. apply Hnotin, (connections_to_remove_spec now h i Hkeys).
    exists c. split; [done |].
    apply orb_true_iff in Hwhy as [Hst|Hact].
    + left. by apply Z.ltb_lt.
    + right. by apply negb_true_iff.
Qed.

(** X16.  One pass of the sweep closes exactly the connections whose last ping
    is more than 300 seconds old or that are no longer active; every
    other connection stays as it is. *)
Theorem sweep_closes_stale_and_inactive (now : Z) (h : SSE.t) (i : string) :
  ordered_keys h →
  SSE.connections (SSEStream._cleanup_task now h) !! i
  = match SSE.connections h !! i with
    | Some c =>
        if (300 <? now - SSE.last_ping c) || negb (SSE.active c) then None
        else Some c
    | None => None
    end.
Proof. apply cleanup_task_lookup. Qed.

Lemma sweep_witness :
  SSE.connections (SSEStream._cleanup_task 400 two_subscribers) !! "c1" = None.
Proof.
  rewrite (sweep_closes_stale_and_inactive 400 two_subscribers "c1"
             two_subscribers_ordered).
  reflexivity.
Defined.

(** X17.  Only [ping_connection] counts as activity.  However many events a
    connection is sent, its last ping stays where it was, so the sweep
    closes it once that ping is more than 300 seconds old; a ping at most
    300 seconds before the sweep keeps an active connection, with its
    queue as it was. *)
Theorem only_pings_keep_a_connection
    (event_type : string) (data : json) (targets : option (list string))
    (clock : nat → Z) (now t_ping : Z) (h : SSE.t) (i : string)
    (c : SSE.SSEConnection) :
  SSE.unbounded h → SSE.keyed h → ordered_keys h →
  SSE.connections h !! i = Some c →
  (300 < now - SSE.last_ping c →
   SSE.connections
     (SSEStream._cleanup_task now
        (SSE.handler (SSE.broadcast_event event_type data targets clock h)))
     !! i = None)
  ∧ (SSE.active c = true → now - t_ping ≤ 300 →
     SSE.connections
       (SSEStream._cleanup_task now (SSEStream.ping_connection i t_ping h).2)
       !! i = Some (SSEStream.set_last_ping c t_ping)).
Proof.
  intros Hmax Hkey Hkeys Hi. split.
  - intros Hstale.
    destruct (broadcast_event_spec event_type data targets clock h Hmax Hkey)
      as [_ Hconns].
    rewrite cleanup_task_lookup.
    + rewrite Hconns, Hi. simpl. rewrite deliver_last_ping.
      apply Z.ltb_lt in Hstale. by rewrite Hstale.
    + intros j. rewrite broadcast_event_order, Hconns, fmap_is_Some.
      apply Hkeys.
  - intros Hact Hfresh. unfold SSEStream.ping_connection. rewrite Hi. simpl.
    rewrite cleanup_task_lookup.
    + simpl. rewrite lookup_insert_eq. simpl. rewrite Hact.
      apply Z.ltb_ge in Hfresh. by rewrite Hfresh.
    + intros j. simpl. destruct (decide (j = i)) as [->|Hne].
      * rewrite lookup_insert_eq. split; [by eexists |]. intros _.
        apply Hkeys. by eexists.
      * rewrite lookup_insert_ne by done. apply Hkeys.
Qed.

Lemma only_pings_witness :
  SSE.connections
    (SSEStream._cleanup_task 400
       (SSE.handler
          (SSE.broadcast_event "task_completed" completion_payload None
             (λ _, 399) two_subscribers))) !! "c2" = None.
Proof.
  destruct (create_connection_fields (Some ["task_completed"]) "c2" 2
              (SSE.create_connection None "c1" 1 SSE.init).2 "task_started")
    as (c & Hc & _ & _ & Hping & _).
  apply (only_pings_keep_a_connection "task_completed" completion_payload None
           (λ _, 399) 400 0 two_subscribers "c2" c two_subscribers_unbounded
           two_subscribers_keyed two_subscribers_ordered Hc).
  rewrite Hping. reflexivity.
Defined.

Lemma stream_loop_events cid last pending ticks :
  events_of (SSEStream.stream_loop cid last pending ticks)
  `prefix_of` pending ++ arrivals ticks.
Proof.
  revert last pending. induction ticks as [|k ticks IH]; intros last pending.
  - apply prefix_nil.
  - destruct k as [| |e|now]; simpl; try apply prefix_nil.
    + destruct pending as [|next pending']; simpl.
      * apply prefix_cons, (IH last []).
      * apply prefix_cons. unfold arrivals. simpl.
        replace (pending' ++ e :: omap _ ticks)
          with ((pending' ++ [e]) ++ arrivals ticks)
          by by rewrite <- app_assoc.
        apply IH.
    + destruct pending as [|next pending']; simpl.
      * destruct (30 <? now - last); simpl; apply (IH _ []).
      * apply prefix_cons, IH.
Qed.

Lemma stream_loop_heartbeats cid last pending ticks :
  spaced last (heartbeats_of (SSEStream.stream_loop cid last pending ticks)).
Proof.
  revert last pending. induction ticks as [|k ticks IH]; intros last pending.
  - done.
  - destruct k as [| |e|now]; simpl; try done.
    + destruct pending as [|next pending']; simpl; apply IH.
    + destruct pending as [|next pending']; simpl; [| apply IH].
      destruct (30 <? now - last) eqn:Hlate; simpl; [| apply IH].
      split; [by apply Z.ltb_lt | apply IH].
Qed.

(** X18.  The stream of a connection yields events in queue order: what was
    waiting in its queue, then its own [connection_established] event,
    then the events that arrive, never one twice or out of turn; and its
    heartbeats are more than 30 seconds apart, the first more than 30
    seconds after the stream started.  Whenever the stream ends, the
    connection is removed from the registry.  A stream on an unknown
    connection yields nothing and changes nothing.  (The queue is an
    unbounded [asyncio.Queue()].) *)
Theorem event_stream_yields_in_order
    (cid : string) (t_data t_sent t_start : Z) (ticks : list SSEStream.tick)
    (h : SSE.t) :
  SSE.unbounded h →
  let r := SSEStream.event_stream cid t_data t_sent t_start ticks h in
  match SSE.connections h !! cid with
  | None => r = ([], h)
  | Some c =>
      events_of r.1
      `prefix_of`
        SSE.items (SSE.queue c)
        ++ [SSE.mk_event "connection_established"
              (JObj [("connection_id", JStr cid); ("timestamp", JInt t_data);
                     ("message", JStr "SSE connection established")])
              t_sent c]
        ++ arrivals ticks
      ∧ spaced t_start (heartbeats_of r.1)
      ∧ SSE.connections r.2 !! cid = None
      ∧ (SSE.active c = false → r.1 = [])
  end.
Proof.
  intros Hmax r. subst r. unfold SSEStream.event_stream.
  destruct (SSE.connections h !! cid) as [c|] eqn:Hc; [| done].
  rewrite (send_event_unbounded _ _ _ _ (Hmax _ _ Hc)), deliver_active.
  cbn [fst snd]. split; [| split; [| split]].
  - destruct (SSE.active c) eqn:Hact; [| apply prefix_nil].
    unfold deliver. rewrite Hact. cbn [SSE.set_queue_of SSE.queue SSE.items].
    rewrite app_assoc. apply stream_loop_events.
  - destruct (SSE.active c); [| done]. apply stream_loop_heartbeats.
  - rewrite close_connection_lookup. by case_decide.
  - by intros ->.
Qed.

Lemma event_stream_witness :
  SSE.connections
    (SSEStream.event_stream "c1" 5 5 5 [SSEStream.Idle 40; SSEStream.Closed]
       two_subscribers).2 !! "c1" = None.
Proof.
  pose proof (event_stream_yields_in_order "c1" 5 5 5
                [SSEStream.Idle 40; SSEStream.Closed] two_subscribers
                two_subscribers_unbounded) as Hstream.
  cbv zeta in Hstream.
  destruct (SSE.connections two_subscribers !! "c1") as [c|] eqn:Hc.
  - by destruct Hstream as (_ & _ & Hgone & _).
  - by rewrite Hstream.
Defined.

(* ===================================================================== *)
(** * Properties of the message parser *)
(* ===================================================================== *)

Lemma keys_within_get allowed d k :
  MessageParser.keys_within allowed d = true →
  existsb (String.eqb k) allowed = false →
  dict_get k d = None.
Proof.
  intros Hkeys Hk. induction d as [|[k' v] d IH]; [done |].
  simpl in Hkeys. apply andb_true_iff in Hkeys as [Hk' Hkeys]. simpl.
  destruct (String.eqb k k') eqn:Heq; [| by apply IH].
  apply String.eqb_eq in Heq. subst k'. congruence.
Qed.

(** X19.  What [parse_message] accepts is a request or a response, never
    both.  The parsed message has version 2.0; it is a request exactly
    when the dictionary has a [method] member, and then it carries no
    result and no error; otherwise it has an id and at most one of
    result and error.  A response whose result is null is accepted, and
    parses to a message that [is_response] does not recognise. *)
Theorem parsed_message_is_request_or_response
    (jsonschema_message : dict → string) (message_dict : dict)
    (message : MessageParser.MCPMessage) :
  MessageParser.parse_message jsonschema_message message_dict = Return message →
  MessageParser.jsonrpc message = "2.0"
  ∧ (MessageParser.is_request message = true
     ↔ dict_mem "method" message_dict = true)
  ∧ (MessageParser.is_request message = true →
     MessageKinds.is_response message = false)
  ∧ (MessageParser.is_request message = false →
     is_Some (MessageParser.id message)
     ∧ ¬ (is_Some (MessageParser.result message)
          ∧ is_Some (MessageParser.error message))
     ∧ (MessageKinds.is_response message = false
        ↔ dict_get "result" message_dict = Some JNull))
  ∧ (MessageParser.is_notification message = true
     ↔ dict_mem "method" message_dict = true
       ∧ dict_get "id" message_dict = None).
Proof.
  unfold MessageParser.parse_message, MessageParser._validate_message_structure.
  intros Hparse.
  destruct (dict_mem "method" message_dict) eqn:Hmethod.
  - destruct (MessageParser.request_schema message_dict) eqn:Hschema; [| done].
    injection Hparse as <-.
    unfold MessageParser.request_schema in Hschema.
    repeat (apply andb_true_iff in Hschema as [Hschema ?]).
    assert (dict_get "result" message_dict = None) as Hres
      by (eapply keys_within_get; [eassumption | reflexivity]).
    assert (dict_get "error" message_dict = None) as Herr
      by (eapply keys_within_get; [eassumption | reflexivity]).
    unfold MessageParser.is_notification, MessageParser.is_request,
      MessageKinds.is_response. simpl. rewrite Hres, Herr.
    destruct (dict_get "jsonrpc" message_dict) as [[| | |tag| |]|]; try done.
    destruct (dict_get "method" message_dict) as [[| | |name| |]|]; try done.
    split; [apply String.eqb_eq; exact H2 |].
    split; [done |]. split; [done |]. split; [done |].
    destruct (dict_get "id" message_dict); simpl; split; try done.
    by intros [_ ?].
  - destruct (dict_mem "result" message_dict || dict_mem "error" message_dict);
      [| done].
    destruct (MessageParser.response_schema message_dict) eqn:Hschema; [| done].
    injection Hparse as <-.
    unfold MessageParser.response_schema in Hschema.
    repeat (apply andb_true_iff in Hschema as [Hschema ?]).
    apply dict_mem_false in Hmethod.
    unfold MessageParser.is_notification, MessageParser.is_request,
      MessageKinds.is_response, dict_mem in *. simpl. rewrite Hmethod.
    destruct (dict_get "jsonrpc" message_dict) as [[| | |tag| |]|]; try done.
    match goal with
    | Htag : MessageParser.is_version_tag _ = true |- _ =>
        split; [apply String.eqb_eq; exact Htag |]
    end.
    simpl in *.
    split; [done |]. split; [done |]. split; [| split; [done | by intros [? _]]].
    intros _.
    destruct (dict_get "id" message_dict) as [i|]; [| done].
    split; [by eexists |].
    destruct (dict_get "result" message_dict) as [r|],
      (dict_get "error" message_dict) as [e|]; try done.
    + split; [destruct r; by intros [_ [? ?]] |].
      destruct r; split; done.
    + destruct e as [| | | | |e]; try done. split; [by intros [[? ?] _] |].
      split; done.
Qed.

Lemma parsed_message_witness :
  MessageParser.is_request (MessageParser.build_message null_result) = false
  ∧ MessageKinds.is_response (MessageParser.build_message null_result) = false.
Proof.
  destruct (parsed_message_is_request_or_response (λ _, "") null_result
              (MessageParser.build_message null_result) eq_refl)
    as (_ & _ & _ & Hresponse & _).
  split; [reflexivity |]. by apply Hresponse.
Defined.

(* ===================================================================== *)
(** * Further properties of the MCP gateway *)
(* ===================================================================== *)

Lemma parse_message_build jsonschema_message message_data message :
  MessageParser.parse_message jsonschema_message message_data = Return message →
  message = MessageParser.build_message message_data.
Proof.
  unfold MessageParser.parse_message.
  destruct (MessageParser._validate_message_structure _ _); congruence.
Qed.

Lemma handle_tools_call_id validate_command check_syntax execute
    supported_tools message :
  MCPSSE.resp_id
    (MCPSSE._handle_tools_call validate_command check_syntax execute
       supported_tools message)
  = MessageParser.id message.
Proof.
  unfold MCPSSE._handle_tools_call.
  destruct (if MCPSSE.is_tool "execute_command" _ then _ else _)
    as [[result|]|e]; reflexivity.
Qed.

Lemma handle_message_response_id
    (jsonschema_message : dict → string)
    (validate_command check_syntax : string → outcome MCPSSE.Verdict)
    (execute : string → json → outcome Executor.ExecResult)
    (supported_tools : outcome json)
    (message_data : dict) (now : Z) (c : MCPSSE.MCPSSEConnection) :
  ∃ response,
    (MCPSSE.handle_message jsonschema_message validate_command check_syntax
       execute supported_tools message_data now c).1 = Some response
    ∧ MCPSSE.resp_id response = dict_get "id" message_data.
Proof.
  unfold MCPSSE.handle_message.
  destruct (MessageParser.parse_message _ _) as [message|e] eqn:Hparse.
  - apply parse_message_build in Hparse. subst message.
    destruct (MCPSSE.method_is "initialize" _); [by eexists |].
    destruct (MCPSSE.method_is "tools/list" _); [by eexists |].
    destruct (MCPSSE.method_is "tools/call" _).
    { eexists. split; [reflexivity |]. apply handle_tools_call_id. }
    destruct (MCPSSE.method_is "resources/list" _); [by eexists |].
    destruct (MCPSSE.method_is "prompts/list" _); by eexists.
  - by eexists.
Qed.

(** X20.  Every message gets a response, and the response carries the [id]
    member of the message as it was received ([None] when the message
    has none), whether the message was served, refused or could not be
    parsed. *)
Theorem response_echoes_request_id
    (jsonschema_message : dict → string)
    (validate_command check_syntax : string → outcome MCPSSE.Verdict)
    (execute : string → json → outcome Executor.ExecResult)
    (supported_tools : outcome json)
    (message_data : dict) (now : Z) (c : MCPSSE.MCPSSEConnection) :
  ∃ response,
    (MCPSSE.handle_message jsonschema_message validate_command check_syntax
       execute supported_tools message_data now c).1 = Some response
    ∧ MCPSSE.resp_id response = dict_get "id" message_data.
Proof. apply handle_message_response_id. Qed.

(** X21.  The handshake is not enforced: the response to a message does not
    depend on the connection that handles it, nor on the time.  A
    connection that never saw [initialize] answers as one that did, and
    as the temporary connection of a direct POST. *)
Theorem response_ignores_connection_state
    (jsonschema_message : dict → string)
    (validate_command check_syntax : string → outcome MCPSSE.Verdict)
    (execute : string → json → outcome Executor.ExecResult)
    (supported_tools : outcome json)
    (message_data : dict) (now now' : Z) (c : MCPSSE.MCPSSEConnection) :
  (MCPSSE.handle_message jsonschema_message validate_command check_syntax
     execute supported_tools message_data now c).1
  = MCPSSE.handle_direct_message jsonschema_message validate_command
      check_syntax execute supported_tools message_data now'.
Proof.
  unfold MCPSSE.handle_direct_message, MCPSSE.handle_message.
  destruct (MessageParser.parse_message _ _) as [message|e]; [| done].
  destruct (MCPSSE.method_is "initialize" _); [done |].
  destruct (MCPSSE.method_is "tools/list" _); [done |].
  destruct (MCPSSE.method_is "tools/call" _); [done |].
  destruct (MCPSSE.method_is "resources/list" _); [done |].
  by destruct (MCPSSE.method_is "prompts/list" _).
Qed.

Lemma parse_initialize jsonschema_message message_data message :
  MessageParser.parse_message jsonschema_message message_data = Return message →
  MCPSSE.method_is "initialize" message = true
  ↔ dict_get "method" message_data = Some (JStr "initialize").
Proof.
  intros Hparse. apply parse_message_build in Hparse. subst message.
  unfold MCPSSE.method_is. simpl.
  destruct (dict_get "method" message_data) as [[| | |s| |]|]; split;
    try done.
  - intros Heq. apply String.eqb_eq in Heq. by subst.
  - intros [= ->]. done.
Qed.

Lemma handle_message_connection
    (jsonschema_message : dict → string)
    (validate_command check_syntax : string → outcome MCPSSE.Verdict)
    (execute : string → json → outcome Executor.ExecResult)
    (supported_tools : outcome json)
    (message_data : dict) (now : Z) (c : MCPSSE.MCPSSEConnection) :
  let c' := (MCPSSE.handle_message jsonschema_message validate_command
               check_syntax execute supported_tools message_data now c).2 in
  MCPSSE.connection_id c' = MCPSSE.connection_id c
  ∧ MCPSSE.created_at c' = MCPSSE.created_at c
  ∧ MCPSSE.last_activity c' = now
  ∧ MCPSSE.active c' = MCPSSE.active c
  ∧ MCPSSE.outbound_queue c' = MCPSSE.outbound_queue c
  ∧ (MCPSSE.initialized c' = true
     ↔ MCPSSE.initialized c = true
       ∨ (MessageParser.request_schema message_data = true
          ∧ dict_get "method" message_data = Some (JStr "initialize"))).
Proof.
  intros c'. subst c'. unfold MCPSSE.handle_message.
  destruct (MessageParser.parse_message _ _) as [message|e] eqn:Hparse.
  - pose proof (parse_initialize _ _ _ Hparse) as Hinit.
    destruct (MCPSSE.method_is "initialize" message) eqn:Hm.
    + simpl. repeat split; try done. intros _. right.
      destruct Hinit as [Hinit _]. specialize (Hinit eq_refl). split; [| done].
      unfold MessageParser.parse_message,
        MessageParser._validate_message_structure in Hparse.
      rewrite (dict_mem_get _ _ _ Hinit) in Hparse.
      by destruct (MessageParser.request_schema message_data).
    + assert (dict_get "method" message_data ≠ Some (JStr "initialize"))
        as Hne by (intros Heq; apply Hinit in Heq; congruence).
      destruct (MCPSSE.method_is "tools/list" _);
        [simpl; repeat split; try done; tauto |].
      destruct (MCPSSE.method_is "tools/call" _);
        [simpl; repeat split; try done; tauto |].
      destruct (MCPSSE.method_is "resources/list" _);
        [simpl; repeat split; try done; tauto |].
      destruct (MCPSSE.method_is "prompts/list" _);
        simpl; repeat split; try done; tauto.
  - simpl. repeat split; try done; [tauto |].
    intros [Hc|[Hschema Hmethod]]; [done |].
    rewrite (parse_request jsonschema_message message_data Hschema) in Hparse;
      [done | by eexists].
Qed.

(** X22.  Handling a message stamps the connection's last activity and leaves
    its identity, its active flag and its outbound queue alone.  The
    connection is marked initialized by a message that parses and whose
    method is [initialize], and by nothing else; the mark is never
    taken back. *)
Theorem only_initialize_marks_the_connection
    (jsonschema_message : dict → string)
    (validate_command check_syntax : string → outcome MCPSSE.Verdict)
    (execute : string → json → outcome Executor.ExecResult)
    (supported_tools : outcome json)
    (message_data : dict) (now : Z) (c : MCPSSE.MCPSSEConnection) :
  let c' := (MCPSSE.handle_message jsonschema_message validate_command
               check_syntax execute supported_tools message_data now c).2 in
  MCPSSE.connection_id c' = MCPSSE.connection_id c
  ∧ MCPSSE.created_at c' = MCPSSE.created_at c
  ∧ MCPSSE.last_activity c' = now
  ∧ MCPSSE.active c' = MCPSSE.active c
  ∧ MCPSSE.outbound_queue c' = MCPSSE.outbound_queue c
  ∧ (MCPSSE.initialized c' = true
     ↔ MCPSSE.initialized c = true
       ∨ (MessageParser.request_schema message_data = true
          ∧ dict_get "method" message_data = Some (JStr "initialize"))).
Proof. apply handle_message_connection. Qed.

Lemma parsed_method_is message name :
  MCPSSE.method_is name message = true
  ↔ MessageParser.method message = Some name.
Proof.
  unfold MCPSSE.method_is.
  destruct (MessageParser.method message) as [m|]; [| done].
  rewrite String.eqb_eq. split; [by intros -> | by intros [= ->]].
Qed.

(** X23.  A message that parses and whose method is none of [initialize],
    [tools/list], [tools/call], [resources/list] and [prompts/list] is
    answered with the JSON-RPC error -32601 (method not found), which
    echoes its id and names the method.  This includes a well-formed
    response sent to the server, which has no method at all. *)
Theorem unknown_method_is_method_not_found
    (jsonschema_message : dict → string)
    (validate_command check_syntax : string → outcome MCPSSE.Verdict)
    (execute : string → json → outcome Executor.ExecResult)
    (supported_tools : outcome json)
    (message_data : dict) (message : MessageParser.MCPMessage) (now : Z)
    (c : MCPSSE.MCPSSEConnection) :
  MessageParser.parse_message jsonschema_message message_data = Return message →
  MessageParser.method message
  ∉ Some <$> ["initialize"; "tools/list"; "tools/call"; "resources/list";
              "prompts/list"] →
  (MCPSSE.handle_message jsonschema_message validate_command check_syntax
     execute supported_tools message_data now c).1
  = Some {| MCPSSE.resp_id := dict_get "id" message_data;
            MCPSSE.body :=
              MCPSSE.Error (-32601)
                (MCPSSE.UnknownMethod (MessageParser.method message)) |}.
Proof.
  intros Hparse Hother. unfold MCPSSE.handle_message. rewrite Hparse.
  assert (∀ name,
            name ∈ ["initialize"; "tools/list"; "tools/call"; "resources/list";
                    "prompts/list"] →
            MCPSSE.method_is name message = false) as Hnot.
  { intros name Hname. destruct (MCPSSE.method_is name message) eqn:Hm; [| done].
    apply parsed_method_is in Hm. exfalso. apply Hother.
    rewrite Hm. by apply list_elem_of_fmap_2. }
  rewrite !Hnot by (rewrite !elem_of_cons; tauto).
  apply parse_message_build in Hparse. by subst message.
Qed.

Lemma unknown_method_witness :
  (MCPSSE.handle_message (λ _, "") accept_all accept_all
     (λ _ _, Raise (OtherError "unused")) (Return JNull)
     client_response 5 (MCPSSE.new_connection "c" 0)).1
  = Some {| MCPSSE.resp_id := Some (JInt 7);
            MCPSSE.body := MCPSSE.Error (-32601) (MCPSSE.UnknownMethod None) |}.
Proof.
  apply (unknown_method_is_method_not_found (λ _, "") accept_all accept_all
           (λ _ _, Raise (OtherError "unused")) (Return JNull) client_response
           (MessageParser.build_message client_response) 5
           (MCPSSE.new_connection "c" 0)).
  - reflexivity.
  - vm_compute. intros Hin. repeat (apply elem_of_cons in Hin as [Hin|Hin];
      [discriminate |]). by apply elem_of_nil in Hin.
Defined.

Lemma is_tool_spec name tool_name :
  MCPSSE.is_tool name tool_name = true ↔ tool_name = Some (JStr name).
Proof.
  unfold MCPSSE.is_tool. destruct tool_name as [[| | |s| |]|]; try done.
  rewrite String.eqb_eq. split; [by intros -> | by intros [= ->]].
Qed.

(** X24.  A [tools/call] whose tool name is none of [execute_command],
    [validate_command] and [list_supported_tools] is answered with the
    JSON-RPC error -32602 (invalid params), which echoes the id and
    names the tool; so is a call without parameters or without a tool
    name.  No tool, validator or executor is consulted. *)
Theorem unknown_tool_is_invalid_params
    (validate_command check_syntax : string → outcome MCPSSE.Verdict)
    (execute : string → json → outcome Executor.ExecResult)
    (supported_tools : outcome json)
    (message : MessageParser.MCPMessage) :
  dict_get "name" (default [] (MessageParser.params message))
  ∉ (Some ∘ JStr) <$> ["execute_command"; "validate_command";
                        "list_supported_tools"] →
  MCPSSE._handle_tools_call validate_command check_syntax execute
    supported_tools message
  = {| MCPSSE.resp_id := MessageParser.id message;
       MCPSSE.body :=
         MCPSSE.Error (-32602)
           (MCPSSE.UnknownTool
              (dict_get "name" (default [] (MessageParser.params message)))) |}.
Proof.
  intros Hother. unfold MCPSSE._handle_tools_call.
  assert (∀ name,
            name ∈ ["execute_command"; "validate_command";
                    "list_supported_tools"] →
            MCPSSE.is_tool name
              (dict_get "name" (default [] (MessageParser.params message)))
            = false) as Hnot.
  { intros name Hname. destruct (MCPSSE.is_tool name _) eqn:Hm; [| done].
    apply is_tool_spec in Hm. exfalso. apply Hother. rewrite Hm.
    by apply (list_elem_of_fmap_2 (Some ∘ JStr)). }
  rewrite !Hnot by (rewrite !elem_of_cons; tauto). reflexivity.
Qed.

Lemma unknown_tool_witness :
  MCPSSE._handle_tools_call accept_all accept_all
    (λ _ _, Raise (OtherError "unused")) (Return JNull) call_without_params
  = {| MCPSSE.resp_id := Some (JInt 3);
       MCPSSE.body := MCPSSE.Error (-32602) (MCPSSE.UnknownTool None) |}.
Proof.
  apply (unknown_tool_is_invalid_params accept_all accept_all
           (λ _ _, Raise (OtherError "unused")) (Return JNull)
           call_without_params).
  vm_compute. intros Hin. repeat (apply elem_of_cons in Hin as [Hin|Hin];
    [discriminate |]). by apply elem_of_nil in Hin.
Defined.

(** X25.  A command that the validator rejects is not executed: whatever the
    executor would do, [execute_command] returns the rejection with the
    validator's issues, and the gateway wraps it in an ordinary result
    (not a JSON-RPC error) that echoes the request id.  The full command
    is whatever [command] and [args] build, of any JSON type; one that
    is not a string is rejected by the validator's own exception
    handler. *)
Theorem rejected_command_is_not_executed
    (validate_command check_syntax : string → outcome MCPSSE.Verdict)
    (execute : string → json → outcome Executor.ExecResult)
    (supported_tools : outcome json)
    (message : MessageParser.MCPMessage) (params arguments : dict)
    (command full_command : json) (verdict : MCPSSE.Verdict) :
  MessageParser.params message = Some params →
  dict_get "name" params = Some (JStr "execute_command") →
  dict_get "arguments" params = Some (JObj arguments) →
  dict_get "command" arguments = Some command →
  truthy command = true →
  MCPSSE.build_full_command command
    (default (JArr []) (dict_get "args" arguments)) = Return full_command →
  MCPSSE.validate_value validate_command full_command = Return verdict →
  MCPSSE.valid verdict = false →
  MCPSSE._handle_tools_call validate_command check_syntax execute
    supported_tools message
  = {| MCPSSE.resp_id := MessageParser.id message;
       MCPSSE.body :=
         MCPSSE.Result
           (MCPSSE.ToolContent (MCPSSE.ExecRejected (MCPSSE.issues verdict))) |}
  ∧ ((∀ full, full_command ≠ JStr full) →
     verdict = MCPSSE.validate_non_string full_command).
Proof.
  intros Hparams Hname Hargs Hcommand Htruthy Hfull Hverdict Hvalid.
  split.
  - unfold MCPSSE._handle_tools_call, dict_get_default.
    rewrite Hparams. cbn [default from_option id]. rewrite Hname, Hargs.
    cbn [default from_option id MCPSSE.is_tool String.eqb Ascii.eqb Bool.eqb].
    unfold MCPSSE._execute_command, MCPSSE.json_get, fmap, outcome_fmap, mbind,
      outcome_bind.
    rewrite Hcommand. cbn [default from_option id]. rewrite Htruthy. cbn [negb].
    rewrite Hfull.
    unfold MCPSSE.validate_value in Hverdict.
    destruct full_command as [|b|z|full|l|d];
      first [by rewrite Hverdict, Hvalid | by injection Hverdict as <-].
  - intros Hother. unfold MCPSSE.validate_value in Hverdict.
    destruct full_command as [|b|z|full|l|d];
      first [by destruct (Hother full) | by injection Hverdict].
Qed.

Lemma rejected_command_witness :
  MCPSSE._handle_tools_call reject_all accept_all
    (λ _ _, Raise (OtherError "executed")) (Return JNull) rm_call
  = {| MCPSSE.resp_id := Some (JInt 4);
       MCPSSE.body :=
         MCPSSE.Result
           (MCPSSE.ToolContent (MCPSSE.ExecRejected ["dangerous command"])) |}.
Proof.
  apply (rejected_command_is_not_executed reject_all accept_all
           (λ _ _, Raise (OtherError "executed")) (Return JNull) rm_call
           [("name", JStr "execute_command");
            ("arguments", JObj [("command", JStr "rm");
                                ("args", JStr "-rf")])]
           [("command", JStr "rm"); ("args", JStr "-rf")]
           (JStr "rm") (JStr "rm - r f")
           {| MCPSSE.valid := false; MCPSSE.score := 0;
              MCPSSE.issues := ["dangerous command"] |});
    reflexivity.
Defined.

(** X26.  The stream handler queues at most one message per incoming message:
    nothing changes for an unknown connection; on a known one the
    response, which echoes the message id, is appended to the outbound
    queue when the connection is active and dropped when it is not.
    Other connections are not touched. *)
Theorem handler_queues_one_response
    (jsonschema_message : dict → string)
    (validate_command check_syntax : string → outcome MCPSSE.Verdict)
    (execute : string → json → outcome Executor.ExecResult)
    (supported_tools : outcome json)
    (connection_id : string) (message_data : dict) (now now' : Z)
    (connections : gmap string MCPSSE.MCPSSEConnection) :
  let connections' :=
    MCPSSE.handler_handle_message jsonschema_message validate_command
      check_syntax execute supported_tools connection_id message_data now now'
      connections in
  (∀ other, other ≠ connection_id →
            connections' !! other = connections !! other)
  ∧ match connections !! connection_id with
    | None => connections' = connections
    | Some c =>
        ∃ response c',
          connections' !! connection_id = Some c'
          ∧ MCPSSE.resp_id response = dict_get "id" message_data
          ∧ MCPSSE.active c' = MCPSSE.active c
          ∧ MCPSSE.outbound_queue c'
            = if MCPSSE.active c
              then MCPSSE.outbound_queue c ++ [MCPSSE.OutResponse response]
              else MCPSSE.outbound_queue c
    end.
Proof.
  intros connections'. subst connections'. unfold MCPSSE.handler_handle_message.
  destruct (connections !! connection_id) as [c|] eqn:Hc; [| done].
  destruct (handle_message_response_id jsonschema_message validate_command
              check_syntax execute supported_tools message_data now c)
    as (response & Hresponse & Hid).
  destruct (handle_message_connection jsonschema_message
              validate_command check_syntax execute supported_tools
              message_data now c) as (_ & _ & _ & Hactive & Hqueue & _).
  destruct (MCPSSE.handle_message _ _ _ _ _ _ _ _) as [r c1].
  simpl in Hresponse, Hactive, Hqueue. subst r. split.
  - intros other Hother. by rewrite lookup_insert_ne.
  - exists response. eexists. rewrite lookup_insert_eq. split; [done |].
    split; [done |]. unfold MCPSSE.send_message. rewrite Hactive.
    destruct (MCPSSE.active c) eqn:Hact; simpl.
    + by rewrite Hqueue.
    + by rewrite Hactive, Hqueue.
Qed.

(* ===================================================================== *)
(** * Further properties of the HTTP front end *)
(* ===================================================================== *)

Lemma updated_task_status task status progress error result now :
  TaskManager.status (updated_task task status progress error result now)
  = status.
Proof.
  unfold updated_task. destruct (decide _); [done |]. by destruct (_ && _).
Qed.

Lemma execute_task_async_spec executor_execute tid clock m task :
  TaskManager.tasks m !! tid = Some task →
  let r := MCPServer._execute_task_async executor_execute tid clock m in
  TaskManager.pending_queue r.2 = TaskManager.pending_queue m
  ∧ TaskManager.running_tasks r.2 = TaskManager.running_tasks m
  ∧ TaskManager.config r.2 = TaskManager.config m
  ∧ MCPServer.response_task_id r.1 = Some tid
  ∧ ∃ task',
      TaskManager.tasks r.2 !! tid = Some task'
      ∧ TaskManager.status task'
        = (if MCPServer.success r.1 then TaskManager.COMPLETED
           else TaskManager.FAILED).
Proof.
  intros Htask r. subst r. unfold MCPServer._execute_task_async,
    TaskManager.get_task. rewrite Htask.
  set (m1 := (TaskManager.update_task_status tid TaskManager.RUNNING None None
                None (clock 2%nat) m).2).
  assert (TaskManager.tasks m1 !! tid
          = Some (updated_task task TaskManager.RUNNING None None None
                    (clock 2%nat))) as Htask1.
  { subst m1. rewrite (update_task_status_tasks _ _ _ _ _ _ _ _ Htask).
    apply lookup_insert_eq. }
  assert (TaskManager.pending_queue m1 = TaskManager.pending_queue m) as Hq1
    by apply update_task_status_queue.
  assert (TaskManager.running_tasks m1 = TaskManager.running_tasks m) as Hr1
    by apply update_task_status_running.
  assert (TaskManager.config m1 = TaskManager.config m) as Hc1
    by apply update_task_status_config.
  clearbody m1.
  destruct (executor_execute _ _ _) as [result|e]; cbn [fst snd].
  - destruct (Executor.r_success result) eqn:Hok; cbn [MCPServer.success];
      rewrite ?Hok, update_task_status_queue, update_task_status_running,
        update_task_status_config,
        (update_task_status_tasks _ _ _ _ _ _ _ _ Htask1), lookup_insert_eq;
      (repeat split; try done); eexists; (split; [reflexivity |]);
      apply updated_task_status.
  - cbn [MCPServer.success].
    rewrite update_task_status_queue, update_task_status_running,
      update_task_status_config,
      (update_task_status_tasks _ _ _ _ _ _ _ _ Htask1), lookup_insert_eq.
    repeat split; try done. eexists. split; [reflexivity |].
    apply updated_task_status.
Qed.

(** X27.  A request that is admitted and executed synchronously leaves its
    task finished, COMPLETED when the reply reports success and FAILED
    otherwise, yet still holding its place in the pending queue: nothing
    in the request path dequeues it.  The number of tasks that admission
    control counts against [max_concurrent_tasks] is therefore one
    higher after every such request. *)
Theorem finished_task_keeps_its_queue_slot
    (validate_command : string → outcome MCPSSE.Verdict)
    (executor_execute : string → json → string → outcome Executor.ExecResult)
    (request : MCPServer.CommandRequest) (fresh_id : string) (clock : nat → Z)
    (s : MCPServer.t) (priority : TaskManager.TaskPriority)
    (verdict : MCPSSE.Verdict) :
  Forall (λ x, is_Some (TaskManager.tasks (MCPServer.task_manager s) !! x))
         (TaskManager.pending_queue (MCPServer.task_manager s)) →
  TaskManager.tasks (MCPServer.task_manager s) !! fresh_id = None →
  MCPServer.priority_of
    (dict_get_default "priority" (JStr "normal")
       (default [] (MCPServer.options request))) = Return priority →
  validate_command
    (MCPServer.full_command_of (MCPServer.command request)
       (default [] (MCPServer.args request))) = Return verdict →
  MCPSSE.valid verdict = true →
  TaskManager.can_accept_new_task (MCPServer.task_manager s) = true →
  truthy (dict_get_default "async" (JBool false)
            (default [] (MCPServer.options request))) = false →
  let r := MCPServer._execute_command_async validate_command executor_execute
             request fresh_id clock s in
  ∃ response task,
    r.1 = MCPServer.Replied response
    ∧ MCPServer.response_task_id response = Some fresh_id
    ∧ TaskManager.tasks (MCPServer.task_manager r.2) !! fresh_id = Some task
    ∧ TaskManager.status task
      = (if MCPServer.success response then TaskManager.COMPLETED
         else TaskManager.FAILED)
    ∧ fresh_id ∈ TaskManager.pending_queue (MCPServer.task_manager r.2)
    ∧ TaskManager.active_count (MCPServer.task_manager r.2)
      = TaskManager.active_count (MCPServer.task_manager s) + 1.
Proof.
  intros Hreg Hfresh Hprio Hval Hvalid Hcan Hsync r. subst r.
  unfold MCPServer._execute_command_async.
  rewrite Hprio, Hval, Hvalid, Hcan, Hsync. cbn [negb].
  destruct (create_task_spec (MCPServer.command request)
              (Some (default [] (MCPServer.args request)))
              (Some (default [] (MCPServer.options request))) priority
              (match MCPServer.context request with
               | Some ((_ :: _) as c) => dict_get "user_id" c
               | _ => None
               end)
              (match MCPServer.context request with
               | Some ((_ :: _) as c) => dict_get "session_id" c
               | _ => None
               end) fresh_id (clock 1%nat) (MCPServer.task_manager s)
              Hreg Hfresh)
    as (task & l1 & l2 & Hq & Hret & Hq' & Htasks & _ & _ & Hrun & _).
  destruct (TaskManager.create_task _ _ _ _ _ _ _ _ _) as [created m1].
  cbn [fst snd] in Hret, Hq', Htasks, Hrun. subst created.
  assert (TaskManager.tasks m1 !! fresh_id = Some task) as Htask
    by (rewrite Htasks; apply lookup_insert_eq).
  destruct (execute_task_async_spec executor_execute fresh_id clock m1 task
              Htask) as (Hq2 & Hrun2 & _ & Hid & task' & Htask' & Hstatus).
  destruct (MCPServer._execute_task_async _ _ _ _) as [response m2].
  cbn [fst snd] in *. exists response, task'.
  cbn [fst snd MCPServer.task_manager].
  split; [done |]. split; [done |]. split; [done |]. split; [done |].
  unfold TaskManager.active_count. rewrite Hq2, Hq', Hrun2, Hrun, Hq.
  split.
  - apply elem_of_app. right. by left.
  - rewrite !length_app. simpl. lia.
Qed.

Lemma finished_task_witness :
  ∃ response task,
    (MCPServer._execute_command_async accept_all quiet_executor echo_request
       "t1" (λ _, 20) idle_server).1 = MCPServer.Replied response
    ∧ MCPServer.response_task_id response = Some "t1"
    ∧ TaskManager.tasks
        (MCPServer.task_manager
           (MCPServer._execute_command_async accept_all quiet_executor
              echo_request "t1" (λ _, 20) idle_server).2) !! "t1" = Some task
    ∧ TaskManager.status task
      = (if MCPServer.success response then TaskManager.COMPLETED
         else TaskManager.FAILED)
    ∧ "t1" ∈ TaskManager.pending_queue
               (MCPServer.task_manager
                  (MCPServer._execute_command_async accept_all quiet_executor
                     echo_request "t1" (λ _, 20) idle_server).2)
    ∧ TaskManager.active_count
        (MCPServer.task_manager
           (MCPServer._execute_command_async accept_all quiet_executor
              echo_request "t1" (λ _, 20) idle_server).2)
      = TaskManager.active_count (MCPServer.task_manager idle_server) + 1.
Proof.
  apply (finished_task_keeps_its_queue_slot accept_all quiet_executor
           echo_request "t1" (λ _, 20) idle_server TaskManager.NORMAL
           {| MCPSSE.valid := true; MCPSSE.score := 1; MCPSSE.issues := [] |});
    try reflexivity.
  constructor.
Defined.

(** X28.  A request whose command the validator rejects creates no task and
    schedules nothing: the task manager is as before, whatever the
    executor and the load.  Once the security alert has been handed to
    the event bus (it is, when every queue is unbounded) the reply is the
    validation rejection with the validator's issues. *)
Theorem rejected_request_creates_no_task
    (validate_command : string → outcome MCPSSE.Verdict)
    (executor_execute : string → json → string → outcome Executor.ExecResult)
    (request : MCPServer.CommandRequest) (fresh_id : string) (clock : nat → Z)
    (s : MCPServer.t) (priority : TaskManager.TaskPriority)
    (verdict : MCPSSE.Verdict) :
  MCPServer.priority_of
    (dict_get_default "priority" (JStr "normal")
       (default [] (MCPServer.options request))) = Return priority →
  validate_command
    (MCPServer.full_command_of (MCPServer.command request)
       (default [] (MCPServer.args request))) = Return verdict →
  MCPSSE.valid verdict = false →
  let r := MCPServer._execute_command_async validate_command executor_execute
             request fresh_id clock s in
  MCPServer.task_manager r.2 = MCPServer.task_manager s
  ∧ MCPServer.background r.2 = MCPServer.background s
  ∧ (SSE.unbounded (MCPServer.sse_handler s) →
     SSE.keyed (MCPServer.sse_handler s) →
     r.1 = MCPServer.Replied
             (MCPServer.ValidationRejected (MCPSSE.issues verdict))).
Proof.
  intros Hprio Hval Hvalid r. subst r.
  unfold MCPServer._execute_command_async. rewrite Hprio, Hval, Hvalid.
  cbn [negb]. unfold SSE.send_security_alert.
  match goal with
  | |- context [SSE.broadcast_event ?ty ?data None ?ck ?h] =>
      pose proof (broadcast_event_spec ty data None ck h) as Hsent;
      destruct (SSE.broadcast_event ty data None ck h) as [w h']
  end.
  cbn [SSE.waiting_on SSE.handler] in *.
  destruct w as [|j w]; cbn [fst snd MCPServer.task_manager MCPServer.background].
  - done.
  - split; [done |]. split; [done |]. intros Hmax Hkey.
    by destruct (Hsent Hmax Hkey) as [? _].
Qed.

Lemma rejected_request_witness :
  (MCPServer._execute_command_async
     (λ _, Return {| MCPSSE.valid := false; MCPSSE.score := 0;
                     MCPSSE.issues := ["dangerous command"] |})
     quiet_executor echo_request "t2" (λ _, 20) busy_server).1
  = MCPServer.Replied (MCPServer.ValidationRejected ["dangerous command"]).
Proof.
  destruct (rejected_request_creates_no_task
              (λ _, Return {| MCPSSE.valid := false; MCPSSE.score := 0;
                              MCPSSE.issues := ["dangerous command"] |})
              quiet_executor echo_request "t2" (λ _, 20) busy_server
              TaskManager.NORMAL
              {| MCPSSE.valid := false; MCPSSE.score := 0;
                 MCPSSE.issues := ["dangerous command"] |}
              eq_refl eq_refl eq_refl) as (_ & _ & Hreply).
  apply Hreply; [apply unbounded_init | apply keyed_init].
Defined.
